(** * traits.py: trait localisation utilities of arkhamdb-json-data

    A shallow embedding of [src/traits.py] and the properties of its
    operations: the trait string codec, the discovery of pack files, the
    master trait list, the per-language placeholder, the propagation of
    traits to translated packs, and the text form of a traits file.

    Conventions of the embedding.
    - The interpreter is Python 3 (3.7 or later: a dict keeps the order of
      insertion). A string is the list of its code points, compared code
      point by code point. Python 3 has no order on dicts: [list.sort] on a
      list of dicts, at the end of [txt2json], raises [TypeError] at its
      first comparison. [IOError] is Python 3's alias of [OSError]; the
      constructors of [exn] keep the name the source or the library uses
      and tell the errors apart by what they carry.
    - A pack or traits file holds a JSON array of objects; the script reads
      only string-valued fields ([code], [name], [traits]), so an object is
      an ordered list of key/string pairs, as [OrderedDict] keeps it.
      [json.load] and [json.dumps] are abstracted: a JSON file holds the
      value [json.load] returns for it.
    - A path is the list of its components below the process working
      directory, each a plain name; [os.path.join] is concatenation.
      [os.listdir] lists a directory in the order the tree stores it.
    - A run is a function of the world, the file tree and the log of the
      files opened for writing; an exception leaves the world as it was when
      it was raised. Standard output is not modelled.
    - Writing a file is one step: [io.open(p, 'w')] with the [fp.write]
      that follows it creates or replaces the file with its content. A
      [fp.write] that fails after the file is open (text the encoding cannot
      hold, a full disk) and leaves the file empty is outside the model: no
      result below states what the tree holds after an error of a write. *)

From stdpp Require Import base numbers list option strings gmap sorting.

Set Warnings "-register-all".
Open Scope N_scope.

(** ** Unicode strings *)

Module Py.

Abbreviation char := N.
Abbreviation str := (list char).

(** A string literal of the source, from its ASCII spelling. *)
Fixpoint u (s : string) : str :=
  match s with
  | EmptyString => []
  | String a s' => Ascii.N_of_ascii a :: u s'
  end.

Definition TAB : char := 9.
Definition LF : char := 10.
Definition CR : char := 13.
Definition SPACE : char := 32.
Definition DOT : char := 46.

(** [str.isspace] on one character: the characters [str.strip()] removes. *)
Definition isspace (c : char) : bool :=
  ((9 <=? c) && (c <=? 13)) || ((28 <=? c) && (c <=? 32))
  || (c =? 133) || (c =? 160) || (c =? 5760)
  || ((8192 <=? c) && (c <=? 8202)) || (c =? 8232) || (c =? 8233)
  || (c =? 8239) || (c =? 8287) || (c =? 12288).

Fixpoint lstrip (s : str) : str :=
  match s with
  | [] => []
  | c :: s' => if isspace c then lstrip s' else s
  end.

Definition rstrip (s : str) : str := reverse (lstrip (reverse s)).

(** [s.strip()] *)
Definition strip (s : str) : str := rstrip (lstrip s).

(** [s.split(sep)] for a one-character separator: always at least one
    piece, one more than the number of separators. *)
Fixpoint split (sep : char) (s : str) : list str :=
  match s with
  | [] => [[]]
  | c :: s' =>
      if c =? sep then [] :: split sep s'
      else match split sep s' with
           | [] => [[c]]
           | p :: ps => (c :: p) :: ps
           end
  end.

(** [sep.join(l)] *)
Fixpoint join (sep : str) (l : list str) : str :=
  match l with
  | [] => []
  | [x] => x
  | x :: l' => x ++ sep ++ join sep l'
  end.

(** Truth value of a string or list: non-empty. *)
Definition truthy {A} (l : list A) : bool :=
  match l with [] => false | _ => true end.

(** [s.lower()] on the ASCII range. No character outside it lower-cases to
    one of the letters of [.json], the only string the script compares a
    lower-cased string with. *)
Definition lower_char (c : char) : char :=
  if (65 <=? c) && (c <=? 90) then c + 32 else c.
Definition lower (s : str) : str := map lower_char s.

(** Comparison of strings: lexicographic on code points. *)
Fixpoint compare (s t : str) : comparison :=
  match s, t with
  | [], [] => Eq
  | [], _ :: _ => Lt
  | _ :: _, [] => Gt
  | a :: s', b :: t' =>
      match N.compare a b with
      | Eq => compare s' t'
      | c => c
      end
  end.

Definition leb (s t : str) : bool :=
  match compare s t with Gt => false | _ => true end.

End Py.

Abbreviation u := Py.u.
Arguments Py.u _ : simpl never.

(** ** The trait string codec *)

(** [_split_traits]: [[x.strip() for x in traits.split('.') if x.strip()]] *)
Definition _split_traits (traits : Py.str) : list Py.str :=
  map Py.strip (filter (λ x, Py.truthy (Py.strip x) = true) (Py.split Py.DOT traits)).

(** [_merge_traits] *)
Definition _merge_traits (traits : list Py.str) : Py.str :=
  if negb (Py.truthy traits) then u ""
  else Py.join (u ". ") traits ++ u ".".

(** ** JSON data, exceptions *)

(** A path: its components. *)
Abbreviation filepath := (list Py.str).

(** An object as [json.load(fp, object_pairs_hook=OrderedDict)] returns it,
    and a dict literal of the script in the order it is written. *)
Abbreviation odict := (list (Py.str * Py.str)).

Inductive message :=
| not_directory (p : filepath)            (* '%s is not directory (when parsing json)' *)
| traits_not_found                    (* 'traits file not found.' *)
| language_not_found (code : Py.str)  (* 'language code(%s) is not found.' *)
| no_proper_json                      (* 'no proper json files' *)
| cannot_open (p : filepath).             (* raised by io.open *)

Inductive exn :=
| KeyError (k : Py.str)
| ValueError
| IndexError
| TypeError                               (* '<' between two dicts *)
| IOError (m : message)
| OSError (p : filepath).                 (* raised by os.listdir *)

Inductive result (A : Type) :=
| Ok (a : A)
| Raise (e : exn).
Arguments Ok {A} a.
Arguments Raise {A} e.

#[global] Instance result_ret : MRet result := λ A a, Ok a.
#[global] Instance result_bind : MBind result := λ A B f m,
  match m with
  | Ok a => f a
  | Raise e => Raise e
  end.

(** A loop that threads an accumulator and stops at the first exception. *)
Fixpoint foldR {A S} (f : S → A → result S) (s : S) (l : list A) : result S :=
  match l with
  | [] => Ok s
  | x :: l' => s' ← f s x; foldR f s' l'
  end.

(** A list comprehension whose element expression can raise. *)
Fixpoint mapR {A B} (f : A → result B) (l : list A) : result (list B) :=
  match l with
  | [] => Ok []
  | x :: l' => y ← f x; ys ← mapR f l'; Ok (y :: ys)
  end.

Module OrderedDict.

Fixpoint get (d : odict) (k : Py.str) : option Py.str :=
  match d with
  | [] => None
  | (k', v) :: d' => if bool_decide (k' = k) then Some v else get d' k
  end.

(** [k in d] *)
Definition contains (k : Py.str) (d : odict) : bool :=
  bool_decide (is_Some (get d k)).

(** [d[k]] *)
Definition getitem (d : odict) (k : Py.str) : result Py.str :=
  match get d k with
  | Some v => Ok v
  | None => Raise (KeyError k)
  end.

(** [d[k] = v]: an existing key keeps its position, a new key goes last. *)
Fixpoint setitem (d : odict) (k v : Py.str) : odict :=
  match d with
  | [] => [(k, v)]
  | (k', v') :: d' =>
      if bool_decide (k' = k) then (k, v) :: d' else (k', v') :: setitem d' k v
  end.

End OrderedDict.

Module Dict.

(** [d[k]] on a plain dict *)
Definition getitem (d : gmap Py.str Py.str) (k : Py.str) : result Py.str :=
  match d !! k with
  | Some v => Ok v
  | None => Raise (KeyError k)
  end.

End Dict.

(** ** Sorting *)

(** [list.sort] is stable and only asks [x < y]. A stable sort has one
    possible outcome, given here by insertion. *)
Section sort.
Context {A : Type} (lt : A → A → bool).

Fixpoint insert_sorted (x : A) (l : list A) : list A :=
  match l with
  | [] => [x]
  | y :: l' => if lt y x then y :: insert_sorted x l' else x :: l
  end.

Fixpoint sort (l : list A) : list A :=
  match l with
  | [] => []
  | x :: l' => insert_sorted x (sort l')
  end.
End sort.

Definition str_lt (s t : Py.str) : bool :=
  match Py.compare s t with Lt => true | _ => false end.

(** [sorted(l)] on strings *)
Definition sorted (l : list Py.str) : list Py.str := sort str_lt l.

(** [l.sort(key=key)]: the keys are computed first, one call per element. *)
Definition sort_key {A} (key : A → result Py.str) (l : list A) : result (list A) :=
  keys ← mapR key l;
  Ok (map snd (sort (λ x y, str_lt (fst x) (fst y)) (zip keys l))).

(** [l.sort()] on a list of dicts. There is no [<] between dicts: the first
    comparison raises [TypeError], and sorting two or more elements
    compares. A list of fewer than two elements is returned as it is. *)
Definition sort_dicts (l : list odict) : result (list odict) :=
  match l with
  | _ :: _ :: _ => Raise TypeError
  | _ => Ok l
  end.

(** ** The file system and the effects of the script *)

Inductive content :=
| Json (data : list odict)   (* a JSON array of objects *)
| Text (s : Py.str).         (* any other text *)

Inductive node :=
| File (c : content)
| Dir (entries : list (Py.str * node)).

Module FS.

Fixpoint entry (x : Py.str) (es : list (Py.str * node)) : option node :=
  match es with
  | [] => None
  | (y, n) :: es' => if bool_decide (y = x) then Some n else entry x es'
  end.

Fixpoint set_entry (x : Py.str) (n : node) (es : list (Py.str * node)) :
    list (Py.str * node) :=
  match es with
  | [] => [(x, n)]
  | (y, m) :: es' =>
      if bool_decide (y = x) then (x, n) :: es' else (y, m) :: set_entry x n es'
  end.

Fixpoint resolve (n : node) (p : filepath) : option node :=
  match p with
  | [] => Some n
  | x :: p' =>
      match n with
      | File _ => None
      | Dir es =>
          match entry x es with
          | Some m => resolve m p'
          | None => None
          end
      end
  end.

(** What the path names, seen from the working directory [n]; the empty
    path names nothing. *)
Definition stat (n : node) (p : filepath) : option node :=
  match p with
  | [] => None
  | _ => resolve n p
  end.

(** The tree after [io.open(p, 'w')] and writing [c]: the file is replaced,
    or created in an existing directory; [None] when it cannot be opened. *)
Fixpoint store (n : node) (p : filepath) (c : content) : option node :=
  match p with
  | [] =>
      match n with
      | File _ => Some (File c)
      | Dir _ => None
      end
  | x :: p' =>
      match n with
      | File _ => None
      | Dir es =>
          match entry x es with
          | Some m => (λ m', Dir (set_entry x m' es)) <$> store m p' c
          | None =>
              match p' with
              | [] => Some (Dir (set_entry x (File c) es))
              | _ => None
              end
          end
      end
  end.

End FS.

(** The state of a run: the tree below the working directory, and the
    paths opened for writing so far, in order. *)
Record world := World { cwd : node; written : list filepath }.

Definition IO (A : Type) : Type := world → world * result A.

#[global] Instance IO_ret : MRet IO := λ A a w, (w, Ok a).
#[global] Instance IO_bind : MBind IO := λ A B f m w,
  match m w with
  | (w', Ok a) => f a w'
  | (w', Raise e) => (w', Raise e)
  end.

Definition raise {A} (e : exn) : IO A := λ w, (w, Raise e).
Definition lift {A} (r : result A) : IO A := λ w, (w, r).

(** A [for] loop over [l]; the body can raise. *)
Fixpoint for_each {A} (body : A → IO unit) (l : list A) : IO unit :=
  match l with
  | [] => mret ()
  | x :: l' => body x ≫= λ _, for_each body l'
  end.

(** A loop that grows a value. *)
Fixpoint foldIO {A S} (f : S → A → IO S) (s : S) (l : list A) : IO S :=
  match l with
  | [] => mret s
  | x :: l' => f s x ≫= λ s', foldIO f s' l'
  end.

Module os.

Definition isdir (p : filepath) : IO bool := λ w,
  (w, Ok match FS.stat (cwd w) p with Some (Dir _) => true | _ => false end).

Definition isfile (p : filepath) : IO bool := λ w,
  (w, Ok match FS.stat (cwd w) p with Some (File _) => true | _ => false end).

Definition listdir (p : filepath) : IO (list Py.str) := λ w,
  match FS.stat (cwd w) p with
  | Some (Dir es) => (w, Ok (map fst es))
  | _ => (w, Raise (OSError p))
  end.

(** The index of the last [c] in [s] *)
Fixpoint rfind (c : Py.char) (s : Py.str) : option nat :=
  match s with
  | [] => None
  | a :: s' =>
      match rfind c s' with
      | Some i => Some (S i)
      | None => if a =? c then Some 0%nat else None
      end
  end.

(** [os.path.splitext] on a name: the extension starts at the last dot,
    unless only dots come before it. *)
Definition splitext (p : Py.str) : Py.str * Py.str :=
  match rfind Py.DOT p with
  | Some i =>
      if existsb (λ c, negb (c =? Py.DOT)) (take i p) then (take i p, drop i p)
      else (p, [])
  | None => (p, [])
  end.

End os.

Module io.

(** [with io.open(p) as fp: json.load(fp, ...)] *)
Definition load_json (p : filepath) : IO (list odict) := λ w,
  match FS.stat (cwd w) p with
  | Some (File (Json data)) => (w, Ok data)
  | Some (File (Text _)) => (w, Raise ValueError)
  | _ => (w, Raise (IOError (cannot_open p)))
  end.

(** [io.open(p, 'w')] followed by the write of [c] *)
Definition write (p : filepath) (c : content) : IO unit := λ w,
  match p with
  | [] => (w, Raise (IOError (cannot_open p)))
  | _ =>
      match FS.store (cwd w) p c with
      | Some n => (World n (written w ++ [p]), Ok ())
      | None => (w, Raise (IOError (cannot_open p)))
      end
  end.

(** [with io.open(p, 'w') as fp: fp.write(json.dumps(data, ...))] *)
Definition dump_json (p : filepath) (data : list odict) : IO unit :=
  write p (Json data).

(** Universal newlines, as a text file is read. *)
Fixpoint universal_newlines (s : Py.str) : Py.str :=
  match s with
  | [] => []
  | c :: s' =>
      if c =? Py.CR then
        match s' with
        | d :: s'' =>
            if d =? Py.LF then Py.LF :: universal_newlines s''
            else Py.LF :: universal_newlines s'
        | [] => [Py.LF]
        end
      else c :: universal_newlines s'
  end.

(** The lines of a text, each with its line feed. *)
Fixpoint lines (s : Py.str) : list Py.str :=
  match s with
  | [] => []
  | c :: s' =>
      if c =? Py.LF then [c] :: lines s'
      else match lines s' with
           | [] => [[c]]
           | l :: ls => (c :: l) :: ls
           end
  end.

(** [io.open(p)] and the lines the file object yields. A JSON array is not
    kept as text; its first line, [[] or [[]], holds no tab, which is all
    the script can observe of it before it fails. *)
Definition readlines (p : filepath) : IO (list Py.str) := λ w,
  match FS.stat (cwd w) p with
  | Some (File (Text s)) => (w, Ok (lines (universal_newlines s)))
  | Some (File (Json _)) => (w, Ok [u "["])
  | _ => (w, Raise (IOError (cannot_open p)))
  end.

(** [fp.write(s)] on a file opened for writing at [p] *)
Definition append (p : filepath) (s : Py.str) : IO unit := λ w,
  match FS.stat (cwd w) p with
  | Some (File (Text t)) =>
      match FS.store (cwd w) p (Text (t ++ s)) with
      | Some n => (World n (written w), Ok ())
      | None => (w, Raise (IOError (cannot_open p)))
      end
  | _ => (w, Raise (IOError (cannot_open p)))
  end.

End io.

(** ** The script *)

Definition PACK_PATH : Py.str := u "pack".
Definition TRANSLATION_PATH : Py.str := u "translations".
Definition TRAITS_FILENAME : Py.str := u "traits.json".

(** [os.path.splitext(name)[-1].lower() == '.json'] *)
Definition is_json_name (name : Py.str) : bool :=
  bool_decide (Py.lower (os.splitext name).2 = u ".json").

(** Body of the loop of [get_json_files]. [os.path.isfile(cycle)] is asked
    of [cycle] itself, a path from the working directory. *)
Definition get_json_files_cycle (path : filepath) (json_files : list filepath)
    (cycle : Py.str) : IO (list filepath) :=
  f ← os.isfile [cycle];
  if f && is_json_name cycle then mret (json_files ++ [[cycle]])
  else
    packs ← os.listdir (path ++ [cycle]);
    mret (json_files ++ map (λ pack, [cycle; pack]) (filter (λ pack, is_json_name pack = true) packs)).

(** [get_json_files(path, cycles=None)] *)
Definition get_json_files (path : filepath) (cycles : option (list Py.str)) :
    IO (list filepath) :=
  d ← os.isdir path;
  if negb d then raise (IOError (not_directory path))
  else
    cycles ← match cycles with
             | Some (c :: cs) => mret (c :: cs)
             | _ => os.listdir path     (* [if not cycles:] None or empty *)
             end;
    foldIO (get_json_files_cycle path) [] cycles.

(** Body of the inner loop of [make_placeholder] *)
Definition collect_traits (traits : gset Py.str) (card : odict) :
    result (gset Py.str) :=
  if negb (OrderedDict.contains (u "traits") card) then Ok traits
  else
    t ← OrderedDict.getitem card (u "traits");
    Ok (traits ∪ list_to_set (_split_traits t)).

(** [{'code': x, 'name': x}] *)
Definition trait_entry (code name : Py.str) : odict :=
  [(u "code", code); (u "name", name)].

Definition make_placeholder : IO unit :=
  json_files ← get_json_files [PACK_PATH] None;
  traits ← foldIO (λ traits json_file,
              data ← io.load_json (PACK_PATH :: json_file);
              lift (foldR collect_traits traits data))
            (∅ : gset Py.str) json_files;
  let traits := sorted (elements traits) in
  let data := map (λ x, trait_entry x x) traits in
  io.dump_json [TRAITS_FILENAME] data.

Definition update_placeholder (code : Py.str) : IO unit :=
  f ← os.isfile [TRAITS_FILENAME];
  if negb f then raise (IOError traits_not_found)
  else
    d ← os.isdir [TRANSLATION_PATH; code];
    if negb d then raise (IOError (language_not_found code))
    else
      let trans_traits_path := [TRANSLATION_PATH; code; TRAITS_FILENAME] in
      f ← os.isfile trans_traits_path;
      trans_data ← (if (f : bool)
                    then data ← io.load_json trans_traits_path; mret (Some data)
                    else mret None);
      let trans_data := match trans_data with
                        | Some (x :: l) => x :: l
                        | _ => []            (* [if not trans_data:] *)
                        end in
      trans_codes ← lift (mapR (λ x, OrderedDict.getitem x (u "code")) trans_data);
      data ← io.load_json [TRAITS_FILENAME];
      trans_data ← lift (foldR (λ trans_data item,
                          c ← OrderedDict.getitem item (u "code");
                          Ok (if bool_decide (c ∉ trans_codes) then trans_data ++ [item]
                              else trans_data))
                        trans_data data);
      trans_data ← lift (sort_key (λ x, OrderedDict.getitem x (u "code")) trans_data);
      io.dump_json trans_traits_path trans_data.

(** [l.index(x)] or [None] for the [ValueError] *)
Fixpoint index (x : Py.str) (l : list Py.str) : option nat :=
  match l with
  | [] => None
  | y :: l' => if bool_decide (y = x) then Some 0%nat else S <$> index x l'
  end.

(** Body of the loop over the cards of a translated pack: [None] where the
    source says [continue], else the card after [item['traits'] = ...]. *)
Definition update_item (traits_map : gmap Py.str Py.str) (no_overwrite : bool)
    (data_en : list odict) (code_en : list Py.str) (item : odict) :
    result (option odict) :=
  if negb (OrderedDict.contains (u "traits") item) then Ok None
  else
    c ← OrderedDict.getitem item (u "code");
    match index c code_en with
    | None => Ok None
    | Some i =>
        match data_en !! i with
        | None => Raise IndexError
        | Some item_en =>
            skip ← (if no_overwrite then
                      t ← OrderedDict.getitem item (u "traits");
                      t_en ← OrderedDict.getitem item_en (u "traits");
                      Ok (bool_decide (t ≠ t_en))
                    else Ok false);
            if (skip : bool) then Ok None
            else
              t_en ← OrderedDict.getitem item_en (u "traits");
              let traits_en := _split_traits t_en in
              traits ← mapR (λ x, Dict.getitem traits_map x) traits_en;
              Ok (Some (OrderedDict.setitem item (u "traits") (_merge_traits traits)))
        end
    end.

(** The loop over the cards: the cards after it, and [changed]. *)
Fixpoint update_items (traits_map : gmap Py.str Py.str) (no_overwrite : bool)
    (data_en : list odict) (code_en : list Py.str) (changed : bool)
    (data_trans : list odict) : result (list odict * bool) :=
  match data_trans with
  | [] => Ok ([], changed)
  | item :: rest =>
      r ← update_item traits_map no_overwrite data_en code_en item;
      match r with
      | None =>
          '(rest', changed') ← update_items traits_map no_overwrite data_en code_en changed rest;
          Ok (item :: rest', changed')
      | Some item' =>
          '(rest', changed') ← update_items traits_map no_overwrite data_en code_en true rest;
          Ok (item' :: rest', changed')
      end
  end.

(** Body of the loop over the pack files *)
Definition update_file (traits_map : gmap Py.str Py.str) (code : Py.str)
    (no_overwrite : bool) (file : filepath) : IO unit :=
  let path_trans := [TRANSLATION_PATH; code; PACK_PATH] ++ file in
  data_en ← io.load_json (PACK_PATH :: file);
  data_trans ← io.load_json path_trans;
  code_en ← lift (mapR (λ x, OrderedDict.getitem x (u "code")) data_en);
  '(data_trans, changed) ← lift (update_items traits_map no_overwrite data_en code_en false data_trans);
  if (changed : bool) then io.dump_json path_trans data_trans else mret ().

(** The truth value of the imported module [json]: a module object defines
    neither [__nonzero__] nor [__len__]. *)
Definition json : bool := true.

(** The comprehension with its [if os.path.isfile(...)] *)
Fixpoint filterIO {A} (f : A → IO bool) (l : list A) : IO (list A) :=
  match l with
  | [] => mret []
  | x :: l' => b ← f x; r ← filterIO f l'; mret (if (b : bool) then x :: r else r)
  end.

(** [traits_map[item['code']] = item['name']]: the value is evaluated first. *)
Definition add_entry (data : gmap Py.str Py.str) (item : odict) :
    result (gmap Py.str Py.str) :=
  name ← OrderedDict.getitem item (u "name");
  code ← OrderedDict.getitem item (u "code");
  Ok (<[code := name]> data).

Definition update_traits (code : Py.str) (cycles : option (list Py.str))
    (no_overwrite : bool) : IO unit :=
  data ← io.load_json [TRANSLATION_PATH; code; TRAITS_FILENAME];
  traits_map ← lift (foldR add_entry ∅ data);
  files ← get_json_files [TRANSLATION_PATH; code; PACK_PATH] cycles;
  jsons ← filterIO (λ x, os.isfile (PACK_PATH :: x)) files;
  if negb json then raise (IOError no_proper_json)
  else for_each (update_file traits_map code no_overwrite) jsons.

(** ['%s\t%s\n' % (item['code'], item['name'])] *)
Definition json2txt_line (item : odict) : result Py.str :=
  code ← OrderedDict.getitem item (u "code");
  name ← OrderedDict.getitem item (u "name");
  Ok (code ++ [Py.TAB] ++ name ++ [Py.LF]).

Definition json2txt (path_json path_text : filepath) : IO unit :=
  data ← io.load_json path_json;
  _ ← io.write path_text (Text []);
  for_each (λ item, line ← lift (json2txt_line item); io.append path_text line) data.

(** Body of the loop over the lines of [txt2json] *)
Definition txt2json_line (data : gmap Py.str Py.str) (line : Py.str) :
    result (gmap Py.str Py.str) :=
  if negb (Py.truthy (Py.strip line)) then Ok data
  else
    match Py.split Py.TAB line with
    | [code; name] =>
        let code := Py.strip code in
        let name := Py.strip name in
        if bool_decide (is_Some (data !! code)) then Ok (<[code := name]> data)
        else Ok data
    | _ => Raise ValueError        (* the unpacking into two names *)
    end.

(** [txt2json] up to [fp.close()]: the dictionary of the JSON file, updated
    from the lines of the text *)
Definition txt2json_data (path_json path_text : filepath) : IO (gmap Py.str Py.str) :=
  temp ← io.load_json path_json;
  data ← lift (foldR add_entry ∅ temp);
  fp ← io.readlines path_text;
  lift (foldR txt2json_line data fp).

(** [data.items()] yields the pairs in the order of insertion; with two or
    more of them [data.sort()] raises, with fewer there is one order. *)
Definition txt2json (path_json path_text : filepath) : IO unit :=
  data ← txt2json_data path_json path_text;
  let data := map (λ kv, trait_entry kv.1 kv.2) (map_to_list data) in
  data ← lift (sort_dicts data);
  io.dump_json path_json data.

Definition main : IO unit :=
  _ ← make_placeholder;
  _ ← update_placeholder (u "ko");
  update_traits (u "ko") None true.

(** ** Notions the properties are stated with *)

(** A trait name as [_split_traits] yields them: not empty, no white space
    at either end, no dot. *)
Definition trait_name (x : Py.str) : Prop :=
  x ≠ [] ∧ Py.strip x = x ∧ Py.DOT ∉ x.

#[global] Instance trait_name_dec x : Decision (trait_name x).
Proof. unfold trait_name. apply _. Defined.

(** The normalized form of a traits string: one or more trait names, joined
    by a dot and a space, with a trailing dot. *)
Definition normalized (s : Py.str) : Prop :=
  ∃ names, names ≠ [] ∧ Forall trait_name names ∧
           s = Py.join [Py.DOT; Py.SPACE] names ++ [Py.DOT].

(** What the loop of [update_traits] does to one card: nothing where the
    body says [continue], else the assignment to [item['traits']]. *)
Definition card_step (tm : gmap Py.str Py.str) (no : bool) (data_en : list odict)
    (code_en : list Py.str) (item item' : odict) : Prop :=
  (update_item tm no data_en code_en item = Ok None ∧ item' = item)
  ∨ update_item tm no data_en code_en item = Ok (Some item').

(** "whose code matches an English record": the record of the English
    pack that has the card's code, the first one when several have it. *)
Definition english_record (data_en : list odict) (c : Py.str) (item_en : odict) : Prop :=
  ∃ i, data_en !! i = Some item_en
       ∧ OrderedDict.get item_en (u "code") = Some c
       ∧ ∀ j e, (j < i)%nat → data_en !! j = Some e →
                OrderedDict.get e (u "code") ≠ Some c.

(** A card is recomputed when the loop body reaches the assignment. *)
Definition recomputed (tm : gmap Py.str Py.str) (no : bool) (data_en : list odict)
    (code_en : list Py.str) (item : odict) : Prop :=
  ∃ item', update_item tm no data_en code_en item = Ok (Some item').

(** Some card's traits string differs between two versions of a pack. *)
Definition traits_changed (old new : list odict) : Prop :=
  ∃ j item item', old !! j = Some item ∧ new !! j = Some item'
    ∧ OrderedDict.get item' (u "traits") ≠ OrderedDict.get item (u "traits").

(** Two views of a path agree: the same file content, or a directory in
    both, or nothing in both. *)
Definition same_kind (a b : option node) : Prop :=
  match a, b with
  | Some (File c), Some (File c') => c = c'
  | Some (Dir _), Some (Dir _) => True
  | None, None => True
  | _, _ => False
  end.


(** An exception other than the [IOError('no proper json files')] of
    [update_traits]. *)
Definition other_exn (e : exn) : Prop := e ≠ IOError no_proper_json.

(** A computation that cannot raise that error. *)
Definition unguardedR {A} (r : result A) : Prop :=
  ∀ e, r = Raise e → other_exn e.
Definition unguarded {A} (m : IO A) : Prop :=
  ∀ w w' e, m w = (w', Raise e) → other_exn e.

(** ** Sample trees *)

Module Sample.

Definition card (code traits : string) : odict :=
  [(u "code", u code); (u "traits", u traits)].

Definition core_a : filepath := [u "core"; u "a.json"].
Definition core_b : filepath := [u "core"; u "b.json"].
Definition ko_pack (file : filepath) : filepath :=
  [TRANSLATION_PATH; u "ko"; PACK_PATH] ++ file.

(** Two English packs, their Korean copies still in English, and a
    dictionary with the entries [entries]. *)
Definition tree (entries : list odict) : node :=
  Dir [ (u "pack",
         Dir [ (u "core",
                Dir [ (u "a.json", File (Json [card "01001" "Item."]));
                      (u "b.json", File (Json [card "01002" "Item. Weapon."])) ]) ]);
        (u "translations",
         Dir [ (u "ko",
                Dir [ (u "traits.json", File (Json entries));
                      (u "pack",
                       Dir [ (u "core",
                              Dir [ (u "a.json", File (Json [card "01001" "Item."]));
                                    (u "b.json", File (Json [card "01002" "Item. Weapon."])) ]) ]) ]) ]) ].

(** The dictionary as [update_placeholder] seeds it: names are the codes. *)
Definition seeded : world :=
  World (tree [trait_entry (u "Item") (u "Item"); trait_entry (u "Weapon") (u "Weapon")]) [].

Definition dwl_b : filepath := [u "dwl"; u "b.json"].

(** Two cycles of one pack each, and a dictionary that lacks [Weapon]. *)
Definition incomplete : world :=
  World
    (Dir [ (u "pack",
            Dir [ (u "core", Dir [ (u "a.json", File (Json [card "01001" "Item."])) ]);
                  (u "dwl", Dir [ (u "b.json", File (Json [card "02001" "Item. Weapon."])) ]) ]);
           (u "translations",
            Dir [ (u "ko",
                   Dir [ (u "traits.json", File (Json [trait_entry (u "Item") (u "Objet")]));
                         (u "pack",
                          Dir [ (u "core",
                                 Dir [ (u "a.json", File (Json [card "01001" "Item."])) ]);
                                (u "dwl",
                                 Dir [ (u "b.json",
                                        File (Json [card "02001" "Item. Weapon."])) ]) ]) ]) ]) ])
    [].

(** No translated pack at all. *)
Definition no_packs : world :=
  World (Dir [ (u "pack", Dir []);
               (u "translations",
                Dir [ (u "ko", Dir [ (u "traits.json", File (Json []));
                                     (u "pack", Dir []) ]) ]) ]) [].

(** A pack directory with one cycle of two packs and a stray JSON file;
    the working directory holds nothing else. *)
Definition stray : world :=
  World (Dir [ (u "pack",
                Dir [ (u "core",
                       Dir [ (u "a.json", File (Json [card "01001" "Item."]));
                             (u "b.json", File (Json [card "01002" "Item. Weapon."])) ]);
                      (u "x.json", File (Json [])) ]) ]) [].

(** The same, with a file of the stray file's name in the working
    directory too. *)
Definition stray_shadowed : world :=
  World (Dir [ (u "pack",
                Dir [ (u "core",
                       Dir [ (u "a.json", File (Json [card "01001" "Item."]));
                             (u "b.json", File (Json [card "01002" "Item. Weapon."])) ]);
                      (u "x.json", File (Json [])) ]);
               (u "x.json", File (Text [])) ]) [].

(** A master list of two traits and a placeholder that has one of them,
    translated. *)
Definition master : world :=
  World (Dir [ (u "traits.json",
                File (Json [trait_entry (u "Item") (u "Item");
                            trait_entry (u "Weapon") (u "Weapon")]));
               (u "translations",
                Dir [ (u "ko",
                       Dir [ (u "traits.json",
                              File (Json [trait_entry (u "Item") (u "Objet")])) ]) ]) ]) [].

(** A traits file with a name that starts with a space. *)
Definition padded : world :=
  World (Dir [ (u "traits.json", File (Json [trait_entry (u "A") (u " x")])) ]) [].

(** A traits file in the order of its codes reversed. *)
Definition unsorted : world :=
  World (Dir [ (u "traits.json",
                File (Json [trait_entry (u "Weapon") (u "Arme");
                            trait_entry (u "Item") (u "Objet")])) ]) [].

(** A master list and a language directory that has no traits file yet. *)
Definition new_language : world :=
  World (Dir [ (u "traits.json",
                File (Json [trait_entry (u "Item") (u "Item");
                            trait_entry (u "Weapon") (u "Weapon")]));
               (u "translations", Dir [ (u "ko", Dir []) ]) ]) [].


(** A traits file and a text whose second line holds two tabs. *)
Definition two_tabs : world :=
  World (Dir [ (u "traits.json",
                File (Json [trait_entry (u "A") (u "old"); trait_entry (u "B") (u "b")]));
               (u "traits.txt",
                File (Text (u "B" ++ [Py.TAB] ++ u "c" ++ [Py.LF]
                            ++ u "A" ++ [Py.TAB] ++ u "x" ++ [Py.TAB] ++ u "y" ++ [Py.LF]))) ])
    [].

End Sample.

(** ** Statements of the specification that the code does not meet, as
    they are worded *)

(** "a file in which every card's traits string is left equal to its
    previous value is not rewritten": a run of the loop body on [file]
    that returns has written the translated pack exactly when a traits
    string in it changed. *)
Definition written_iff_traits_changed (tm : gmap Py.str Py.str) (code : Py.str)
    (no : bool) (file : filepath) (w : world) : Prop :=
  ∀ w' old new,
    update_file tm code no file w = (w', Ok ()) →
    FS.stat (cwd w) ([TRANSLATION_PATH; code; PACK_PATH] ++ file) = Some (File (Json old)) →
    FS.stat (cwd w') ([TRANSLATION_PATH; code; PACK_PATH] ++ file) = Some (File (Json new)) →
    (written w' ≠ written w ↔ traits_changed old new).

(** "raises a key-lookup error ... and no pack files are written by that
    run" *)
Definition key_error_writes_nothing (code : Py.str) (cycles : option (list Py.str))
    (no : bool) (w : world) : Prop :=
  ∀ w' k, update_traits code cycles no w = (w', Raise (KeyError k)) →
          written w' = written w.

(** "splits the line on the first tab character into a code and a name":
    the loop body of [txt2json] as the claim words it. *)
Definition split_first (sep : Py.char) (s : Py.str) : option (Py.str * Py.str) :=
  match Py.split sep s with
  | code :: name :: rest => Some (code, Py.join [sep] (name :: rest))
  | _ => None
  end.

Definition txt2json_line_first_tab (data : gmap Py.str Py.str) (line : Py.str) :
    result (gmap Py.str Py.str) :=
  if negb (Py.truthy (Py.strip line)) then Ok data
  else
    match split_first Py.TAB line with
    | Some (code, name) =>
        let code := Py.strip code in
        let name := Py.strip name in
        if bool_decide (is_Some (data !! code)) then Ok (<[code := name]> data)
        else Ok data
    | None => Raise ValueError
    end.

(** The number of tabs of a line *)
Definition tabs (line : Py.str) : nat :=
  length (filter (λ c, c = Py.TAB) line).

(** [io.open(p, 'w')] succeeds: the file exists, or its directory does. *)
Definition can_open_w (w : world) (p : filepath) : Prop :=
  p ≠ [] ∧ is_Some (FS.store (cwd w) p (Text [])).

(** Strictly increasing strings: sorted, without duplicates. *)
Definition increasing (l : list Py.str) : Prop :=
  StronglySorted (λ x y, str_lt x y = true) l.

(** ** Notions for [update_placeholder] *)

(** [x['code']] *)
Definition code_of (x : odict) : result Py.str := OrderedDict.getitem x (u "code").

(** The entries of the per-language traits file before a run: none when
    the file is absent. *)
Definition existing_entries (w : world) (code : Py.str) : result (list odict) :=
  match FS.stat (cwd w) [TRANSLATION_PATH; code; TRAITS_FILENAME] with
  | Some (File (Json l)) => Ok l
  | Some (File (Text _)) => Raise ValueError
  | _ => Ok []
  end.

(** A master entry whose code the per-language file lacks. *)
Definition is_new (trans_codes : list Py.str) (item : odict) : bool :=
  match OrderedDict.get item (u "code") with
  | Some c => bool_decide (c ∉ trans_codes)
  | None => false
  end.

(** Two entries in the order of their codes. *)
Definition code_le (x y : odict) : Prop :=
  match OrderedDict.get x (u "code"), OrderedDict.get y (u "code") with
  | Some cx, Some cy => str_lt cy cx = false
  | _, _ => False
  end.

(** ** Notions for the text bridge *)

(** A code or name that survives a line of the text form: no white space
    at either end, no tab, no line break. *)
Definition clean (s : Py.str) : Prop :=
  Py.strip s = s ∧ (Py.TAB ∉ s) ∧ (Py.LF ∉ s) ∧ (Py.CR ∉ s).

#[global] Instance clean_dec s : Decision (clean s).
Proof. unfold clean. apply _. Defined.

(** Text that UTF-8 can hold: code points of Unicode, the surrogates
    excepted. [fp.write] accepts such text. *)
Definition encodable (s : Py.str) : Prop :=
  Forall (λ c, c < 55296 ∨ (57343 < c ∧ c ≤ 1114111)) s.

#[global] Instance encodable_dec s : Decision (encodable s).
Proof. unfold encodable. apply _. Defined.

(** An entry holds the code and the name of a pair. *)
Definition holds (e : odict) (p : Py.str * Py.str) : Prop :=
  OrderedDict.get e (u "code") = Some p.1 ∧ OrderedDict.get e (u "name") = Some p.2.

(** "json2txt then txt2json round-trips ... back to the same JSON content
    (modulo re-sorting)": whenever both return, the entries after are those
    before, in some order. *)
Definition roundtrip_keeps_entries (path_json path_text : filepath) (w : world) : Prop :=
  ∀ w1 w2 before after,
    json2txt path_json path_text w = (w1, Ok ()) →
    txt2json path_json path_text w1 = (w2, Ok ()) →
    FS.stat (cwd w) path_json = Some (File (Json before)) →
    FS.stat (cwd w2) path_json = Some (File (Json after)) →
    after ≡ₚ before.

(** The line of the text form for a code/name pair. *)
Definition text_line (p : Py.str * Py.str) : Py.str :=
  (p.1 ++ Py.TAB :: p.2) ++ [Py.LF].

(** ** What a run may do to the world *)

(** A computation that leaves the world as it is, whatever it returns. *)
Definition readonly {A} (m : IO A) : Prop := ∀ w, (m w).1 = w.

(** A computation that reads and then, as its last step, at most writes
    the file [p], once. *)
Definition writes_at_most (p : filepath) {A} (m : IO A) : Prop :=
  ∀ w w' r, m w = (w', r) →
    w' = w
    ∨ ∃ c n', FS.store (cwd w) p c = Some n'
              ∧ w' = World n' (written w ++ [p]) ∧ ∃ a, r = Ok a.

(** ** Notions for file discovery *)

(** The shape of a path [get_json_files] returns below [path]: a name with
    the JSON extension, alone or inside a directory of [path] that lists
    it. *)
Definition json_path (w : world) (path : filepath) (p : filepath) : Prop :=
  (∃ cycle, p = [cycle] ∧ is_json_name cycle = true)
  ∨ (∃ cycle pack es,
       p = [cycle; pack] ∧ is_json_name pack = true
       ∧ FS.stat (cwd w) (path ++ [cycle]) = Some (Dir es) ∧ pack ∈ map fst es).

(** A cycle as the layout has it: a directory of [path] listing [packs],
    with no file of its name in the working directory. *)
Definition cycle_dir (w : world) (path : filepath) (cycle : Py.str)
    (packs : list Py.str) : Prop :=
  (∀ c, FS.stat (cwd w) [cycle] ≠ Some (File c))
  ∧ ∃ es, FS.stat (cwd w) (path ++ [cycle]) = Some (Dir es) ∧ packs = map fst es.

(** The JSON files of a cycle, as paths below the root. *)
Definition cycle_packs (cycle : Py.str) (packs : list Py.str) : list filepath :=
  map (λ pack, [cycle; pack]) (filter (λ pack, is_json_name pack = true) packs).

(** * Properties *)

(** ** Strings *)

Lemma split_nonempty sep s : Py.split sep s ≠ [].
Proof. induction s as [|c s IH]; simpl; [done|]. by repeat case_match. Qed.

Lemma split_cons_ne sep c s :
  c ≠ sep →
  Py.split sep (c :: s) =
    match Py.split sep s with [] => [[c]] | p :: ps => (c :: p) :: ps end.
Proof. intros Hc. simpl. by rewrite (proj2 (N.eqb_neq c sep) Hc). Qed.

(** Splitting at the first separator. *)
Lemma split_app_sep sep x s :
  sep ∉ x → Py.split sep (x ++ sep :: s) = x :: Py.split sep s.
Proof.
  induction x as [|c x IH]; intros Hx; simpl.
  - by rewrite N.eqb_refl.
  - apply not_elem_of_cons in Hx as [Hc Hx].
    rewrite (proj2 (N.eqb_neq c sep)) by done.
    by rewrite IH.
Qed.

Lemma split_no_sep sep x : sep ∉ x → Py.split sep x = [x].
Proof.
  induction x as [|c x IH]; intros Hx; simpl; [done|].
  apply not_elem_of_cons in Hx as [Hc Hx].
  rewrite (proj2 (N.eqb_neq c sep)) by done.
  by rewrite IH.
Qed.

Lemma strip_space_cons x : Py.strip (Py.SPACE :: x) = Py.strip x.
Proof. reflexivity. Qed.

(** ** The codec *)

Lemma split_merged x l :
  Forall trait_name (x :: l) →
  Py.split Py.DOT (Py.join [Py.DOT; Py.SPACE] (x :: l) ++ [Py.DOT])
  = x :: map (cons Py.SPACE) l ++ [[]].
Proof.
  revert x. induction l as [|y l IH]; intros x Hall.
  - apply Forall_cons in Hall as [(_ & _ & Hdot) _]. simpl.
    by rewrite split_app_sep.
  - apply Forall_cons in Hall as [(_ & _ & Hdot) Hall].
    specialize (IH y Hall).
    change (Py.join [Py.DOT; Py.SPACE] (x :: y :: l))
      with (x ++ [Py.DOT; Py.SPACE] ++ Py.join [Py.DOT; Py.SPACE] (y :: l)).
    set (r := Py.join [Py.DOT; Py.SPACE] (y :: l)) in *.
    replace ((x ++ [Py.DOT; Py.SPACE] ++ r) ++ [Py.DOT])
      with (x ++ Py.DOT :: Py.SPACE :: (r ++ [Py.DOT]))
      by (by rewrite <- !app_assoc).
    rewrite split_app_sep by done.
    rewrite split_cons_ne by done.
    by rewrite IH.
Qed.

Lemma split_traits_pieces l :
  Forall trait_name l →
  map Py.strip (filter (λ x, Py.truthy (Py.strip x) = true) (map (cons Py.SPACE) l)) = l.
Proof.
  induction 1 as [|x l (Hne & Hstrip & _) _ IH]; [done|].
  rewrite fmap_cons, filter_cons, strip_space_cons, Hstrip.
  destruct x as [|c x]; [done|]. simpl Py.truthy.
  rewrite decide_True by done.
  rewrite fmap_cons, strip_space_cons, Hstrip. by f_equal.
Qed.

Lemma split_merge_traits l :
  Forall trait_name l → _split_traits (_merge_traits l) = l.
Proof.
  intros Hall. destruct l as [|x l]; [done|].
  unfold _split_traits, _merge_traits. simpl negb. cbv iota.
  change (u ". ") with [Py.DOT; Py.SPACE]. change (u ".") with [Py.DOT].
  rewrite split_merged by done.
  apply Forall_cons in Hall as [(Hne & Hstrip & _) Hall].
  rewrite filter_cons, Hstrip.
  destruct x as [|c x]; [done|]. simpl Py.truthy.
  rewrite decide_True by done.
  rewrite fmap_cons, Hstrip. f_equal.
  rewrite filter_app, fmap_app, split_traits_pieces by done.
  by rewrite app_nil_r.
Qed.

(** C7: [_merge_traits (_split_traits s) = s] for every traits string [s]
    in normalized form; [_split_traits] undoes [_merge_traits] on every list
    of trait names (non-empty, stripped, dot-free), so a string produced by
    [_merge_traits] from such a list is stable; the empty string and the
    empty list are each other's image. *)
Theorem merge_split_traits_normalized (s : Py.str) (l : list Py.str) :
  normalized s → Forall trait_name l →
  _merge_traits (_split_traits s) = s
  ∧ _split_traits (_merge_traits l) = l
  ∧ _merge_traits (_split_traits (_merge_traits l)) = _merge_traits l
  ∧ _split_traits (u "") = []
  ∧ _merge_traits [] = u "".
Proof.
  intros (names & Hne & Hnames & ->) Hl.
  assert (Hm : _merge_traits names = Py.join [Py.DOT; Py.SPACE] names ++ [Py.DOT])
    by (by destruct names).
  rewrite <- Hm. rewrite !split_merge_traits by done. done.
Qed.

Lemma merge_split_traits_normalized_witness :
  normalized (u "Item. Weapon.") ∧ Forall trait_name [u "Item"; u "Weapon"]
  ∧ _merge_traits (_split_traits (u "Item. Weapon.")) = u "Item. Weapon."
  ∧ _split_traits (_merge_traits [u "Item"; u "Weapon"]) = [u "Item"; u "Weapon"].
Proof.
  assert (Hl : Forall trait_name [u "Item"; u "Weapon"]).
  { apply Forall_cons; split; [by apply (bool_decide_eq_true_1 _)|].
    apply Forall_cons; split; [by apply (bool_decide_eq_true_1 _)|]. constructor. }
  assert (Hs : normalized (u "Item. Weapon.")).
  { exists [u "Item"; u "Weapon"]. by split_and!. }
  pose proof (merge_split_traits_normalized _ _ Hs Hl) as (H1 & H2 & _).
  by split_and!.
Defined.

(** ** Results and loops *)

Lemma foldR_app {A S} (f : S → A → result S) s l1 l2 :
  foldR f s (l1 ++ l2) = (foldR f s l1 ≫= λ s', foldR f s' l2).
Proof.
  revert s. induction l1 as [|x l1 IH]; intros s; simpl; [done|].
  destruct (f s x) as [s'|e]; simpl; [apply IH|done].
Qed.

Lemma mapR_Ok_length {A B} (f : A → result B) l l' :
  mapR f l = Ok l' → length l' = length l.
Proof.
  revert l'. induction l as [|x l IH]; intros l'; simpl.
  - by intros [= <-].
  - destruct (f x) as [y|e]; simpl; [|done].
    destruct (mapR f l) as [ys|e]; simpl; [|done].
    intros [= <-]. simpl. by rewrite (IH ys).
Qed.

Lemma mapR_Ok_lookup {A B} (f : A → result B) l l' i y :
  mapR f l = Ok l' → l' !! i = Some y → ∃ x, l !! i = Some x ∧ f x = Ok y.
Proof.
  revert l' i. induction l as [|x l IH]; intros l' i; simpl.
  - by intros [= <-].
  - destruct (f x) as [y'|e] eqn:Hx; simpl; [|done].
    destruct (mapR f l) as [ys|e]; simpl; [|done].
    intros [= <-]. destruct i as [|i]; simpl.
    + intros [= ->]. eauto.
    + intros Hi. by apply (IH ys).
Qed.

Lemma mapR_Ok_Forall {A B} (f : A → result B) l :
  Forall (λ x, ∃ y, f x = Ok y) l → ∃ l', mapR f l = Ok l'.
Proof.
  induction 1 as [|x l [y Hy] _ [l' IH]]; simpl; [eauto|].
  rewrite Hy, IH. simpl. eauto.
Qed.

(** The first exception of a comprehension is the one raised. *)
Lemma mapR_Raise {A B} (f : A → result B) l1 x l2 e :
  Forall (λ x, ∃ y, f x = Ok y) l1 → f x = Raise e →
  mapR f (l1 ++ x :: l2) = Raise e.
Proof.
  induction 1 as [|x1 l1 [y Hy] _ IH]; intros Hx; simpl.
  - by rewrite Hx.
  - by rewrite Hy, IH.
Qed.

(** A comprehension over a total function either succeeds or raises at
    the first element where the function does. *)
Lemma mapR_cases {A B} (f : A → result B) l :
  (∃ l', mapR f l = Ok l')
  ∨ (∃ l1 x l2 e, l = l1 ++ x :: l2 ∧ Forall (λ x, ∃ y, f x = Ok y) l1
       ∧ f x = Raise e ∧ mapR f l = Raise e).
Proof.
  induction l as [|x l IH]; simpl; [eauto|].
  destruct (f x) as [y|e] eqn:Hx; simpl.
  - destruct IH as [[l' ->]|(l1 & x' & l2 & e & -> & Hl1 & Hx' & ->)]; simpl; [eauto|].
    right. exists (x :: l1), x', l2, e. split_and!; eauto.
  - right. exists [], x, l, e. split_and!; eauto.
Qed.

(** ** Ordered dicts *)

Lemma contains_get k d :
  OrderedDict.contains k d = true ↔ is_Some (OrderedDict.get d k).
Proof. unfold OrderedDict.contains. apply bool_decide_eq_true. Qed.

Lemma getitem_get d k v :
  OrderedDict.get d k = Some v → OrderedDict.getitem d k = Ok v.
Proof. unfold OrderedDict.getitem. by intros ->. Qed.

Lemma getitem_Ok d k v :
  OrderedDict.getitem d k = Ok v ↔ OrderedDict.get d k = Some v.
Proof.
  unfold OrderedDict.getitem. destruct (OrderedDict.get d k); split; congruence.
Qed.

Lemma get_setitem_eq d k v :
  OrderedDict.get (OrderedDict.setitem d k v) k = Some v.
Proof.
  induction d as [|[k' v'] d IH]; simpl.
  - by rewrite bool_decide_eq_true_2.
  - destruct (bool_decide (k' = k)) eqn:Hk; simpl.
    + by rewrite bool_decide_eq_true_2.
    + by rewrite Hk.
Qed.

Lemma get_setitem_ne d k k' v :
  k ≠ k' → OrderedDict.get (OrderedDict.setitem d k v) k' = OrderedDict.get d k'.
Proof.
  intros Hne. induction d as [|[k0 v0] d IH]; simpl.
  - by rewrite bool_decide_eq_false_2.
  - destruct (bool_decide (k0 = k)) eqn:Hk; simpl.
    + apply bool_decide_eq_true_1 in Hk as ->.
      by rewrite !bool_decide_eq_false_2.
    + by rewrite IH.
Qed.

Lemma setitem_same d k v :
  OrderedDict.get d k = Some v → OrderedDict.setitem d k v = d.
Proof.
  induction d as [|[k' v'] d IH]; simpl; [done|].
  destruct (bool_decide (k' = k)) eqn:Hk.
  - apply bool_decide_eq_true_1 in Hk as ->. by intros [= ->].
  - intros Hd. by rewrite IH.
Qed.

(** ** One card of [update_traits] *)

Lemma update_item_matched tm no data_en code_en item t c i item_en t_en :
  OrderedDict.get item (u "traits") = Some t →
  OrderedDict.get item (u "code") = Some c →
  index c code_en = Some i →
  data_en !! i = Some item_en →
  OrderedDict.get item_en (u "traits") = Some t_en →
  update_item tm no data_en code_en item =
    if no && bool_decide (t ≠ t_en) then Ok None
    else names ← mapR (Dict.getitem tm) (_split_traits t_en);
         Ok (Some (OrderedDict.setitem item (u "traits") (_merge_traits names))).
Proof.
  intros Ht Hc Hi Hen Hten. unfold update_item.
  rewrite (proj2 (contains_get _ _)) by (by rewrite Ht).
  rewrite (getitem_get _ _ _ Hc).
  cbn [negb mbind result_bind]. rewrite Hi, Hen, (getitem_get _ _ _ Hten).
  destruct no; cbn [andb]; [|done].
  rewrite (getitem_get _ _ _ Ht). cbn [mbind result_bind].
  by destruct (bool_decide (t ≠ t_en)).
Qed.

(** ** The loop over the cards *)

Section update_items.
Context (tm : gmap Py.str Py.str) (no : bool)
        (data_en : list odict) (code_en : list Py.str).

Local Abbreviation step := (update_item tm no data_en code_en).
Local Abbreviation loop := (update_items tm no data_en code_en).
Local Abbreviation card_step := (card_step tm no data_en code_en).
Local Abbreviation recomputed := (recomputed tm no data_en code_en).

Lemma update_items_Ok changed data out changed' :
  loop changed data = Ok (out, changed') →
  Forall2 card_step data out
  ∧ (changed' = true ↔ changed = true ∨ Exists recomputed data).
Proof.
  revert changed out changed'.
  induction data as [|item data IH]; intros changed out changed'; simpl.
  - intros [= <- <-]. split; [constructor|]. rewrite Exists_nil. tauto.
  - destruct (step item) as [[item'|]|e] eqn:Hstep; cbn [mbind result_bind]; [| |done].
    + destruct (update_items tm no data_en code_en true data) as [[rest ch]|e] eqn:Hrest;
        cbn [mbind result_bind]; [|done].
      intros [= <- <-]. apply IH in Hrest as [Hall Hch]. split.
      * constructor; [by right|done].
      * split; [|by intros; apply Hch; left].
        intros _. right. apply Exists_cons_hd. by exists item'.
    + destruct (update_items tm no data_en code_en changed data) as [[rest ch]|e] eqn:Hrest;
        cbn [mbind result_bind]; [|done].
      intros [= <- <-]. apply IH in Hrest as [Hall Hch]. split.
      * constructor; [by left|done].
      * rewrite Hch, Exists_cons. unfold recomputed at 2. rewrite Hstep.
        split; [tauto|]. intros [?|[[? [=]]|?]]; tauto.
Qed.

(** The loop raises what the first failing card raises. *)
Lemma update_items_Raise changed before item after e :
  Forall (λ x, ∃ r, step x = Ok r) before →
  step item = Raise e →
  loop changed (before ++ item :: after) = Raise e.
Proof.
  intros Hbefore. revert changed.
  induction Hbefore as [|x before [r Hr] _ IH]; intros changed Hitem; simpl.
  - by rewrite Hitem.
  - rewrite Hr. cbn [mbind result_bind].
    destruct r; by rewrite IH.
Qed.

Lemma update_items_total changed data :
  Forall (λ x, ∃ r, step x = Ok r) data →
  ∃ out changed', loop changed data = Ok (out, changed').
Proof.
  intros Hdata. revert changed.
  induction Hdata as [|x data [r Hr] _ IH]; intros changed; simpl; [eauto|].
  rewrite Hr. cbn [mbind result_bind].
  destruct r; [destruct (IH true) as (out & ch & ->)|destruct (IH changed) as (out & ch & ->)];
    cbn [mbind result_bind]; eauto.
Qed.

(** The cards the loop has passed before it raises all went through. *)
Lemma update_items_prefix changed before after out changed' :
  loop changed (before ++ after) = Ok (out, changed') →
  Forall (λ x, ∃ r, step x = Ok r) before.
Proof.
  revert changed out changed'.
  induction before as [|x before IH]; intros changed out changed'; simpl; [constructor|].
  destruct (step x) as [r|e] eqn:Hx; cbn [mbind result_bind]; [|done].
  intros Hrest. constructor; [eauto|].
  destruct r.
  + destruct (update_items tm no data_en code_en true (before ++ after)) as [[rest ch]|] eqn:Hr;
      [by eapply IH|done].
  + destruct (update_items tm no data_en code_en changed (before ++ after)) as [[rest ch]|] eqn:Hr;
      [by eapply IH|done].
Qed.

End update_items.

(** ** The file tree *)

Lemma entry_set_entry_eq x n es : FS.entry x (FS.set_entry x n es) = Some n.
Proof.
  induction es as [|[y m] es IH]; simpl.
  - by rewrite bool_decide_eq_true_2.
  - destruct (bool_decide (y = x)) eqn:Hy; simpl.
    + by rewrite bool_decide_eq_true_2.
    + by rewrite Hy.
Qed.

Lemma entry_set_entry_ne x y n es :
  x ≠ y → FS.entry y (FS.set_entry x n es) = FS.entry y es.
Proof.
  intros Hne. induction es as [|[z m] es IH]; simpl.
  - by rewrite bool_decide_eq_false_2.
  - destruct (bool_decide (z = x)) eqn:Hz; simpl.
    + apply bool_decide_eq_true_1 in Hz as ->.
      by rewrite !bool_decide_eq_false_2.
    + by rewrite IH.
Qed.

Lemma set_entry_same x n es : FS.entry x es = Some n → FS.set_entry x n es = es.
Proof.
  induction es as [|[y m] es IH]; simpl; [done|].
  destruct (bool_decide (y = x)) eqn:Hy.
  - apply bool_decide_eq_true_1 in Hy as ->. by intros [= ->].
  - intros He. by rewrite IH.
Qed.

Lemma same_kind_refl a : same_kind a a.
Proof. by destruct a as [[]|]. Qed.

Lemma store_resolve_eq c p n n' :
  FS.store n p c = Some n' → FS.resolve n' p = Some (File c).
Proof.
  revert n n'. induction p as [|x p IH]; intros n n'; simpl.
  - destruct n; [|done]. by intros [= <-].
  - destruct n as [|es]; [done|].
    destruct (FS.entry x es) as [m|] eqn:Hx.
    + destruct (FS.store m p c) as [m'|] eqn:Hm; [|done].
      intros [= <-]. simpl. rewrite entry_set_entry_eq. by eapply IH.
    + destruct p; [|done]. intros [= <-]. simpl. by rewrite entry_set_entry_eq.
Qed.

Lemma store_resolve_ne c p n n' q :
  FS.store n p c = Some n' → q ≠ p →
  same_kind (FS.resolve n' q) (FS.resolve n q).
Proof.
  revert n n' q. induction p as [|x p IH]; intros n n' q; simpl.
  - destruct n; [|done]. intros [= <-] Hq. by destruct q.
  - destruct n as [|es]; [done|].
    destruct (FS.entry x es) as [m|] eqn:Hx.
    + destruct (FS.store m p c) as [m'|] eqn:Hm; [|done].
      intros [= <-] Hq. destruct q as [|y q]; [done|]. simpl.
      destruct (decide (x = y)) as [<-|Hxy].
      * rewrite entry_set_entry_eq, Hx. eapply IH; [done|congruence].
      * rewrite entry_set_entry_ne by done. apply same_kind_refl.
    + destruct p; [|done]. intros [= <-] Hq. destruct q as [|y q]; [done|]. simpl.
      destruct (decide (x = y)) as [<-|Hxy].
      * rewrite entry_set_entry_eq, Hx. destruct q; [done|]. done.
      * rewrite entry_set_entry_ne by done. apply same_kind_refl.
Qed.

(** Writing a file where there is one succeeds. *)
Lemma store_existing c c0 p n :
  FS.resolve n p = Some (File c0) → ∃ n', FS.store n p c = Some n'.
Proof.
  revert n. induction p as [|x p IH]; intros n; simpl.
  - intros [= ->]. eauto.
  - destruct n as [|es]; [done|].
    destruct (FS.entry x es) as [m|] eqn:Hx; [|done].
    intros Hm. destruct (IH _ Hm) as [m' ->]. simpl. eauto.
Qed.

(** Writing back what a file holds leaves the tree as it is. *)
Lemma store_same_content c p n :
  FS.resolve n p = Some (File c) → FS.store n p c = Some n.
Proof.
  revert n. induction p as [|x p IH]; intros n; simpl.
  - by intros [= ->].
  - destruct n as [|es]; [done|].
    destruct (FS.entry x es) as [m|] eqn:Hx; [|done].
    intros Hm. rewrite (IH _ Hm). simpl. by rewrite set_entry_same.
Qed.

Lemma stat_resolve n p : p ≠ [] → FS.stat n p = FS.resolve n p.
Proof. by destruct p. Qed.

Lemma store_stat_eq c p n n' :
  p ≠ [] → FS.store n p c = Some n' → FS.stat n' p = Some (File c).
Proof. intros Hp Hs. rewrite stat_resolve by done. by eapply store_resolve_eq. Qed.

Lemma store_stat_ne c p n n' q :
  FS.store n p c = Some n' → q ≠ p → same_kind (FS.stat n' q) (FS.stat n q).
Proof.
  intros Hs Hq. destruct q as [|y q]; [done|].
  rewrite !stat_resolve by done. by eapply store_resolve_ne.
Qed.

(** A path that named a directory before a write still does, and no other
    does. *)
Lemma store_stat_dir c p n n' q :
  FS.store n p c = Some n' →
  (∃ es, FS.stat n' q = Some (Dir es)) ↔ (∃ es, FS.stat n q = Some (Dir es)).
Proof.
  intros Hs. destruct (decide (q = p)) as [->|Hq].
  - destruct p as [|x p]; [by split; intros [? [=]]|].
    rewrite (store_stat_eq c (x :: p) n n') by done.
    split; [by intros [? [=]]|]. intros [es Hes]. exfalso.
    rewrite stat_resolve in Hes by done.
    clear -Hs Hes. revert n n' Hs Hes. generalize (x :: p) as q. clear.
    induction q as [|y q IH]; intros n n'; simpl.
    + destruct n; [|done]. by intros _ [=].
    + destruct n as [|es']; [done|].
      destruct (FS.entry y es') as [m|]; [|done].
      destruct (FS.store m q c) as [m'|] eqn:Hm; [|done]. intros _. by eapply IH.
  - pose proof (store_stat_ne _ _ _ _ _ Hs Hq) as Hk.
    destruct (FS.stat n' q) as [[|]|], (FS.stat n q) as [[|]|]; simpl in Hk; try done;
      split; intros [? [=]]; eauto.
Qed.

(** ** Effects *)

Lemma bind_IO {A B} (m : IO A) (f : A → IO B) w :
  (m ≫= f) w =
    match m w with
    | (w', Ok a) => f a w'
    | (w', Raise e) => (w', Raise e)
    end.
Proof. reflexivity. Qed.

Lemma bind_IO_Ok {A B} (m : IO A) (f : A → IO B) w w' a :
  m w = (w', Ok a) → (m ≫= f) w = f a w'.
Proof. intros H. by rewrite bind_IO, H. Qed.

Lemma bind_IO_Raise {A B} (m : IO A) (f : A → IO B) w w' e :
  m w = (w', Raise e) → (m ≫= f) w = (w', Raise e).
Proof. intros H. by rewrite bind_IO, H. Qed.

Lemma bind_lift {A B} (r : result A) (f : A → IO B) w :
  (lift r ≫= f) w = match r with Ok a => f a w | Raise e => (w, Raise e) end.
Proof. by destruct r. Qed.

Lemma load_json_world p w : (io.load_json p w).1 = w.
Proof. unfold io.load_json. by repeat case_match. Qed.

Lemma load_json_eq p w : io.load_json p w = (w, (io.load_json p w).2).
Proof. unfold io.load_json. by repeat case_match. Qed.

Lemma load_json_Ok p w w' data :
  io.load_json p w = (w', Ok data) ↔
  w' = w ∧ FS.stat (cwd w) p = Some (File (Json data)).
Proof.
  unfold io.load_json. split.
  - repeat case_match; naive_solver.
  - by intros [-> ->].
Qed.

Lemma load_json_nonempty p w w' data : io.load_json p w = (w', Ok data) → p ≠ [].
Proof. intros [_ H]%load_json_Ok ->. done. Qed.

Lemma dump_json_existing p data c0 w :
  FS.stat (cwd w) p = Some (File c0) →
  ∃ n', io.dump_json p data w = (World n' (written w ++ [p]), Ok ())
        ∧ FS.store (cwd w) p (Json data) = Some n'
        ∧ FS.stat n' p = Some (File (Json data)).
Proof.
  intros Hstat. assert (p ≠ []) as Hp by (by intros ->).
  rewrite stat_resolve in Hstat by done.
  destruct (store_existing (Json data) _ _ _ Hstat) as [n' Hn'].
  exists n'. unfold io.dump_json, io.write. rewrite Hn'.
  split_and!; [by destruct p|done|by eapply store_stat_eq].
Qed.

Lemma for_each_app {A} (body : A → IO unit) l1 l2 w :
  for_each body (l1 ++ l2) w = (for_each body l1 ≫= λ _, for_each body l2) w.
Proof.
  revert w. induction l1 as [|x l1 IH]; intros w; simpl; [done|].
  rewrite !bind_IO. destruct (body x w) as [w' [[]|e]]; [|done].
  by rewrite IH, bind_IO.
Qed.

(** ** One pack file of [update_traits] *)

Section update_file.
Context (tm : gmap Py.str Py.str) (code : Py.str) (no : bool) (file : filepath).

Local Abbreviation path_trans := ([TRANSLATION_PATH; code; PACK_PATH] ++ file).

(** The body of the loop over the files, once both packs are read. *)
Lemma update_file_loaded w data_en data_trans code_en :
  io.load_json (PACK_PATH :: file) w = (w, Ok data_en) →
  io.load_json path_trans w = (w, Ok data_trans) →
  mapR (λ x, OrderedDict.getitem x (u "code")) data_en = Ok code_en →
  update_file tm code no file w =
    match update_items tm no data_en code_en false data_trans with
    | Ok (out, true) => io.dump_json path_trans out w
    | Ok (_, false) => (w, Ok ())
    | Raise e => (w, Raise e)
    end.
Proof.
  intros Hen Htrans Hcode. unfold update_file.
  rewrite (bind_IO_Ok _ _ _ _ _ Hen), (bind_IO_Ok _ _ _ _ _ Htrans).
  rewrite bind_lift, Hcode, bind_lift.
  destruct (update_items tm no data_en code_en false data_trans) as [[out []]|e]; done.
Qed.

(** Whatever happens, the body either writes the translated pack, once,
    and returns, or leaves the world as it is. *)
Lemma update_file_cases w :
  (∃ n', update_file tm code no file w = (World n' (written w ++ [path_trans]), Ok ()))
  ∨ (∃ r, update_file tm code no file w = (w, r)).
Proof.
  unfold update_file. rewrite bind_IO, load_json_eq.
  destruct (io.load_json (PACK_PATH :: file) w).2 as [data_en|e]; [|right; eexists; reflexivity].
  rewrite bind_IO, load_json_eq.
  destruct (io.load_json path_trans w).2 as [data_trans|e] eqn:Htrans; [|right; eexists; reflexivity].
  rewrite bind_lift.
  destruct (mapR _ data_en) as [code_en|e]; [|right; eexists; reflexivity].
  rewrite bind_lift.
  destruct (update_items tm no data_en code_en false data_trans) as [[out []]|e];
    [|right; eexists; reflexivity..].
  assert (io.load_json path_trans w = (w, Ok data_trans)) as [_ Hstat]%load_json_Ok
    by (by rewrite load_json_eq, Htrans).
  destruct (dump_json_existing _ out _ _ Hstat) as (n' & -> & _). left. eauto.
Qed.

End update_file.

(** C3, as the code has it: a translated pack file is written back exactly
    when the loop recomputes at least one of its cards, that is, reaches
    the assignment to [item['traits']], whether or not the string assigned
    differs from the one it replaces. A file in which some card's traits
    string changed is therefore written back, and a file in which no card is
    recomputed is not rewritten. *)
Theorem update_file_written_iff_recomputed
    (tm : gmap Py.str Py.str) (code : Py.str) (no : bool) (file : filepath)
    (w : world) (data_en data_trans out : list odict) (code_en : list Py.str)
    (changed : bool) :
  let path_trans := [TRANSLATION_PATH; code; PACK_PATH] ++ file in
  io.load_json (PACK_PATH :: file) w = (w, Ok data_en) →
  io.load_json path_trans w = (w, Ok data_trans) →
  mapR (λ x, OrderedDict.getitem x (u "code")) data_en = Ok code_en →
  update_items tm no data_en code_en false data_trans = Ok (out, changed) →
  (Exists (recomputed tm no data_en code_en) data_trans →
     ∃ n', update_file tm code no file w = (World n' (written w ++ [path_trans]), Ok ())
           ∧ FS.stat n' path_trans = Some (File (Json out)))
  ∧ (¬ Exists (recomputed tm no data_en code_en) data_trans →
     update_file tm code no file w = (w, Ok ()))
  ∧ (traits_changed data_trans out →
     Exists (recomputed tm no data_en code_en) data_trans).
Proof.
  intros path_trans Hen Htrans Hcode Hloop. subst path_trans.
  rewrite (update_file_loaded _ _ _ _ _ _ _ _ Hen Htrans Hcode), Hloop.
  apply update_items_Ok in Hloop as [Hall Hch].
  split_and!.
  - intros Hex. assert (changed = true) as -> by (apply Hch; by right).
    apply load_json_Ok in Htrans as [_ Hstat]. cbv beta iota.
    destruct (dump_json_existing _ out _ _ Hstat) as (n' & -> & _ & Hn'). eauto.
  - intros Hex. destruct changed; [|done].
    destruct (proj1 Hch eq_refl) as [[=]|?]. done.
  - intros (j & item & item' & Hj & Hj' & Hne).
    apply Exists_exists. exists item. split; [by eapply list_elem_of_lookup_2|].
    destruct (Forall2_lookup_lr _ _ _ _ _ _ Hall Hj Hj') as [[_ ->]|Hstep]; [done|].
    by exists item'.
Qed.

(** ** Exceptions a run can raise *)

Lemma unguardedR_Ok {A} (a : A) : unguardedR (Ok a).
Proof. by intros e. Qed.

Lemma unguardedR_bind {A B} (r : result A) (f : A → result B) :
  unguardedR r → (∀ a, unguardedR (f a)) → unguardedR (r ≫= f).
Proof.
  intros Hr Hf e. destruct r as [a|e']; cbn [mbind result_bind].
  - apply Hf.
  - intros [= <-]. by apply Hr.
Qed.

Lemma unguardedR_getitem d k : unguardedR (OrderedDict.getitem d k).
Proof. intros e. unfold OrderedDict.getitem. case_match; [done|]. by intros [= <-]. Qed.

Lemma unguardedR_dict_getitem d k : unguardedR (Dict.getitem d k).
Proof. intros e. unfold Dict.getitem. case_match; [done|]. by intros [= <-]. Qed.

Lemma unguardedR_mapR {A B} (f : A → result B) l :
  (∀ x, unguardedR (f x)) → unguardedR (mapR f l).
Proof.
  intros Hf. induction l as [|x l IH]; simpl; [apply unguardedR_Ok|].
  apply unguardedR_bind; [done|]. intros y.
  apply unguardedR_bind; [done|]. intros ys. apply unguardedR_Ok.
Qed.

Lemma unguardedR_foldR {A S} (f : S → A → result S) s l :
  (∀ s x, unguardedR (f s x)) → unguardedR (foldR f s l).
Proof.
  intros Hf. revert s. induction l as [|x l IH]; intros s; simpl; [apply unguardedR_Ok|].
  by apply unguardedR_bind.
Qed.

Lemma unguarded_ret {A} (a : A) : unguarded (mret a).
Proof. by intros w w' e. Qed.

Lemma unguarded_lift {A} (r : result A) : unguardedR r → unguarded (lift r).
Proof. intros Hr w w' e [= _ ?]. by apply Hr. Qed.

Lemma unguarded_raise {A} e : other_exn e → unguarded (@raise A e).
Proof. by intros He w w' e' [= _ <-]. Qed.

Lemma unguarded_bind {A B} (m : IO A) (f : A → IO B) :
  unguarded m → (∀ a, unguarded (f a)) → unguarded (m ≫= f).
Proof.
  intros Hm Hf w w' e. rewrite bind_IO.
  destruct (m w) as [w1 [a|e']] eqn:Hmw.
  - apply Hf.
  - intros [= _ <-]. by eapply Hm.
Qed.

Lemma unguarded_for_each {A} (body : A → IO unit) l :
  (∀ x, unguarded (body x)) → unguarded (for_each body l).
Proof.
  intros Hb. induction l as [|x l IH]; simpl; [apply unguarded_ret|].
  by apply unguarded_bind.
Qed.

Lemma unguarded_foldIO {A S} (f : S → A → IO S) s l :
  (∀ s x, unguarded (f s x)) → unguarded (foldIO f s l).
Proof.
  intros Hf. revert s. induction l as [|x l IH]; intros s; simpl; [apply unguarded_ret|].
  by apply unguarded_bind.
Qed.

Lemma unguarded_filterIO {A} (f : A → IO bool) l :
  (∀ x, unguarded (f x)) → unguarded (filterIO f l).
Proof.
  intros Hf. induction l as [|x l IH]; simpl; [apply unguarded_ret|].
  apply unguarded_bind; [done|]. intros b.
  apply unguarded_bind; [done|]. intros r. apply unguarded_ret.
Qed.

Lemma unguarded_isfile p : unguarded (os.isfile p).
Proof. by intros w w' e. Qed.

Lemma unguarded_isdir p : unguarded (os.isdir p).
Proof. by intros w w' e. Qed.

Lemma unguarded_listdir p : unguarded (os.listdir p).
Proof. intros w w' e. unfold os.listdir. repeat case_match; try done; by intros [= _ <-]. Qed.

Lemma unguarded_load_json p : unguarded (io.load_json p).
Proof. intros w w' e. unfold io.load_json. repeat case_match; try done; by intros [= _ <-]. Qed.

Lemma unguarded_dump_json p data : unguarded (io.dump_json p data).
Proof.
  intros w w' e. unfold io.dump_json, io.write.
  repeat case_match; try done; by intros [= _ <-].
Qed.

Lemma unguarded_get_json_files path cycles : unguarded (get_json_files path cycles).
Proof.
  unfold get_json_files. apply unguarded_bind; [apply unguarded_isdir|].
  intros []; cbn [negb]; [|by apply unguarded_raise].
  apply unguarded_bind.
  - destruct cycles as [[|]|]; first [apply unguarded_listdir|apply unguarded_ret].
  - intros cs. apply unguarded_foldIO. intros acc cycle.
    unfold get_json_files_cycle. apply unguarded_bind; [apply unguarded_isfile|].
    intros f. destruct (f && is_json_name cycle); [apply unguarded_ret|].
    apply unguarded_bind; [apply unguarded_listdir|]. intros. apply unguarded_ret.
Qed.

Lemma unguardedR_update_item tm no data_en code_en item :
  unguardedR (update_item tm no data_en code_en item).
Proof.
  unfold update_item. destruct (negb _); [apply unguardedR_Ok|].
  apply unguardedR_bind; [apply unguardedR_getitem|]. intros c.
  destruct (index c code_en) as [i|]; [|apply unguardedR_Ok].
  destruct (data_en !! i) as [item_en|]; [|by intros e [= <-]].
  apply unguardedR_bind.
  - destruct no; [|apply unguardedR_Ok].
    apply unguardedR_bind; [apply unguardedR_getitem|]. intros t.
    apply unguardedR_bind; [apply unguardedR_getitem|]. intros t_en.
    apply unguardedR_Ok.
  - intros []; [apply unguardedR_Ok|].
    apply unguardedR_bind; [apply unguardedR_getitem|]. intros t_en.
    apply unguardedR_bind; [|intros; apply unguardedR_Ok].
    apply unguardedR_mapR. intros x. apply unguardedR_dict_getitem.
Qed.

Lemma unguardedR_update_items tm no data_en code_en changed data :
  unguardedR (update_items tm no data_en code_en changed data).
Proof.
  revert changed. induction data as [|item data IH]; intros changed; simpl;
    [apply unguardedR_Ok|].
  apply unguardedR_bind; [apply unguardedR_update_item|].
  intros [item'|]; (apply unguardedR_bind; [apply IH|]); intros [rest ch];
    apply unguardedR_Ok.
Qed.

Lemma unguarded_update_file tm code no file :
  unguarded (update_file tm code no file).
Proof.
  unfold update_file.
  apply unguarded_bind; [apply unguarded_load_json|]. intros data_en.
  apply unguarded_bind; [apply unguarded_load_json|]. intros data_trans.
  apply unguarded_bind.
  { apply unguarded_lift, unguardedR_mapR. intros x. apply unguardedR_getitem. }
  intros code_en. apply unguarded_bind.
  { apply unguarded_lift, unguardedR_update_items. }
  intros [out []]; [apply unguarded_dump_json|apply unguarded_ret].
Qed.

Lemma unguardedR_add_entry data item : unguardedR (add_entry data item).
Proof.
  unfold add_entry.
  apply unguardedR_bind; [apply unguardedR_getitem|]. intros name.
  apply unguardedR_bind; [apply unguardedR_getitem|]. intros c. apply unguardedR_Ok.
Qed.

Lemma unguarded_update_traits code cycles no :
  unguarded (update_traits code cycles no).
Proof.
  unfold update_traits.
  apply unguarded_bind; [apply unguarded_load_json|]. intros data.
  apply unguarded_bind.
  { apply unguarded_lift, unguardedR_foldR. intros. apply unguardedR_add_entry. }
  intros tm. apply unguarded_bind; [apply unguarded_get_json_files|]. intros files.
  apply unguarded_bind.
  { apply unguarded_filterIO. intros x. apply unguarded_isfile. }
  intros jsons. unfold json. cbn [negb].
  apply unguarded_for_each. intros file. apply unguarded_update_file.
Qed.

(** ** The run of [update_traits] *)

(** After the dictionary is built and the pack files are found, the run is
    the loop over the files: the guard never fires. *)
Lemma update_traits_run code cycles no w data tm files jsons :
  io.load_json [TRANSLATION_PATH; code; TRAITS_FILENAME] w = (w, Ok data) →
  foldR add_entry ∅ data = Ok tm →
  get_json_files [TRANSLATION_PATH; code; PACK_PATH] cycles w = (w, Ok files) →
  filterIO (λ x, os.isfile (PACK_PATH :: x)) files w = (w, Ok jsons) →
  update_traits code cycles no w = for_each (update_file tm code no) jsons w.
Proof.
  intros Hdata Htm Hfiles Hjsons. unfold update_traits.
  rewrite (bind_IO_Ok _ _ _ _ _ Hdata), bind_lift, Htm.
  rewrite (bind_IO_Ok _ _ _ _ _ Hfiles), (bind_IO_Ok _ _ _ _ _ Hjsons).
  done.
Qed.

(** C10: the guard [if not json:] of [update_traits] tests the module
    [json], which is true, so [IOError('no proper json files')] is never
    raised, whatever the input; when no translated pack file with an English
    counterpart is found, the run is a loop over zero files: it returns
    and leaves the world as it is. *)
Theorem update_traits_guard_unreachable
    (code : Py.str) (cycles : option (list Py.str)) (no_overwrite : bool) (w : world) :
  (update_traits code cycles no_overwrite w).2 ≠ Raise (IOError no_proper_json)
  ∧ ∀ data tm files,
      io.load_json [TRANSLATION_PATH; code; TRAITS_FILENAME] w = (w, Ok data) →
      foldR add_entry ∅ data = Ok tm →
      get_json_files [TRANSLATION_PATH; code; PACK_PATH] cycles w = (w, Ok files) →
      filterIO (λ x, os.isfile (PACK_PATH :: x)) files w = (w, Ok []) →
      update_traits code cycles no_overwrite w = (w, Ok ()).
Proof.
  split.
  - destruct (update_traits code cycles no_overwrite w) as [w' r] eqn:Hrun.
    simpl. intros ->. by eapply unguarded_update_traits.
  - intros data tm files Hdata Htm Hfiles Hjsons.
    by rewrite (update_traits_run _ _ _ _ _ _ _ _ Hdata Htm Hfiles Hjsons).
Qed.

(** A trait code without an entry makes the comprehension raise, at the
    first such code. *)
Lemma mapR_getitem_missing (tm : gmap Py.str Py.str) (l : list Py.str) k :
  k ∈ l → tm !! k = None →
  ∃ k', k' ∈ l ∧ tm !! k' = None ∧ mapR (Dict.getitem tm) l = Raise (KeyError k').
Proof.
  induction l as [|x l IH]; intros Hk Hmiss; [by apply elem_of_nil in Hk|].
  cbn [mapR].
  destruct (tm !! x) as [v|] eqn:Hx.
  all: replace (Dict.getitem tm x) with
         (match tm !! x with Some v => Ok v | None => Raise (KeyError x) end)
         by done.
  all: rewrite Hx; cbn [mbind result_bind].
  - apply elem_of_cons in Hk as [->|Hk]; [congruence|].
    destruct (IH Hk Hmiss) as (k' & Hk' & Hnone & ->).
    exists k'. split_and!; [by right|done..].
  - exists x. split_and!; [by left|done..].
Qed.

(** The files a run writes are translated packs of the files it loops
    over. *)
Lemma for_each_update_file_written tm code no l w w' r :
  for_each (update_file tm code no) l w = (w', r) →
  ∃ ws, written w' = written w ++ ws
        ∧ ws ⊆ map (λ file, [TRANSLATION_PATH; code; PACK_PATH] ++ file) l.
Proof.
  revert w. induction l as [|file l IH]; intros w; simpl.
  - intros [= <- _]. exists []. by rewrite app_nil_r.
  - rewrite bind_IO.
    destruct (update_file_cases tm code no file w) as [[n' ->]|[r' ->]].
    + intros (ws & -> & Hws)%IH. simpl.
      eexists (_ :: ws). split; [by rewrite <- app_assoc|].
      intros x [->|Hx]%elem_of_cons; [by left|right; by apply Hws].
    + destruct r' as [[]|e].
      * intros (ws & -> & Hws)%IH. exists ws. split; [done|].
        intros x Hx. right. by apply Hws.
      * intros [= <- _]. exists []. rewrite app_nil_r. split; [done|].
        intros x Hx. by apply elem_of_nil in Hx.
Qed.

(** C2, as the code has it: when the run reaches a card that is recomputed
    (it has traits, its code is an English record's, and it passes the
    overwrite guard) and the English record's traits hold a code that the
    language's dictionary lacks, [update_traits] raises a [KeyError] for
    such a code and the run stops there. The translated pack holding the
    card and the packs after it are not written: the world is the one the
    packs processed before had left, and these may have been rewritten. *)
Theorem update_traits_missing_trait_aborts
    (code : Py.str) (cycles : option (list Py.str)) (no_overwrite : bool)
    (w w1 : world) (data : list odict) (tm : gmap Py.str Py.str)
    (files pre post : list filepath) (file : filepath)
    (data_en before after : list odict) (code_en : list Py.str)
    (item item_en : odict) (t c t_en k : Py.str) (i : nat) :
  io.load_json [TRANSLATION_PATH; code; TRAITS_FILENAME] w = (w, Ok data) →
  foldR add_entry ∅ data = Ok tm →
  get_json_files [TRANSLATION_PATH; code; PACK_PATH] cycles w = (w, Ok files) →
  filterIO (λ x, os.isfile (PACK_PATH :: x)) files w = (w, Ok (pre ++ file :: post)) →
  for_each (update_file tm code no_overwrite) pre w = (w1, Ok ()) →
  io.load_json (PACK_PATH :: file) w1 = (w1, Ok data_en) →
  io.load_json ([TRANSLATION_PATH; code; PACK_PATH] ++ file) w1
    = (w1, Ok (before ++ item :: after)) →
  mapR (λ x, OrderedDict.getitem x (u "code")) data_en = Ok code_en →
  Forall (λ x, ∃ r, update_item tm no_overwrite data_en code_en x = Ok r) before →
  OrderedDict.get item (u "traits") = Some t →
  OrderedDict.get item (u "code") = Some c →
  index c code_en = Some i →
  data_en !! i = Some item_en →
  OrderedDict.get item_en (u "traits") = Some t_en →
  (no_overwrite = true → t = t_en) →
  k ∈ _split_traits t_en →
  tm !! k = None →
  ∃ k', k' ∈ _split_traits t_en ∧ tm !! k' = None
    ∧ update_traits code cycles no_overwrite w = (w1, Raise (KeyError k'))
    ∧ ∃ ws, written w1 = written w ++ ws
            ∧ ws ⊆ map (λ file, [TRANSLATION_PATH; code; PACK_PATH] ++ file) pre.
Proof.
  intros Hdata Htm Hfiles Hjsons Hpre Hen Htrans Hcode Hbefore Ht Hc Hi Hitem_en Hten
    Hguard Hk Hmiss.
  destruct (mapR_getitem_missing tm _ k Hk Hmiss) as (k' & Hk' & Hnone & Hraise).
  exists k'. split_and!; [done..| |by eapply for_each_update_file_written].
  rewrite (update_traits_run _ _ _ _ _ _ _ _ Hdata Htm Hfiles Hjsons).
  rewrite for_each_app, (bind_IO_Ok _ _ _ _ _ Hpre). simpl.
  rewrite bind_IO, (update_file_loaded _ _ _ _ _ _ _ _ Hen Htrans Hcode).
  rewrite (update_items_Raise _ _ _ _ _ _ _ _ (KeyError k') Hbefore); [done|].
  rewrite (update_item_matched _ _ _ _ _ _ _ _ _ _ Ht Hc Hi Hitem_en Hten).
  replace (no_overwrite && bool_decide (t ≠ t_en)) with false.
  - by rewrite Hraise.
  - destruct no_overwrite; [|done]. simpl. symmetry. apply bool_decide_eq_false_2.
    intros Hne. by apply Hne, Hguard.
Qed.

(** ** The properties on the sample trees *)

(** On the seeded tree every recomputed string equals the one it replaces,
    and the pack is written back all the same. *)
Lemma update_file_rewrites_unchanged_traits :
  ¬ written_iff_traits_changed
      {[ u "Item" := u "Item"; u "Weapon" := u "Weapon" ]} (u "ko") true
      Sample.core_a Sample.seeded.
Proof.
  intros Hclaim.
  destruct (Hclaim (World (cwd Sample.seeded) [Sample.ko_pack Sample.core_a])
              [Sample.card "01001" "Item."] [Sample.card "01001" "Item."]
              eq_refl eq_refl eq_refl) as [Hwritten _].
  destruct (Hwritten ltac:(done)) as (j & item & item' & Hj & Hj' & Hne).
  destruct j as [|j]; [|done].
  injection Hj as <-. injection Hj' as <-. done.
Qed.

Lemma update_file_written_iff_recomputed_witness :
  ∃ n', update_file {[ u "Item" := u "Objet" ]} (u "ko") true Sample.core_a Sample.incomplete
        = (World n' [Sample.ko_pack Sample.core_a], Ok ())
      ∧ FS.stat n' (Sample.ko_pack Sample.core_a)
        = Some (File (Json [Sample.card "01001" "Objet."])).
Proof.
  refine (proj1 (update_file_written_iff_recomputed {[ u "Item" := u "Objet" ]} (u "ko") true
            Sample.core_a Sample.incomplete [Sample.card "01001" "Item."]
            [Sample.card "01001" "Item."] [Sample.card "01001" "Objet."] [u "01001"] true
            eq_refl eq_refl eq_refl eq_refl) _).
  apply Exists_cons_hd. by exists (Sample.card "01001" "Objet.").
Defined.

(** On the tree whose dictionary lacks [Weapon], with the cycles given in
    the order core, dwl, the pack of the first cycle is rewritten before the
    pack of the second one raises. *)
Lemma update_traits_key_error_after_write :
  ¬ key_error_writes_nothing (u "ko") (Some [u "core"; u "dwl"]) true Sample.incomplete.
Proof.
  intros Hclaim.
  set (r := update_traits (u "ko") (Some [u "core"; u "dwl"]) true Sample.incomplete).
  assert (Hr : r = (r.1, Raise (KeyError (u "Weapon")))) by (by vm_compute).
  apply Hclaim in Hr. vm_compute in Hr. discriminate.
Qed.

Lemma update_traits_missing_trait_aborts_witness :
  ∃ w1 k, update_traits (u "ko") (Some [u "core"; u "dwl"]) true Sample.incomplete
            = (w1, Raise (KeyError k))
          ∧ written w1 = [Sample.ko_pack Sample.core_a].
Proof.
  epose proof (update_traits_missing_trait_aborts (u "ko") (Some [u "core"; u "dwl"]) true
               Sample.incomplete
               _ _ _ _ [Sample.core_a] [] Sample.dwl_b
               _ [] [] _ _ _ (u "Item. Weapon.") _ _ (u "Weapon") 0) as Habort.
  edestruct Habort as (k' & _ & _ & Hrun & _); clear Habort.
  1-8: reflexivity.
  - constructor.
  - reflexivity.
  - reflexivity.
  - reflexivity.
  - reflexivity.
  - reflexivity.
  - reflexivity.
  - by apply (bool_decide_eq_true_1 _).
  - reflexivity.
  - eexists _, k'. split; [exact Hrun|reflexivity].
Defined.

Lemma update_traits_guard_unreachable_witness :
  update_traits (u "ko") None true Sample.no_packs = (Sample.no_packs, Ok ()).
Proof.
  exact (proj2 (update_traits_guard_unreachable (u "ko") None true Sample.no_packs)
           [] ∅ [] eq_refl eq_refl eq_refl eq_refl).
Defined.

(** ** File discovery *)

(** C4 fails on the code: [get_json_files] asks [os.path.isfile(cycle)] of
    the working directory, not of [path]. Over a root with one directory of
    two JSON files and one stray JSON file it lists the stray file as if it
    were a directory and raises; it returns the three paths only when the
    working directory happens to hold a file of the stray file's name. *)
Theorem get_json_files_stray_file_raises :
  get_json_files [u "pack"] None Sample.stray
    = (Sample.stray, Raise (OSError [u "pack"; u "x.json"]))
  ∧ get_json_files [u "pack"] None Sample.stray_shadowed
    = (Sample.stray_shadowed,
       Ok [[u "core"; u "a.json"]; [u "core"; u "b.json"]; [u "x.json"]]).
Proof. split; reflexivity. Qed.

(** ** The lines of [txt2json] *)

Lemma split_length sep s :
  length (Py.split sep s) = S (length (filter (λ c, c = sep) s)).
Proof.
  induction s as [|c s IH]; [done|].
  rewrite filter_cons. cbn [Py.split].
  destruct (N.eqb_spec c sep) as [->|Hne].
  - rewrite decide_True by done. simpl. by rewrite IH.
  - rewrite decide_False by done.
    destruct (Py.split sep s) as [|p ps] eqn:Hs; [by apply split_nonempty in Hs|].
    simpl in *. done.
Qed.

Lemma split_one_sep sep x y :
  sep ∉ x → sep ∉ y → Py.split sep (x ++ sep :: y) = [x; y].
Proof. intros Hx Hy. by rewrite split_app_sep, split_no_sep. Qed.

(** The claim's wording and the code part on a line with two tabs. *)
Lemma txt2json_line_two_tabs :
  let data : gmap Py.str Py.str := {[ u "A" := u "old" ]} in
  let line := u "A" ++ [Py.TAB] ++ u "x" ++ [Py.TAB] ++ u "y" ++ [Py.LF] in
  txt2json_line data line = Raise ValueError
  ∧ txt2json_line_first_tab data line = Ok {[ u "A" := u "x" ++ [Py.TAB] ++ u "y" ]}
  ∧ txt2json_line data line ≠ txt2json_line_first_tab data line.
Proof. by vm_compute. Qed.

(** A line with one tab, between a code and a name. *)
Lemma txt2json_line_one_tab (data : gmap Py.str Py.str) (code name : Py.str) :
  Py.strip (code ++ Py.TAB :: name) ≠ [] →
  Py.TAB ∉ code → Py.TAB ∉ name →
  txt2json_line data (code ++ Py.TAB :: name) =
    Ok (if bool_decide (is_Some (data !! Py.strip code))
        then <[Py.strip code := Py.strip name]> data else data).
Proof.
  intros Hl Hcode Hname. unfold txt2json_line.
  destruct (Py.strip (code ++ Py.TAB :: name)) eqn:Ht; [done|].
  cbn [Py.truthy negb]. rewrite split_one_sep by done.
  by destruct (bool_decide _).
Qed.

(** C5, as the code has it: a blank line is skipped; a non-blank line must
    hold exactly one tab, else the unpacking raises [ValueError] (no tab, or
    more than one); a line [code<TAB>name] has both parts stripped, and the
    name replaces the stored one only when the stripped code is already a
    key; an unknown code changes nothing, and no line ever adds a key. *)
Theorem txt2json_line_exactly_one_tab
    (data : gmap Py.str Py.str) (line code name : Py.str) :
  (Py.strip line = [] → txt2json_line data line = Ok data)
  ∧ (Py.strip line ≠ [] → tabs line ≠ 1%nat →
     txt2json_line data line = Raise ValueError)
  ∧ (Py.strip line ≠ [] → line = code ++ Py.TAB :: name →
     Py.TAB ∉ code → Py.TAB ∉ name →
     txt2json_line data line =
       Ok (if bool_decide (is_Some (data !! Py.strip code))
           then <[Py.strip code := Py.strip name]> data else data))
  ∧ (∀ data', txt2json_line data line = Ok data' → dom data' = dom data).
Proof.
  assert (Hblank : ∀ l : Py.str, Py.truthy l = false ↔ l = []) by (by intros []).
  split_and!.
  - intros Hl. unfold txt2json_line. by rewrite Hl.
  - intros Hl Htabs. unfold txt2json_line.
    destruct (Py.truthy (Py.strip line)) eqn:Ht; [|by apply Hblank in Ht].
    cbn [negb]. pose proof (split_length Py.TAB line) as Hlen. fold (tabs line) in Hlen.
    destruct (Py.split Py.TAB line) as [|a [|b [|c l]]]; simpl in Hlen; try done.
    congruence.
  - intros Hl -> Hcode Hname. by apply txt2json_line_one_tab.
  - intros data'. unfold txt2json_line.
    destruct (negb _); [by intros [= <-]|].
    destruct (Py.split Py.TAB line) as [|a [|b [|c l]]]; try done.
    destruct (bool_decide _) eqn:Hknown; [|by intros [= <-]].
    intros [= <-]. apply bool_decide_eq_true_1 in Hknown.
    rewrite dom_insert_L. apply elem_of_dom in Hknown.
    by apply subseteq_union_1_L, singleton_subseteq_l.
Qed.

Lemma txt2json_line_exactly_one_tab_witness :
  let data : gmap Py.str Py.str := {[ u "A" := u "old" ]} in
  txt2json_line data (u "A" ++ Py.TAB :: u " new" ++ [Py.LF]) = Ok {[ u "A" := u "new" ]}
  ∧ txt2json_line data (u "A new" ++ [Py.LF]) = Raise ValueError.
Proof.
  intros data. split.
  - refine (proj1 (proj2 (proj2 (txt2json_line_exactly_one_tab data
      (u "A" ++ Py.TAB :: u " new" ++ [Py.LF]) (u "A") (u " new" ++ [Py.LF])))) _ eq_refl _ _).
    + by vm_compute.
    + by apply (bool_decide_eq_true_1 _).
    + by apply (bool_decide_eq_true_1 _).
  - refine (proj1 (proj2 (txt2json_line_exactly_one_tab data
      (u "A new" ++ [Py.LF]) [] [])) _ _); by vm_compute.
Defined.

(** ** Order on strings *)

Lemma compare_refl s : Py.compare s s = Eq.
Proof. induction s as [|a s IH]; simpl; [done|]. by rewrite N.compare_refl. Qed.

Lemma compare_eq s t : Py.compare s t = Eq → s = t.
Proof.
  revert t. induction s as [|a s IH]; intros [|b t]; simpl; try done.
  destruct (N.compare_spec a b) as [->| |]; try done.
  intros H. by rewrite (IH t H).
Qed.

Lemma compare_antisym s t : Py.compare t s = CompOpp (Py.compare s t).
Proof.
  revert t. induction s as [|a s IH]; intros [|b t]; simpl; try done.
  rewrite (N.compare_antisym a b).
  destruct (N.compare a b); simpl; [apply IH|done..].
Qed.

Lemma compare_lt_trans s t v :
  Py.compare s t = Lt → Py.compare t v = Lt → Py.compare s v = Lt.
Proof.
  revert t v. induction s as [|a s IH]; intros [|b t] [|c v]; simpl; try done.
  destruct (N.compare_spec a b) as [->|Hab|Hab]; [| |done].
  - destruct (N.compare b c); [apply IH|done..].
  - intros _. destruct (N.compare_spec b c) as [->|Hbc|Hbc]; [| |done].
    + intros _. by rewrite (proj2 (N.compare_lt_iff a c)).
    + intros _. by rewrite (proj2 (N.compare_lt_iff a c)) by lia.
Qed.

Lemma str_lt_asym x y : str_lt x y = true → str_lt y x = false.
Proof. unfold str_lt. rewrite (compare_antisym x y). by destruct (Py.compare x y). Qed.

Lemma str_lt_irrefl x : str_lt x x = false.
Proof. unfold str_lt. by rewrite compare_refl. Qed.

Lemma str_lt_total x y : str_lt x y = false → str_lt y x = false → x = y.
Proof.
  unfold str_lt. rewrite (compare_antisym x y).
  destruct (Py.compare x y) eqn:Hc; try done. intros _ _. by apply compare_eq.
Qed.

Lemma str_lt_trans x y z : str_lt x y = true → str_lt y z = true → str_lt x z = true.
Proof.
  unfold str_lt. destruct (Py.compare x y) eqn:Hxy; try done.
  destruct (Py.compare y z) eqn:Hyz; try done.
  by rewrite (compare_lt_trans _ _ _ Hxy Hyz).
Qed.

(** ** The stable sort *)

Section sort_facts.
Context {A : Type} (lt : A → A → bool).

Local Abbreviation le := (λ x y : A, lt y x = false).

Lemma insert_sorted_perm x l : insert_sorted lt x l ≡ₚ x :: l.
Proof.
  induction l as [|y l IH]; simpl; [done|].
  destruct (lt y x); [|done]. rewrite IH. apply Permutation_swap.
Qed.

Lemma sort_perm l : sort lt l ≡ₚ l.
Proof.
  induction l as [|x l IH]; simpl; [done|].
  by rewrite insert_sorted_perm, IH.
Qed.

Lemma insert_sorted_Sorted x l :
  (∀ a b, lt a b = true → lt b a = false) →
  Sorted le l → Sorted le (insert_sorted lt x l).
Proof.
  intros Hasym. induction l as [|y l IH]; intros Hl; simpl.
  - by repeat constructor.
  - destruct (lt y x) eqn:Hyx.
    + apply Sorted_inv in Hl as [Hl Hhd]. constructor; [by apply IH|].
      destruct l as [|z l]; simpl.
      * constructor. by apply Hasym.
      * destruct (lt z x); constructor; [by inversion Hhd|by apply Hasym].
    + constructor; [done|]. by constructor.
Qed.

Lemma sort_Sorted l :
  (∀ a b, lt a b = true → lt b a = false) → Sorted le (sort lt l).
Proof.
  intros Hasym. induction l as [|x l IH]; simpl; [constructor|].
  by apply insert_sorted_Sorted.
Qed.

(** Sorting a sorted list changes nothing. *)
Lemma sort_id l : Sorted le l → sort lt l = l.
Proof.
  induction l as [|x l IH]; intros Hl; simpl; [done|].
  apply Sorted_inv in Hl as [Hl Hhd]. rewrite IH by done.
  destruct Hhd as [|y l Hxy]; simpl; [done|]. by rewrite Hxy.
Qed.

Lemma sort_map {B} (f : B → A) l :
  sort lt (map f l) = map f (sort (λ a b, lt (f a) (f b)) l).
Proof.
  induction l as [|x l IH]; simpl; [done|]. rewrite IH.
  generalize (sort (λ a b, lt (f a) (f b)) l) as s. clear.
  induction s as [|y s IH]; simpl; [done|].
  destruct (lt (f y) (f x)); simpl; by rewrite ?IH.
Qed.

End sort_facts.

(** [sorted] of the elements of a set: increasing, without duplicates, with
    the same members. *)
Lemma sorted_elements (S : gset Py.str) :
  increasing (sorted (elements S)) ∧ NoDup (sorted (elements S))
  ∧ ∀ x, x ∈ sorted (elements S) ↔ x ∈ S.
Proof.
  unfold sorted, increasing.
  assert (Hnodup : NoDup (sort str_lt (elements S)))
    by (rewrite sort_perm; apply NoDup_elements).
  split_and!; [|done|].
  - pose proof (sort_Sorted str_lt (elements S) str_lt_asym) as Hsorted.
    apply Sorted_StronglySorted; [intros x y z; apply str_lt_trans|].
    induction Hsorted as [|x l Hl IH Hhd]; [constructor|].
    apply NoDup_cons in Hnodup as [Hx Hnodup].
    constructor; [by apply IH|].
    destruct Hhd as [|y l Hxy]; constructor.
    destruct (str_lt x y) eqn:Hlt; [done|].
    destruct Hx. rewrite (str_lt_total _ _ Hlt Hxy). by left.
  - intros x. by rewrite sort_perm, elem_of_elements.
Qed.

(** ** The master trait list *)

Lemma collect_traits_Ok (S : gset Py.str) (card : odict) :
  ∃ S', collect_traits S card = Ok S'
    ∧ ∀ x, x ∈ S' ↔
        x ∈ S ∨ ∃ t, OrderedDict.get card (u "traits") = Some t ∧ x ∈ _split_traits t.
Proof.
  unfold collect_traits, OrderedDict.contains, OrderedDict.getitem.
  destruct (OrderedDict.get card (u "traits")) as [t|] eqn:Ht.
  - rewrite bool_decide_eq_true_2 by eauto. cbn [negb mbind result_bind].
    eexists. split; [done|]. intros x. rewrite elem_of_union, elem_of_list_to_set.
    split; [intros [?|?]; eauto|]. intros [?|(t' & [= <-] & ?)]; eauto.
  - rewrite bool_decide_eq_false_2 by (by intros [? ?]). cbn [negb].
    eexists. split; [done|]. intros x. split; [eauto|]. by intros [?|(? & ? & ?)].
Qed.

Lemma collect_traits_pack (S : gset Py.str) (cards : list odict) :
  ∃ S', foldR collect_traits S cards = Ok S'
    ∧ ∀ x, x ∈ S' ↔
        x ∈ S ∨ ∃ card t, card ∈ cards
                 ∧ OrderedDict.get card (u "traits") = Some t ∧ x ∈ _split_traits t.
Proof.
  revert S. induction cards as [|card cards IH]; intros S; simpl.
  - exists S. split; [done|]. intros x. split; [eauto|].
    intros [?|(card & t & Hc & _)]; [done|]. by apply elem_of_nil in Hc.
  - destruct (collect_traits_Ok S card) as (S1 & -> & H1). cbn [mbind result_bind].
    destruct (IH S1) as (S2 & -> & H2). exists S2. split; [done|].
    intros x. rewrite H2, H1. split.
    + intros [[?|(t & ? & ?)]|(c & t & ? & ? & ?)]; eauto.
      * right. exists card, t. split_and!; [by left|done..].
      * right. exists c, t. split_and!; [by right|done..].
    + intros [?|(c & t & [->|?]%elem_of_cons & ? & ?)]; eauto 10.
Qed.

Lemma collect_traits_packs (S : gset Py.str) w files (packs : list (list odict)) :
  Forall2 (λ f cards, io.load_json (PACK_PATH :: f) w = (w, Ok cards)) files packs →
  ∃ S', foldIO (λ traits json_file,
                  data ← io.load_json (PACK_PATH :: json_file);
                  lift (foldR collect_traits traits data)) S files w = (w, Ok S')
    ∧ ∀ x, x ∈ S' ↔
        x ∈ S ∨ ∃ cards card t, cards ∈ packs ∧ card ∈ cards
                 ∧ OrderedDict.get card (u "traits") = Some t ∧ x ∈ _split_traits t.
Proof.
  intros Hload. revert S. induction Hload as [|f cards files packs Hf _ IH]; intros S.
  - exists S. split; [done|]. intros x. split; [eauto|].
    intros [?|(cards & ? & ? & Hc & _)]; [done|]. by apply elem_of_nil in Hc.
  - cbn [foldIO]. rewrite bind_IO, (bind_IO_Ok _ _ _ _ _ Hf).
    destruct (collect_traits_pack S cards) as (S1 & -> & H1).
    unfold lift at 1. destruct (IH S1) as (S2 & -> & H2).
    exists S2. split; [done|]. intros x. rewrite H2, H1. split.
    + intros [[?|(c & t & ? & ? & ?)]|(cs & c & t & ? & ? & ? & ?)]; eauto.
      * right. exists cards, c, t. split_and!; [by left|done..].
      * right. exists cs, c, t. split_and!; [by right|done..].
    + intros [?|(cs & c & t & [->|?]%elem_of_cons & ? & ? & ?)]; eauto 10.
Qed.

(** Whether a file can be opened for writing does not depend on what is
    written. *)
Lemma store_any_content c c' p n :
  is_Some (FS.store n p c) → is_Some (FS.store n p c').
Proof.
  revert n. induction p as [|x p IH]; intros n; simpl.
  - by destruct n.
  - destruct n as [|es]; [done|].
    destruct (FS.entry x es) as [m|].
    + intros [n' Hn']. destruct (FS.store m p c) as [m'|] eqn:Hm; [|done].
      destruct (IH m) as [m'' ->]; [by rewrite Hm|]. done.
    + by destruct p.
Qed.

(** C9: [make_placeholder] writes, as the master traits file, an array of
    objects with the two keys [code] and [name], in this order, both holding
    the same trait name [x], one object for each trait name found by
    splitting the traits of every card that has a [traits] field, over all
    the English pack files that [get_json_files] lists; the codes are in
    increasing order, without duplicates, and are exactly these names. On
    two packs with traits ["Item."] and ["Item. Weapon."] the master list
    is Item, Weapon. *)
Theorem make_placeholder_master_list :
  (∀ (w : world) (files : list filepath) (packs : list (list odict)),
     get_json_files [PACK_PATH] None w = (w, Ok files) →
     Forall2 (λ f cards, io.load_json (PACK_PATH :: f) w = (w, Ok cards)) files packs →
     can_open_w w [TRAITS_FILENAME] →
     ∃ codes n',
       make_placeholder w = (World n' (written w ++ [[TRAITS_FILENAME]]), Ok ())
       ∧ FS.stat n' [TRAITS_FILENAME]
         = Some (File (Json (map (λ x, [(u "code", x); (u "name", x)]) codes)))
       ∧ increasing codes ∧ NoDup codes
       ∧ ∀ x, x ∈ codes ↔
           ∃ cards card t, cards ∈ packs ∧ card ∈ cards
             ∧ OrderedDict.get card (u "traits") = Some t ∧ x ∈ _split_traits t)
  ∧ ∃ n', make_placeholder Sample.seeded = (World n' [[TRAITS_FILENAME]], Ok ())
      ∧ FS.stat n' [TRAITS_FILENAME]
        = Some (File (Json [[(u "code", u "Item"); (u "name", u "Item")];
                            [(u "code", u "Weapon"); (u "name", u "Weapon")]])).
Proof.
  split; [|exists (cwd (make_placeholder Sample.seeded).1); split; by vm_compute].
  intros w files packs Hfiles Hpacks Hopen.
  destruct (collect_traits_packs ∅ w files packs Hpacks) as (S & Hfold & HS).
  destruct (sorted_elements S) as (Hinc & Hnodup & Hmem).
  set (codes := sorted (elements S)) in *.
  destruct Hopen as [_ Hopen].
  destruct (store_any_content _ (Json (map (λ x, trait_entry x x) codes)) _ _ Hopen)
    as [n' Hn'].
  exists codes, n'. split_and!; [|by eapply store_stat_eq|done..|].
  - unfold make_placeholder.
    rewrite (bind_IO_Ok _ _ _ _ _ Hfiles), (bind_IO_Ok _ _ _ _ _ Hfold).
    fold codes. unfold io.dump_json, io.write. by rewrite Hn'.
  - intros x. rewrite Hmem, HS. split; [|eauto].
    intros [Hx|?]; [|done]. by apply not_elem_of_empty in Hx.
Qed.

Lemma make_placeholder_master_list_witness :
  ∃ codes n',
    make_placeholder Sample.seeded = (World n' [[TRAITS_FILENAME]], Ok ())
    ∧ FS.stat n' [TRAITS_FILENAME]
      = Some (File (Json (map (λ x, [(u "code", x); (u "name", x)]) codes)))
    ∧ increasing codes.
Proof.
  destruct (proj1 make_placeholder_master_list Sample.seeded
              [Sample.core_a; Sample.core_b]
              [[Sample.card "01001" "Item."]; [Sample.card "01002" "Item. Weapon."]])
    as (codes & n' & Hrun & Hstat & Hinc & _).
  - reflexivity.
  - repeat constructor.
  - split; [done|by eexists].
  - by exists codes, n'.
Defined.

(** ** Merging the master list into a placeholder *)

Lemma mapR_Forall2 {A B} (f : A → result B) l l' :
  mapR f l = Ok l' ↔ Forall2 (λ x y, f x = Ok y) l l'.
Proof.
  revert l'. induction l as [|x l IH]; intros l'; simpl.
  - split; [intros [= <-]; constructor|]. by intros ->%Forall2_nil_inv_l.
  - split.
    + destruct (f x) as [y|] eqn:Hx; [|done]. cbn [mbind result_bind].
      destruct (mapR f l) as [ys|]; [|done]. intros [= <-].
      constructor; [done|]. by apply IH.
    + intros (y & ys & Hx & Hys & ->)%Forall2_cons_inv_l.
      rewrite Hx. cbn [mbind result_bind]. by rewrite (proj2 (IH ys) Hys).
Qed.

Section merge.
Context (trans_codes : list Py.str).

Local Abbreviation body :=
  (λ (trans_data : list odict) (item : odict),
     c ← OrderedDict.getitem item (u "code");
     Ok (if bool_decide (c ∉ trans_codes) then trans_data ++ [item] else trans_data)).

(** The loop over the master entries appends the new ones, in order. *)
Lemma merge_loop_Ok trans_data data out :
  foldR body trans_data data = Ok out →
  out = trans_data ++ filter (λ item, is_new trans_codes item = true) data
  ∧ Forall (λ item, is_Some (OrderedDict.get item (u "code"))) data.
Proof.
  revert trans_data. induction data as [|item data IH]; intros td; cbn [foldR].
  - intros [= <-]. by rewrite app_nil_r.
  - destruct (OrderedDict.get item (u "code")) as [c|] eqn:Hc.
    + rewrite (getitem_get _ _ _ Hc). cbn [mbind result_bind].
      intros [-> Hall]%IH. split; [|constructor; eauto].
      rewrite filter_cons.
      assert (is_new trans_codes item = bool_decide (c ∉ trans_codes)) as ->
        by (unfold is_new; by rewrite Hc).
      destruct (bool_decide (c ∉ trans_codes)).
      * rewrite decide_True by done. by rewrite <- app_assoc.
      * by rewrite decide_False by done.
    + unfold OrderedDict.getitem. by rewrite Hc.
Qed.

(** When every master code is known, the loop appends nothing. *)
Lemma merge_loop_known trans_data data :
  Forall (λ item, ∃ c, OrderedDict.get item (u "code") = Some c ∧ c ∈ trans_codes) data →
  foldR body trans_data data = Ok trans_data.
Proof.
  induction 1 as [|item data (c & Hc & Hin) _ IH]; simpl; [done|].
  rewrite (getitem_get _ _ _ Hc). cbn [mbind result_bind].
  by rewrite bool_decide_eq_false_2 by (by intros []).
Qed.

End merge.

Section sort_key.
Context {A : Type} (key : A → result Py.str).

Local Abbreviation ltk := (λ x y : Py.str * A, str_lt x.1 y.1).

Lemma sort_key_Ok l out :
  sort_key key l = Ok out →
  ∃ ps, out = ps.*2 ∧ Forall (λ p, key p.2 = Ok p.1) ps
        ∧ out ≡ₚ l ∧ Sorted (λ x y, ltk y x = false) ps.
Proof.
  unfold sort_key. destruct (mapR key l) as [keys|] eqn:Hkeys; [|done].
  cbn [mbind result_bind]. intros [= <-].
  apply mapR_Forall2 in Hkeys.
  exists (sort ltk (zip keys l)). split_and!; [done| | |].
  - rewrite sort_perm. clear -Hkeys.
    induction Hkeys; simpl; constructor; done.
  - change (map snd ?l) with (l.*2). rewrite sort_perm.
    rewrite snd_zip; [done|]. by rewrite (Forall2_length _ _ _ Hkeys).
  - apply sort_Sorted. intros [a ?] [b ?]. apply str_lt_asym.
Qed.

(** Sorting by key what is sorted by key changes nothing. *)
Lemma sort_key_sorted (ps : list (Py.str * A)) :
  Forall (λ p, key p.2 = Ok p.1) ps →
  Sorted (λ x y, ltk y x = false) ps →
  sort_key key ps.*2 = Ok ps.*2.
Proof.
  intros Hkeys Hsorted. unfold sort_key.
  assert (mapR key ps.*2 = Ok ps.*1) as ->.
  { apply mapR_Forall2. clear Hsorted.
    induction Hkeys as [|[k x] ps Hk _ IH]; simpl; constructor; done. }
  cbn [mbind result_bind]. rewrite zip_fst_snd. by rewrite sort_id.
Qed.

End sort_key.

(** ** [update_placeholder] *)

Section update_placeholder.
Context (code : Py.str).

Local Abbreviation master := [TRAITS_FILENAME].
Local Abbreviation lang_dir := [TRANSLATION_PATH; code].
Local Abbreviation trans_traits_path := [TRANSLATION_PATH; code; TRAITS_FILENAME].
Local Abbreviation body := (λ (trans_codes : list Py.str)
  (trans_data : list odict) (item : odict),
     c ← OrderedDict.getitem item (u "code");
     Ok (if bool_decide (c ∉ trans_codes) then trans_data ++ [item] else trans_data)).

(** The run, once the master list, the language directory and the
    existing entries are there. *)
Lemma update_placeholder_eq w data es old :
  FS.stat (cwd w) master = Some (File (Json data)) →
  FS.stat (cwd w) lang_dir = Some (Dir es) →
  existing_entries w code = Ok old →
  update_placeholder code w =
    match mapR code_of old with
    | Raise e => (w, Raise e)
    | Ok trans_codes =>
        match foldR (body trans_codes) old data with
        | Raise e => (w, Raise e)
        | Ok trans_data =>
            match sort_key code_of trans_data with
            | Raise e => (w, Raise e)
            | Ok trans_data => io.dump_json trans_traits_path trans_data w
            end
        end
    end.
Proof.
  intros Hmaster Hdir Hold. unfold existing_entries in Hold.
  cbv beta iota zeta delta [update_placeholder mbind IO_bind result_bind mret IO_ret lift
                       os.isfile os.isdir io.load_json code_of].
  rewrite Hmaster. cbv beta iota zeta delta [negb].
  rewrite Hdir. cbv beta iota zeta delta [negb].
  destruct (FS.stat (cwd w) trans_traits_path) as [[[l|]|]|] eqn:Htp; try done;
    injection Hold as <-; cbv beta iota zeta; rewrite ?Htp; cbv beta iota zeta;
    rewrite ?Hmaster.
  - replace (match l with x :: l0 => x :: l0 | [] => [] end) with l by (by destruct l).
    destruct (mapR _ l) as [codes|]; [|done].
    destruct (foldR _ l data) as [td|]; [|done].
    by destruct (sort_key _ td).
  - cbn [mapR]. destruct (foldR _ [] data) as [td|]; [|done].
    by destruct (sort_key _ td).
  - cbn [mapR]. destruct (foldR _ [] data) as [td|]; [|done].
    by destruct (sort_key _ td).
Qed.

(** A run that returns had these three to start from. *)
Lemma update_placeholder_Ok_inv w w1 :
  update_placeholder code w = (w1, Ok ()) →
  ∃ data es old,
    FS.stat (cwd w) master = Some (File (Json data))
    ∧ FS.stat (cwd w) lang_dir = Some (Dir es)
    ∧ existing_entries w code = Ok old.
Proof.
  unfold update_placeholder.
  rewrite bind_IO. unfold os.isfile at 1.
  destruct (FS.stat (cwd w) master) as [[c|]|] eqn:Hmaster; cbn [negb]; [|done..].
  rewrite bind_IO. unfold os.isdir at 1.
  destruct (FS.stat (cwd w) lang_dir) as [[|es]|] eqn:Hdir; cbn [negb]; [done| |done].
  rewrite bind_IO. unfold os.isfile at 1. unfold existing_entries.
  assert (Hmaster' : ∀ (B : Type) (f : list odict → IO B) r,
            (io.load_json master ≫= f) w = (w1, Ok r) → ∃ data, c = Json data).
  { intros B f r. rewrite bind_IO. unfold io.load_json. rewrite Hmaster.
    destruct c; [eauto|done]. }
  destruct (FS.stat (cwd w) trans_traits_path) as [[[l|]|]|] eqn:Htp.
  - rewrite bind_IO, bind_IO. unfold io.load_json at 1. rewrite Htp.
    cbn [mret IO_ret]. rewrite bind_lift.
    destruct (mapR _ _) as [codes|]; [|done].
    intros [data ->]%Hmaster'. eauto 10.
  - rewrite bind_IO, bind_IO. unfold io.load_json at 1. by rewrite Htp.
  - rewrite bind_IO. cbn [mret IO_ret]. rewrite bind_lift. cbn [mapR].
    intros [data ->]%Hmaster'. eauto 10.
  - rewrite bind_IO. cbn [mret IO_ret]. rewrite bind_lift. cbn [mapR].
    intros [data ->]%Hmaster'. eauto 10.
Qed.

End update_placeholder.

Lemma code_in_keys (ps : list (Py.str * odict)) x c :
  Forall (λ p, code_of p.2 = Ok p.1) ps → x ∈ ps.*2 → code_of x = Ok c → c ∈ ps.*1.
Proof.
  intros Hkeys ([k y] & -> & Hp)%list_elem_of_fmap Hc.
  rewrite Forall_forall in Hkeys. specialize (Hkeys _ Hp). simpl in *.
  assert (k = c) as -> by congruence.
  apply list_elem_of_fmap. by exists (c, y).
Qed.

Lemma sorted_by_code (ps : list (Py.str * odict)) :
  Forall (λ p, code_of p.2 = Ok p.1) ps →
  Sorted (λ x y, str_lt y.1 x.1 = false) ps →
  Sorted code_le ps.*2.
Proof.
  intros Hkeys Hsorted. induction Hsorted as [|[k x] ps Hs IH Hhd]; [constructor|].
  apply Forall_cons in Hkeys as [Hk Hkeys]. simpl. constructor; [by apply IH|].
  destruct Hhd as [|[k' y] ps Hkk']; simpl; constructor.
  apply Forall_cons in Hkeys as [Hk' _]. simpl in *.
  unfold code_le. apply getitem_Ok in Hk, Hk'. by rewrite Hk, Hk'.
Qed.

(** C8: a run of [update_placeholder] that returns keeps every entry the
    per-language file had, as it was, and adds the master entries whose code
    the file lacked; the result is sorted by code. A second run on what the
    first one left returns too and leaves the tree as it is: it adds no
    entry and alters none. *)
Theorem update_placeholder_idempotent (code : Py.str) (w w1 : world) :
  update_placeholder code w = (w1, Ok ()) →
  ∃ old trans_codes data out,
    existing_entries w code = Ok old
    ∧ mapR code_of old = Ok trans_codes
    ∧ FS.stat (cwd w) [TRAITS_FILENAME] = Some (File (Json data))
    ∧ FS.stat (cwd w1) [TRANSLATION_PATH; code; TRAITS_FILENAME] = Some (File (Json out))
    ∧ out ≡ₚ old ++ filter (λ item, is_new trans_codes item = true) data
    ∧ Sorted code_le out
    ∧ update_placeholder code w1
      = (World (cwd w1) (written w1 ++ [[TRANSLATION_PATH; code; TRAITS_FILENAME]]), Ok ()).
Proof.
  intros Hrun.
  destruct (update_placeholder_Ok_inv _ _ _ Hrun) as (data & es & old & Hmaster & Hdir & Hold).
  rewrite (update_placeholder_eq _ _ _ _ _ Hmaster Hdir Hold) in Hrun.
  destruct (mapR code_of old) as [trans_codes|] eqn:Hcodes; [|done].
  destruct (foldR _ old data) as [td|] eqn:Hloop; [|done].
  destruct (sort_key code_of td) as [out|] eqn:Hsort; [|done].
  unfold io.dump_json, io.write in Hrun.
  destruct (FS.store (cwd w) _ (Json out)) as [n'|] eqn:Hstore; [|done].
  injection Hrun as <-.
  apply merge_loop_Ok in Hloop as [-> Hdata].
  apply sort_key_Ok in Hsort as (ps & -> & Hkeys & Hperm & Hsorted).
  assert (Hout : FS.stat n' [TRANSLATION_PATH; code; TRAITS_FILENAME]
                 = Some (File (Json ps.*2))) by (by eapply store_stat_eq).
  exists old, trans_codes, data, ps.*2. split_and!; try done.
  { by apply sorted_by_code. }
  (* the second run *)
  cbn [cwd written].
  assert (Hmaster' : FS.stat n' [TRAITS_FILENAME] = Some (File (Json data))).
  { assert (Hne : [TRAITS_FILENAME] ≠ [TRANSLATION_PATH; code; TRAITS_FILENAME]) by done.
    pose proof (store_stat_ne _ _ _ _ _ Hstore Hne) as Hk.
    rewrite Hmaster in Hk. by destruct (FS.stat n' [TRAITS_FILENAME]) as [[]|]; simplify_eq/=. }
  assert (∃ es', FS.stat n' [TRANSLATION_PATH; code] = Some (Dir es')) as [es' Hdir']
    by (apply (store_stat_dir _ _ _ _ _ Hstore); eauto).
  assert (Hold' : existing_entries (World n' (written w ++ [[TRANSLATION_PATH; code; TRAITS_FILENAME]])) code
                  = Ok ps.*2) by (unfold existing_entries; cbn [cwd]; by rewrite Hout).
  rewrite (update_placeholder_eq code
             (World n' (written w ++ [[TRANSLATION_PATH; code; TRAITS_FILENAME]]))
             data es' ps.*2 Hmaster' Hdir' Hold').
  assert (mapR code_of ps.*2 = Ok ps.*1) as ->.
  { apply mapR_Forall2. clear -Hkeys.
    induction Hkeys as [|[k x] ps Hk _ IH]; simpl; constructor; done. }
  rewrite merge_loop_known.
  - rewrite (sort_key_sorted code_of ps Hkeys Hsorted).
    unfold io.dump_json, io.write. cbn [cwd written].
    rewrite store_same_content; [done|]. by rewrite <- stat_resolve.
  - apply Forall_forall. intros item Hitem.
    rewrite Forall_forall in Hdata. destruct (Hdata _ Hitem) as [c Hc].
    exists c. split; [done|].
    assert (∃ x, x ∈ ps.*2 ∧ code_of x = Ok c) as (x & Hx & Hxc).
    { destruct (decide (c ∈ trans_codes)) as [Hin|Hnotin].
      - apply mapR_Forall2 in Hcodes.
        apply list_elem_of_lookup in Hin as [i Hi].
        destruct (Forall2_lookup_r _ _ _ _ _ Hcodes Hi) as (x & Hx & Hxc).
        exists x. split; [|done]. rewrite Hperm. apply elem_of_app. left.
        by eapply list_elem_of_lookup_2.
      - exists item. split; [|by apply getitem_get].
        rewrite Hperm. apply elem_of_app. right. apply list_elem_of_filter.
        split; [|done]. unfold is_new. rewrite Hc. by apply bool_decide_eq_true_2. }
    by eapply code_in_keys.
Qed.

Lemma update_placeholder_idempotent_witness :
  let w1 := (update_placeholder (u "ko") Sample.master).1 in
  FS.stat (cwd w1) [TRANSLATION_PATH; u "ko"; TRAITS_FILENAME]
    = Some (File (Json [trait_entry (u "Item") (u "Objet");
                        trait_entry (u "Weapon") (u "Weapon")]))
  ∧ update_placeholder (u "ko") w1
    = (World (cwd w1) (written w1 ++ [[TRANSLATION_PATH; u "ko"; TRAITS_FILENAME]]), Ok ()).
Proof.
  intros w1.
  destruct (update_placeholder_idempotent (u "ko") Sample.master w1 eq_refl)
    as (old & trans_codes & data & out & _ & _ & _ & _ & _ & _ & Hagain).
  split; [reflexivity|exact Hagain].
Defined.

(** ** Stripping *)

Lemma lstrip_length s : (length (Py.lstrip s) ≤ length s)%nat.
Proof. induction s as [|c s IH]; simpl; [done|]. destruct (Py.isspace c); simpl; lia. Qed.

Lemma rstrip_length s : (length (Py.rstrip s) ≤ length s)%nat.
Proof.
  unfold Py.rstrip. rewrite length_reverse.
  etrans; [apply lstrip_length|]. by rewrite length_reverse.
Qed.

Lemma lstrip_fixed s : Py.lstrip s = s ∨ (length (Py.lstrip s) < length s)%nat.
Proof.
  destruct s as [|c s]; simpl; [by left|].
  destruct (Py.isspace c); [|by left]. right. pose proof (lstrip_length s). lia.
Qed.

Lemma strip_fixed s : Py.strip s = s → Py.lstrip s = s ∧ Py.rstrip s = s.
Proof.
  unfold Py.strip. intros Hs.
  destruct (lstrip_fixed s) as [Hl|Hl]; [by rewrite Hl in Hs|].
  pose proof (rstrip_length (Py.lstrip s)) as Hr. rewrite Hs in Hr. lia.
Qed.

Lemma lstrip_app s t : Py.lstrip s = s → s ≠ [] → Py.lstrip (s ++ t) = s ++ t.
Proof.
  destruct s as [|c s]; [done|]. simpl. intros Hs _.
  destruct (Py.isspace c); [|done].
  pose proof (lstrip_length s) as Hl. rewrite Hs in Hl. simpl in Hl. lia.
Qed.

Lemma rstrip_snoc_space s c : Py.isspace c = true → Py.rstrip (s ++ [c]) = Py.rstrip s.
Proof. intros Hc. unfold Py.rstrip. rewrite reverse_snoc. simpl. by rewrite Hc. Qed.

(** The line feed that ends a line goes with the white space. *)
Lemma strip_line_feed s : Py.strip s = s → Py.strip (s ++ [Py.LF]) = s.
Proof.
  intros Hs. destruct (strip_fixed s Hs) as [Hl Hr].
  destruct (decide (s = [])) as [->|Hne]; [done|].
  unfold Py.strip. rewrite lstrip_app by done. by rewrite rstrip_snoc_space.
Qed.

(** ** Lines *)

Lemma universal_newlines_id s : Py.CR ∉ s → io.universal_newlines s = s.
Proof.
  induction s as [|c s IH]; [done|]. intros [Hc Hs]%not_elem_of_cons.
  cbn [io.universal_newlines]. rewrite (proj2 (N.eqb_neq c Py.CR)) by done.
  by rewrite IH.
Qed.

Lemma lines_app_line b rest :
  Py.LF ∉ b → io.lines (b ++ Py.LF :: rest) = (b ++ [Py.LF]) :: io.lines rest.
Proof.
  induction b as [|c b IH]; [done|]. intros [Hc Hb]%not_elem_of_cons.
  simpl. rewrite (proj2 (N.eqb_neq c Py.LF)) by done. by rewrite IH.
Qed.

Lemma lines_concat (bodies : list Py.str) :
  Forall (λ b, Py.LF ∉ b) bodies →
  io.lines (concat (map (λ b, b ++ [Py.LF]) bodies)) = map (λ b, b ++ [Py.LF]) bodies.
Proof.
  induction 1 as [|b bodies Hb _ IH]; [done|]. simpl.
  rewrite <- app_assoc. simpl. by rewrite lines_app_line, IH.
Qed.

(** ** Entries *)

Lemma get_trait_entry_code c n : OrderedDict.get (trait_entry c n) (u "code") = Some c.
Proof. reflexivity. Qed.

Lemma get_trait_entry_name c n : OrderedDict.get (trait_entry c n) (u "name") = Some n.
Proof. reflexivity. Qed.

(** ** The text bridge *)

Lemma same_kind_trans a b c : same_kind a b → same_kind b c → same_kind a c.
Proof.
  destruct a as [[]|], b as [[]|], c as [[]|]; simpl; try done. congruence.
Qed.

Lemma same_kind_file a c : same_kind a (Some (File c)) → a = Some (File c).
Proof. destruct a as [[]|]; simpl; try done. by intros ->. Qed.

Lemma json2txt_line_holds e p : holds e p → json2txt_line e = Ok (text_line p).
Proof.
  intros [Hc Hn]. unfold json2txt_line, text_line.
  rewrite (getitem_get _ _ _ Hc), (getitem_get _ _ _ Hn). cbn [mbind result_bind].
  by rewrite <- app_assoc.
Qed.

(** The loop of [json2txt] appends one line per entry to the text file
    and touches nothing else. *)
Lemma json2txt_loop p items pairs w t :
  Forall2 holds items pairs →
  FS.stat (cwd w) p = Some (File (Text t)) →
  ∃ n', for_each (λ item, line ← lift (json2txt_line item); io.append p line) items w
          = (World n' (written w), Ok ())
        ∧ FS.stat n' p = Some (File (Text (t ++ concat (map text_line pairs))))
        ∧ ∀ q, q ≠ p → same_kind (FS.stat n' q) (FS.stat (cwd w) q).
Proof.
  intros Hitems. revert w t.
  induction Hitems as [|e pr items pairs He _ IH]; intros w t Hstat.
  - exists (cwd w). simpl. rewrite app_nil_r. split_and!; [by destruct w|done|].
    intros. apply same_kind_refl.
  - assert (p ≠ []) as Hp by (by intros ->).
    pose proof Hstat as Hres. rewrite stat_resolve in Hres by done.
    destruct (store_existing (Text (t ++ text_line pr)) _ _ _ Hres) as [n1 Hn1].
    destruct (IH (World n1 (written w)) (t ++ text_line pr)) as (n' & Hrun & Hn' & Hframe).
    { by eapply store_stat_eq. }
    exists n'. split_and!.
    + cbn [for_each]. rewrite bind_IO, bind_lift, (json2txt_line_holds _ _ He).
      unfold io.append at 1. rewrite Hstat, Hn1. exact Hrun.
    + rewrite Hn'. simpl. by rewrite <- app_assoc.
    + intros q Hq. eapply same_kind_trans; [by apply Hframe|].
      by eapply store_stat_ne.
Qed.

Lemma json2txt_Ok path_json path_text w entries pairs :
  io.load_json path_json w = (w, Ok entries) →
  Forall2 holds entries pairs →
  can_open_w w path_text →
  ∃ n', json2txt path_json path_text w = (World n' (written w ++ [path_text]), Ok ())
        ∧ FS.stat n' path_text = Some (File (Text (concat (map text_line pairs))))
        ∧ ∀ q, q ≠ path_text → same_kind (FS.stat n' q) (FS.stat (cwd w) q).
Proof.
  intros Hload Hpairs [Hp [n0 Hn0]].
  destruct (json2txt_loop path_text entries pairs
              (World n0 (written w ++ [path_text])) [] Hpairs) as (n' & Hrun & Hn' & Hframe).
  { by eapply store_stat_eq. }
  exists n'. split_and!; [|done|].
  - unfold json2txt. rewrite (bind_IO_Ok _ _ _ _ _ Hload), bind_IO.
    unfold io.write at 1. rewrite Hn0. by destruct path_text.
  - intros q Hq. eapply same_kind_trans; [by apply Hframe|].
    by eapply store_stat_ne.
Qed.

Lemma add_entry_holds (m : gmap Py.str Py.str) e p :
  holds e p → add_entry m e = Ok (<[p.1 := p.2]> m).
Proof.
  intros [Hc Hn]. unfold add_entry.
  rewrite (getitem_get _ _ _ Hn). cbn [mbind result_bind].
  by rewrite (getitem_get _ _ _ Hc).
Qed.

(** The dictionary [txt2json] builds from the entries. *)
Lemma add_entries_Ok (m : gmap Py.str Py.str) entries pairs :
  Forall2 holds entries pairs →
  foldR add_entry m entries = Ok (foldl (λ m p, <[p.1 := p.2]> m) m pairs).
Proof.
  intros H. revert m. induction H as [|e p entries pairs He _ IH]; intros m; [done|].
  cbn [foldR foldl]. rewrite (add_entry_holds _ _ _ He). cbn [mbind result_bind].
  apply IH.
Qed.

Lemma foldl_insert (m : gmap Py.str Py.str) (pairs : list (Py.str * Py.str)) :
  foldl (λ m p, <[p.1 := p.2]> m) m pairs = list_to_map (reverse pairs) ∪ m.
Proof.
  revert m. induction pairs as [|[k v] pairs IH]; intros m; simpl.
  - by rewrite (left_id_L ∅ (∪)).
  - rewrite IH, reverse_cons, list_to_map_app. simpl.
    rewrite <- (assoc_L (∪)). f_equal.
    by rewrite <- insert_union_l, (left_id_L ∅ (∪)).
Qed.

Lemma clean_text_line_CR pairs :
  Forall (λ p, clean p.1 ∧ clean p.2) pairs →
  Py.CR ∉ concat (map text_line pairs).
Proof.
  induction 1 as [|p pairs [(_ & _ & _ & Hc) (_ & _ & _ & Hn)] _ IH]; simpl.
  - apply not_elem_of_nil.
  - rewrite not_elem_of_app. split; [|exact IH].
    unfold text_line. rewrite !not_elem_of_app, !not_elem_of_cons.
    split_and!; try done. apply not_elem_of_nil.
Qed.

(** A line written from an entry of the dictionary leaves the dictionary
    as it is. *)
Lemma txt2json_line_same (data : gmap Py.str Py.str) p :
  clean p.1 → clean p.2 → data !! p.1 = Some p.2 →
  txt2json_line data (text_line p) = Ok data.
Proof.
  destruct p as [c n]. simpl. intros (Hc & Hct & _) (Hn & Hnt & _) Hdata.
  destruct (decide (Py.strip (text_line (c, n)) = [])) as [Hblank|Hblank].
  - unfold txt2json_line. by rewrite Hblank.
  - unfold text_line in *. simpl in *. rewrite <- app_assoc in *. simpl in *.
    rewrite txt2json_line_one_tab; [|done..|].
    + rewrite Hc, strip_line_feed by done.
      rewrite bool_decide_eq_true_2 by (by rewrite Hdata).
      by rewrite insert_id.
    + rewrite not_elem_of_app, not_elem_of_cons. split; [done|].
      split; [done|apply not_elem_of_nil].
Qed.

Lemma txt2json_lines_same (data : gmap Py.str Py.str) pairs :
  Forall (λ p, clean p.1 ∧ clean p.2) pairs →
  Forall (λ p, data !! p.1 = Some p.2) pairs →
  foldR txt2json_line data (map text_line pairs) = Ok data.
Proof.
  induction 1 as [|p pairs [Hc Hn] _ IH]; intros Hdata; [done|].
  apply Forall_cons in Hdata as [Hp Hdata]. cbn [map foldR].
  rewrite txt2json_line_same by done. cbn [mbind result_bind]. by apply IH.
Qed.

Lemma readlines_text_lines p w pairs :
  FS.stat (cwd w) p = Some (File (Text (concat (map text_line pairs)))) →
  Forall (λ p, clean p.1 ∧ clean p.2) pairs →
  io.readlines p w = (w, Ok (map text_line pairs)).
Proof.
  intros Hstat Hclean. unfold io.readlines. rewrite Hstat.
  rewrite universal_newlines_id by (by apply clean_text_line_CR).
  replace (map text_line pairs)
    with (map (λ b, b ++ [Py.LF]) (map (λ p, p.1 ++ Py.TAB :: p.2) pairs))
    by (by rewrite map_map).
  rewrite lines_concat; [done|].
  apply Forall_fmap. eapply Forall_impl; [exact Hclean|].
  intros [c n] [(_ & _ & Hc & _) (_ & _ & Hn & _)]. simpl in *.
  rewrite not_elem_of_app, not_elem_of_cons. done.
Qed.

(** Sorting a list of dicts returns it when it has fewer than two
    elements and raises otherwise. *)
Lemma sort_dicts_cases l :
  ((length l ≤ 1)%nat ∧ sort_dicts l = Ok l)
  ∨ ((2 ≤ length l)%nat ∧ sort_dicts l = Raise TypeError).
Proof. destruct l as [|x [|y l]]; simpl; [left|left|right]; split; (done || lia). Qed.

(** [txt2json] after its dictionary is built. *)
Lemma txt2json_after_data path_json path_text w data :
  txt2json_data path_json path_text w = (w, Ok data) →
  txt2json path_json path_text w
  = match sort_dicts (map (λ kv, trait_entry kv.1 kv.2) (map_to_list data)) with
    | Ok l => io.dump_json path_json l w
    | Raise e => (w, Raise e)
    end.
Proof.
  intros Hdata. unfold txt2json. rewrite (bind_IO_Ok _ _ _ _ _ Hdata). cbv zeta.
  by rewrite bind_lift.
Qed.

Lemma holds_trait_entries (l : list (Py.str * Py.str)) :
  Forall2 holds (map (λ p, trait_entry p.1 p.2) l) l.
Proof. apply Forall2_fmap_l, Forall_Forall2_diag, Forall_forall. by intros [c n] _. Qed.

(** C6, as the code has it: for a traits file whose codes are unique and
    whose codes and names are text that UTF-8 can hold, with no tab and no
    line break and no white space at either end, [json2txt] returns and
    leaves the JSON file as it is, and [txt2json] on the text written
    rebuilds the dictionary of the file: every code with its name, and
    nothing else. Whatever [txt2json] then does, the JSON file holds the same
    code/name pairs as before; when it returns, they are held by
    [{code, name}] objects. With at most one entry it returns. The order of
    the array written is not stated. *)
Theorem json2txt_txt2json_roundtrip
    (path_json path_text : filepath) (w : world)
    (entries : list odict) (pairs : list (Py.str * Py.str)) :
  path_json ≠ path_text →
  io.load_json path_json w = (w, Ok entries) →
  Forall2 holds entries pairs →
  NoDup pairs.*1 →
  Forall (λ p, clean p.1 ∧ clean p.2) pairs →
  Forall (λ p, encodable p.1 ∧ encodable p.2) pairs →
  can_open_w w path_text →
  ∃ w1 data,
    json2txt path_json path_text w = (w1, Ok ())
    ∧ FS.stat (cwd w1) path_json = Some (File (Json entries))
    ∧ txt2json_data path_json path_text w1 = (w1, Ok data)
    ∧ (∀ c n, data !! c = Some n ↔ (c, n) ∈ pairs)
    ∧ (∀ w2 r, txt2json path_json path_text w1 = (w2, r) →
         ∃ after out,
           FS.stat (cwd w2) path_json = Some (File (Json after))
           ∧ Forall2 holds after out ∧ out ≡ₚ pairs
           ∧ (r = Ok () → after = map (λ p, trait_entry p.1 p.2) out))
    ∧ ((length entries ≤ 1)%nat → ∃ w2, txt2json path_json path_text w1 = (w2, Ok ())).
Proof.
  intros Hne Hload Hpairs Hnodup Hclean _ Hopen.
  destruct (json2txt_Ok _ _ _ _ _ Hload Hpairs Hopen) as (n1 & Hj & Htext & Hframe).
  apply load_json_Ok in Hload as [_ Hjson].
  assert (Hjson1 : FS.stat n1 path_json = Some (File (Json entries))).
  { apply same_kind_file. rewrite <- Hjson. by apply Hframe. }
  set (w1 := World n1 (written w ++ [path_text])) in *.
  set (data := list_to_map (reverse pairs) : gmap Py.str Py.str).
  assert (Hnodup' : NoDup (reverse pairs).*1) by (by rewrite fmap_reverse, reverse_Permutation).
  assert (Hdata : foldR add_entry ∅ entries = Ok data).
  { rewrite (add_entries_Ok _ _ _ Hpairs), foldl_insert. by rewrite (right_id_L ∅ (∪)). }
  assert (Hlookup : ∀ c n, data !! c = Some n ↔ (c, n) ∈ pairs).
  { intros c n. unfold data. rewrite <- elem_of_list_to_map by done.
    apply elem_of_reverse. }
  assert (Hread : txt2json_data path_json path_text w1 = (w1, Ok data)).
  { unfold txt2json_data.
    assert (Hload1 : io.load_json path_json w1 = (w1, Ok entries)) by (by apply load_json_Ok).
    rewrite (bind_IO_Ok _ _ _ _ _ Hload1), bind_lift, Hdata.
    rewrite (bind_IO_Ok _ _ _ _ _ (readlines_text_lines _ w1 _ Htext Hclean)).
    rewrite txt2json_lines_same; [done..|].
    apply Forall_forall. intros [c n] Hp. by apply Hlookup. }
  set (te := λ p : Py.str * Py.str, trait_entry p.1 p.2).
  assert (Hperm : map_to_list data ≡ₚ pairs).
  { unfold data. rewrite map_to_list_to_map by done. apply reverse_Permutation. }
  pose proof (txt2json_after_data _ _ _ _ Hread) as Hrun. fold te in Hrun.
  exists w1, data. split_and!; [done..| |].
  - intros w2 r. rewrite Hrun.
    destruct (sort_dicts_cases (map te (map_to_list data))) as [[_ ->]|[_ ->]].
    + destruct (dump_json_existing path_json (map te (map_to_list data)) _ w1 Hjson1)
        as (n2 & -> & _ & Hn2).
      intros [= <- <-]. exists (map te (map_to_list data)), (map_to_list data).
      split_and!; [done|apply holds_trait_entries|done|done].
    + intros [= <- <-]. exists entries, pairs. by split_and!.
  - intros Hlen. rewrite Hrun.
    destruct (sort_dicts_cases (map te (map_to_list data))) as [[_ ->]|[Hlen' _]].
    + destruct (dump_json_existing path_json (map te (map_to_list data)) _ w1 Hjson1)
        as (n2 & -> & _). eauto.
    + rewrite length_map, (Permutation_length Hperm) in Hlen'.
      rewrite (Forall2_length _ _ _ Hpairs) in Hlen. lia.
Qed.

(** A name with a space in front comes back without it. *)
Lemma json2txt_txt2json_strips_names :
  ¬ roundtrip_keeps_entries [u "traits.json"] [u "traits.txt"] Sample.padded.
Proof.
  intros Hclaim.
  set (r1 := json2txt [u "traits.json"] [u "traits.txt"] Sample.padded).
  set (r2 := txt2json [u "traits.json"] [u "traits.txt"] r1.1).
  specialize (Hclaim r1.1 r2.1 [trait_entry (u "A") (u " x")] [trait_entry (u "A") (u "x")]).
  apply Permutation_singleton_r in Hclaim; [done|by vm_compute..].
Qed.

Lemma json2txt_txt2json_roundtrip_witness :
  ∃ w1 data,
    json2txt [u "traits.json"] [u "traits.txt"] Sample.unsorted = (w1, Ok ())
    ∧ txt2json_data [u "traits.json"] [u "traits.txt"] w1 = (w1, Ok data)
    ∧ data !! u "Weapon" = Some (u "Arme")
    ∧ data !! u "Item" = Some (u "Objet").
Proof.
  destruct (json2txt_txt2json_roundtrip [u "traits.json"] [u "traits.txt"] Sample.unsorted
              [trait_entry (u "Weapon") (u "Arme"); trait_entry (u "Item") (u "Objet")]
              [(u "Weapon", u "Arme"); (u "Item", u "Objet")])
    as (w1 & data & Hj & _ & Hdata & Hlookup & _).
  - done.
  - reflexivity.
  - repeat constructor.
  - by apply (bool_decide_eq_true_1 _).
  - by apply (bool_decide_eq_true_1 _).
  - by apply (bool_decide_eq_true_1 _).
  - split; [done|by eexists].
  - exists w1, data. split_and!; [done..| |]; apply Hlookup.
    + apply elem_of_cons. by left.
    + apply elem_of_cons. right. apply elem_of_cons. by left.
Defined.

(** * Further properties of the script *)

(** ** The codec on arbitrary strings *)

Lemma lstrip_idem s : Py.lstrip (Py.lstrip s) = Py.lstrip s.
Proof.
  induction s as [|c s IH]; [done|]. simpl.
  destruct (Py.isspace c) eqn:Hc; [done|]. simpl. by rewrite Hc.
Qed.

Lemma lstrip_snoc_nonspace s c :
  Py.isspace c = false → Py.lstrip (s ++ [c]) = Py.lstrip s ++ [c].
Proof.
  intros Hc. induction s as [|a s IH]; simpl; [by rewrite Hc|].
  by destruct (Py.isspace a).
Qed.

Lemma rstrip_cons_nonspace c s :
  Py.isspace c = false → Py.rstrip (c :: s) = c :: Py.rstrip s.
Proof.
  intros Hc. unfold Py.rstrip.
  by rewrite reverse_cons, lstrip_snoc_nonspace, reverse_snoc.
Qed.

Lemma rstrip_idem s : Py.rstrip (Py.rstrip s) = Py.rstrip s.
Proof. unfold Py.rstrip. by rewrite reverse_involutive, lstrip_idem. Qed.

Lemma lstrip_rstrip_lstrip s :
  Py.lstrip (Py.rstrip (Py.lstrip s)) = Py.rstrip (Py.lstrip s).
Proof.
  induction s as [|c s IH]; [done|]. simpl.
  destruct (Py.isspace c) eqn:Hc; [done|].
  rewrite rstrip_cons_nonspace by done. simpl. by rewrite Hc.
Qed.

Lemma strip_idem s : Py.strip (Py.strip s) = Py.strip s.
Proof. unfold Py.strip. by rewrite lstrip_rstrip_lstrip, rstrip_idem. Qed.

Lemma elem_of_lstrip x s : x ∈ Py.lstrip s → x ∈ s.
Proof.
  induction s as [|c s IH]; [done|]. simpl.
  destruct (Py.isspace c); [|done]. intros Hx. right. by apply IH.
Qed.

Lemma elem_of_strip x s : x ∈ Py.strip s → x ∈ s.
Proof.
  unfold Py.strip, Py.rstrip. rewrite elem_of_reverse.
  intros Hx%elem_of_lstrip. rewrite elem_of_reverse in Hx. by apply elem_of_lstrip.
Qed.

Lemma split_pieces_no_sep sep s : Forall (λ p, sep ∉ p) (Py.split sep s).
Proof.
  induction s as [|c s IH]; simpl.
  - repeat constructor. apply not_elem_of_nil.
  - destruct (N.eqb_spec c sep) as [->|Hne].
    + constructor; [apply not_elem_of_nil|done].
    + destruct (Py.split sep s) as [|p ps]; [repeat constructor|].
      * rewrite not_elem_of_cons. split; [done|apply not_elem_of_nil].
      * apply Forall_cons in IH as [Hp Hps]. constructor; [|done].
        rewrite not_elem_of_cons. split; [done|done].
Qed.

(** Pieces of a string around a separator: those before it, then those
    after it. *)
Lemma split_app sep s t :
  Py.split sep (s ++ sep :: t) = Py.split sep s ++ Py.split sep t.
Proof.
  induction s as [|c s IH]; simpl.
  - by rewrite N.eqb_refl.
  - destruct (c =? sep); [by rewrite IH|]. rewrite IH.
    destruct (Py.split sep s) as [|p ps] eqn:Hs; [by apply split_nonempty in Hs|done].
Qed.

Lemma split_traits_trait_names (s : Py.str) : Forall trait_name (_split_traits s).
Proof.
  unfold _split_traits. apply Forall_fmap, Forall_forall.
  intros x [Hx Hin]%list_elem_of_filter. cbv beta.
  split_and!.
  - by destruct (Py.strip x).
  - apply strip_idem.
  - intros Hdot%elem_of_strip.
    pose proof (split_pieces_no_sep Py.DOT s) as Hall.
    rewrite Forall_forall in Hall. by apply (Hall x).
Qed.

(** X1: whatever the string, [_split_traits] yields trait names: none is
    empty, none has white space at either end, none holds a dot. *)
Theorem split_traits_names (s : Py.str) :
  Forall (λ x, x ≠ [] ∧ Py.strip x = x ∧ Py.DOT ∉ x) (_split_traits s).
Proof. apply split_traits_trait_names. Qed.

(** X2: splitting, merging and splitting again gives the first list, and
    merging the split of any string, however malformed, yields a string
    that the codec keeps as it is. *)
Theorem split_merge_split (s : Py.str) :
  _split_traits (_merge_traits (_split_traits s)) = _split_traits s
  ∧ _merge_traits (_split_traits (_merge_traits (_split_traits s)))
    = _merge_traits (_split_traits s).
Proof.
  assert (H : _split_traits (_merge_traits (_split_traits s)) = _split_traits s)
    by apply split_merge_traits, split_traits_trait_names.
  by rewrite H.
Qed.

(** X3: the traits of a string with a dot in the middle are those before
    the dot followed by those after it: order and repetitions are kept. *)
Theorem split_traits_app (s t : Py.str) :
  _split_traits (s ++ Py.DOT :: t) = _split_traits s ++ _split_traits t.
Proof. unfold _split_traits. by rewrite split_app, filter_app, fmap_app. Qed.

(** ** The loop body of [update_traits], all cases *)

Lemma traits_ne_code : u "traits" ≠ u "code".
Proof. by apply (bool_decide_eq_true_1 _). Qed.

Lemma getitem_None d k :
  OrderedDict.get d k = None → OrderedDict.getitem d k = Raise (KeyError k).
Proof. unfold OrderedDict.getitem. by intros ->. Qed.

(** What a card that is recomputed went through. *)
Lemma update_item_Some_inv tm no data_en code_en item item' :
  update_item tm no data_en code_en item = Ok (Some item') →
  ∃ t c i item_en t_en names,
    OrderedDict.get item (u "traits") = Some t
    ∧ OrderedDict.get item (u "code") = Some c
    ∧ index c code_en = Some i
    ∧ data_en !! i = Some item_en
    ∧ OrderedDict.get item_en (u "traits") = Some t_en
    ∧ (no = true → t = t_en)
    ∧ mapR (Dict.getitem tm) (_split_traits t_en) = Ok names
    ∧ item' = OrderedDict.setitem item (u "traits") (_merge_traits names).
Proof.
  unfold update_item, OrderedDict.contains.
  destruct (OrderedDict.get item (u "traits")) as [t|] eqn:Ht;
    [rewrite bool_decide_eq_true_2 by eauto
    |rewrite bool_decide_eq_false_2 by (by intros [? ?])]; cbn [negb]; [|done].
  destruct (OrderedDict.get item (u "code")) as [c|] eqn:Hc;
    [rewrite (getitem_get _ _ _ Hc)|rewrite (getitem_None _ _ Hc)];
    cbn [mbind result_bind]; [|done].
  destruct (index c code_en) as [i|] eqn:Hi; [|done].
  destruct (data_en !! i) as [item_en|] eqn:Hen; [|done].
  rewrite (getitem_get _ _ _ Ht).
  destruct (OrderedDict.get item_en (u "traits")) as [t_en|] eqn:Hten.
  - rewrite (getitem_get _ _ _ Hten). intros Hrun.
    assert (Hguard : no = true → t = t_en).
    { intros ->. cbn [mbind result_bind] in Hrun.
      destruct (decide (t = t_en)) as [|Hne]; [done|].
      rewrite (bool_decide_eq_true_2 _ Hne) in Hrun. done. }
    assert (Hrest : mapR (Dict.getitem tm) (_split_traits t_en)
                    ≫= (λ traits, Ok (Some (OrderedDict.setitem item (u "traits")
                                               (_merge_traits traits))))
                    = Ok (Some item')).
    { destruct no; cbn [mbind result_bind] in Hrun; [|done].
      rewrite bool_decide_eq_false_2 in Hrun by (intros Hne; by apply Hne, Hguard).
      done. }
    destruct (mapR (Dict.getitem tm) (_split_traits t_en)) as [names|] eqn:Hnames;
      [|done].
    injection Hrest as <-. by exists t, c, i, item_en, t_en, names.
  - rewrite (getitem_None _ _ Hten). by destruct no.
Qed.

Lemma setitem_keys d k v v0 :
  OrderedDict.get d k = Some v0 → (OrderedDict.setitem d k v).*1 = d.*1.
Proof.
  induction d as [|[k' v'] d IH]; simpl; [done|].
  destruct (bool_decide (k' = k)) eqn:Hk.
  - apply bool_decide_eq_true_1 in Hk as ->. done.
  - intros Hd. simpl. f_equal. by apply IH.
Qed.

(** X4: with overwriting enabled, a card that has traits and whose code is
    an English record's is recomputed whatever its traits string holds. *)
Theorem update_item_overwrite
    (tm : gmap Py.str Py.str) (data_en : list odict) (code_en : list Py.str)
    (item item_en : odict) (t c t_en : Py.str) (i : nat) :
  OrderedDict.get item (u "traits") = Some t →
  OrderedDict.get item (u "code") = Some c →
  index c code_en = Some i →
  data_en !! i = Some item_en →
  OrderedDict.get item_en (u "traits") = Some t_en →
  update_item tm false data_en code_en item =
    (names ← mapR (Dict.getitem tm) (_split_traits t_en);
     Ok (Some (OrderedDict.setitem item (u "traits") (_merge_traits names)))).
Proof.
  intros Ht Hc Hi Hen Hten.
  by rewrite (update_item_matched _ _ _ _ _ _ _ _ _ _ Ht Hc Hi Hen Hten).
Qed.

Lemma update_item_overwrite_witness :
  update_item {[ u "Item" := u "Objet" ]} false
    [Sample.card "01001" "Item."] [u "01001"] (Sample.card "01001" "Main.")
  = Ok (Some (Sample.card "01001" "Objet.")).
Proof.
  exact (update_item_overwrite {[ u "Item" := u "Objet" ]}
           [Sample.card "01001" "Item."] [u "01001"]
           (Sample.card "01001" "Main.") (Sample.card "01001" "Item.")
           (u "Main.") (u "01001") (u "Item.") 0 eq_refl eq_refl eq_refl eq_refl eq_refl).
Defined.

(** X5: the key errors of the loop body. A card with traits but without a
    code raises [KeyError('code')], while a card without traits is skipped
    before its code is read; a card with traits whose English record has no
    traits raises [KeyError('traits')], with or without overwriting. *)
Theorem update_item_key_errors
    (tm : gmap Py.str Py.str) (no : bool) (data_en : list odict)
    (code_en : list Py.str) (item : odict) :
  (OrderedDict.get item (u "traits") = None →
   update_item tm no data_en code_en item = Ok None)
  ∧ (is_Some (OrderedDict.get item (u "traits")) →
     OrderedDict.get item (u "code") = None →
     update_item tm no data_en code_en item = Raise (KeyError (u "code")))
  ∧ (∀ c i item_en,
       is_Some (OrderedDict.get item (u "traits")) →
       OrderedDict.get item (u "code") = Some c →
       index c code_en = Some i →
       data_en !! i = Some item_en →
       OrderedDict.get item_en (u "traits") = None →
       update_item tm no data_en code_en item = Raise (KeyError (u "traits"))).
Proof.
  unfold update_item, OrderedDict.contains. split_and!.
  - intros Ht. rewrite Ht. by rewrite bool_decide_eq_false_2 by (by intros [? ?]).
  - intros Ht Hc. rewrite bool_decide_eq_true_2 by done. cbn [negb].
    by rewrite (getitem_None _ _ Hc).
  - intros c i item_en [t Ht] Hc Hi Hen Hten.
    rewrite bool_decide_eq_true_2 by eauto. cbn [negb].
    rewrite (getitem_get _ _ _ Hc). cbn [mbind result_bind]. rewrite Hi, Hen.
    rewrite (getitem_get _ _ _ Ht), (getitem_None _ _ Hten).
    by destruct no.
Qed.

Lemma update_item_key_errors_witness :
  update_item ∅ true [[(u "code", u "01001")]] [u "01001"] (Sample.card "01001" "Item.")
  = Raise (KeyError (u "traits"))
  ∧ update_item ∅ true [] [] [(u "traits", u "Item.")] = Raise (KeyError (u "code"))
  ∧ update_item ∅ true [] [] [] = Ok None.
Proof.
  split_and!.
  - exact (proj2 (proj2 (update_item_key_errors ∅ true [[(u "code", u "01001")]]
             [u "01001"] (Sample.card "01001" "Item."))) (u "01001") 0%nat
             [(u "code", u "01001")] (ex_intro _ (u "Item.") eq_refl)
             eq_refl eq_refl eq_refl eq_refl).
  - exact (proj1 (proj2 (update_item_key_errors ∅ true [] [] [(u "traits", u "Item.")]))
             (ex_intro _ (u "Item.") eq_refl) eq_refl).
  - exact (proj1 (update_item_key_errors ∅ true [] [] []) eq_refl).
Defined.

(** A card that went through the loop body is left alone by it. *)
Lemma card_step_again tm no data_en code_en item item' :
  card_step tm no data_en code_en item item' →
  update_item tm no data_en code_en item' = Ok None
  ∨ update_item tm no data_en code_en item' = Ok (Some item').
Proof.
  intros [[Hnone ->]|Hsome]; [by left|].
  destruct (update_item_Some_inv _ _ _ _ _ _ Hsome)
    as (t & c & i & item_en & t_en & names & Ht & Hc & Hi & Hen & Hten & _ & Hnames & ->).
  set (v := _merge_traits names).
  assert (Ht' : OrderedDict.get (OrderedDict.setitem item (u "traits") v) (u "traits") = Some v)
    by apply get_setitem_eq.
  assert (Hc' : OrderedDict.get (OrderedDict.setitem item (u "traits") v) (u "code") = Some c)
    by (rewrite get_setitem_ne; [done|apply traits_ne_code]).
  rewrite (update_item_matched _ _ _ _ _ _ _ _ _ _ Ht' Hc' Hi Hen Hten).
  destruct (no && bool_decide (v ≠ t_en)); [by left|right].
  rewrite Hnames. cbn [mbind result_bind]. fold v.
  by rewrite (setitem_same _ _ _ Ht').
Qed.

Lemma update_items_fixed tm no data_en code_en changed data :
  Forall (λ x, update_item tm no data_en code_en x = Ok None
               ∨ update_item tm no data_en code_en x = Ok (Some x)) data →
  ∃ changed', update_items tm no data_en code_en changed data = Ok (data, changed').
Proof.
  intros Hall. revert changed.
  induction Hall as [|x data Hx _ IH]; intros changed; cbn [update_items]; [eauto|].
  destruct Hx as [-> | ->]; cbn [mbind result_bind].
  - destruct (IH changed) as [ch ->]. cbn [mbind result_bind]. eauto.
  - destruct (IH true) as [ch ->]. cbn [mbind result_bind]. eauto.
Qed.

(** X6: the loop over the cards is idempotent: run again on the cards it
    has left, with the same English pack and dictionary, it returns and
    leaves every card as it is. *)
Theorem update_items_idempotent
    (tm : gmap Py.str Py.str) (no : bool) (data_en : list odict)
    (code_en : list Py.str) (changed changed' again : bool) (data out : list odict) :
  update_items tm no data_en code_en changed data = Ok (out, changed') →
  ∃ changed'', update_items tm no data_en code_en again out = Ok (out, changed'').
Proof.
  intros [Hall _]%update_items_Ok. apply update_items_fixed.
  apply Forall_forall. intros item' Hin.
  apply list_elem_of_lookup in Hin as [j Hj].
  destruct (Forall2_lookup_r _ _ _ _ _ Hall Hj) as (item & _ & Hstep).
  by eapply card_step_again.
Qed.

Lemma update_items_idempotent_witness :
  ∃ changed'',
    update_items {[ u "Item" := u "Objet" ]} true [Sample.card "01001" "Item."]
      [u "01001"] false [Sample.card "01001" "Objet."]
    = Ok ([Sample.card "01001" "Objet."], changed'').
Proof.
  exact (update_items_idempotent {[ u "Item" := u "Objet" ]} true
           [Sample.card "01001" "Item."] [u "01001"] false true false
           [Sample.card "01001" "Item."] [Sample.card "01001" "Objet."] eq_refl).
Defined.

(** X7: the loop over the cards changes nothing but traits strings: it
    keeps the number of cards, the keys of every card in their order, and
    the value of every key other than [traits]. *)
Theorem update_items_only_traits
    (tm : gmap Py.str Py.str) (no : bool) (data_en : list odict)
    (code_en : list Py.str) (changed changed' : bool) (data out : list odict) :
  update_items tm no data_en code_en changed data = Ok (out, changed') →
  length out = length data
  ∧ Forall2 (λ item item',
       item'.*1 = item.*1
       ∧ ∀ k, k ≠ u "traits" → OrderedDict.get item' k = OrderedDict.get item k)
     data out.
Proof.
  intros [Hall _]%update_items_Ok. split; [by rewrite (Forall2_length _ _ _ Hall)|].
  eapply Forall2_impl; [exact Hall|]. intros item item' [[_ ->]|Hsome]; [done|].
  destruct (update_item_Some_inv _ _ _ _ _ _ Hsome)
    as (t & c & i & item_en & t_en & names & Ht & _ & _ & _ & _ & _ & _ & ->).
  split; [by eapply setitem_keys|]. intros k Hk. by apply get_setitem_ne.
Qed.

Lemma update_items_only_traits_witness :
  length [Sample.card "01001" "Objet."] = length [Sample.card "01001" "Item."]
  ∧ Forall2 (λ item item',
       item'.*1 = item.*1
       ∧ ∀ k, k ≠ u "traits" → OrderedDict.get item' k = OrderedDict.get item k)
     [Sample.card "01001" "Item."] [Sample.card "01001" "Objet."].
Proof.
  exact (update_items_only_traits {[ u "Item" := u "Objet" ]} true
           [Sample.card "01001" "Item."] [u "01001"] false true
           [Sample.card "01001" "Item."] [Sample.card "01001" "Objet."] eq_refl).
Defined.

(** ** Reading and writing *)

Lemma readonly_eq {A} (m : IO A) w : readonly m → m w = (w, (m w).2).
Proof. intros Hm. specialize (Hm w). by destruct (m w) as [w' r]; simplify_eq/=. Qed.

Lemma readonly_ret {A} (a : A) : readonly (mret a).
Proof. by intros w. Qed.

Lemma readonly_raise {A} e : readonly (@raise A e).
Proof. by intros w. Qed.

Lemma readonly_lift {A} (r : result A) : readonly (lift r).
Proof. by intros w. Qed.

Lemma readonly_bind {A B} (m : IO A) (f : A → IO B) :
  readonly m → (∀ a, readonly (f a)) → readonly (m ≫= f).
Proof.
  intros Hm Hf w. rewrite bind_IO, (readonly_eq m w Hm).
  destruct (m w).2; [apply Hf|done].
Qed.

Lemma readonly_isfile p : readonly (os.isfile p).
Proof. by intros w. Qed.

Lemma readonly_isdir p : readonly (os.isdir p).
Proof. by intros w. Qed.

Lemma readonly_listdir p : readonly (os.listdir p).
Proof. intros w. unfold os.listdir. by repeat case_match. Qed.

Lemma readonly_load_json p : readonly (io.load_json p).
Proof. intros w. apply load_json_world. Qed.

Lemma readonly_readlines p : readonly (io.readlines p).
Proof. intros w. unfold io.readlines. by repeat case_match. Qed.

Lemma readonly_foldIO {A S} (f : S → A → IO S) s l :
  (∀ s x, readonly (f s x)) → readonly (foldIO f s l).
Proof.
  intros Hf. revert s. induction l as [|x l IH]; intros s; simpl; [apply readonly_ret|].
  by apply readonly_bind.
Qed.

Lemma readonly_filterIO {A} (f : A → IO bool) l :
  (∀ x, readonly (f x)) → readonly (filterIO f l).
Proof.
  intros Hf. induction l as [|x l IH]; simpl; [apply readonly_ret|].
  apply readonly_bind; [done|]. intros b.
  apply readonly_bind; [done|]. intros r. apply readonly_ret.
Qed.

Lemma readonly_get_json_files_cycle path acc cycle :
  readonly (get_json_files_cycle path acc cycle).
Proof.
  unfold get_json_files_cycle. apply readonly_bind; [apply readonly_isfile|].
  intros f. destruct (f && is_json_name cycle); [apply readonly_ret|].
  apply readonly_bind; [apply readonly_listdir|]. intros. apply readonly_ret.
Qed.

Lemma readonly_get_json_files path cycles : readonly (get_json_files path cycles).
Proof.
  unfold get_json_files. apply readonly_bind; [apply readonly_isdir|].
  intros []; cbn [negb]; [|apply readonly_raise].
  apply readonly_bind.
  - destruct cycles as [[|]|]; first [apply readonly_listdir|apply readonly_ret].
  - intros cs. apply readonly_foldIO. intros. apply readonly_get_json_files_cycle.
Qed.

Lemma writes_readonly {A} p (m : IO A) : readonly m → writes_at_most p m.
Proof. intros Hm w w' r Hrun. left. specialize (Hm w). by rewrite Hrun in Hm. Qed.

Lemma writes_bind {A B} p (m : IO A) (f : A → IO B) :
  readonly m → (∀ a, writes_at_most p (f a)) → writes_at_most p (m ≫= f).
Proof.
  intros Hm Hf w w' r. rewrite bind_IO, (readonly_eq m w Hm).
  destruct (m w).2; [apply Hf|]. intros [= <- _]. by left.
Qed.

Lemma writes_dump_json p data : writes_at_most p (io.dump_json p data).
Proof.
  intros w w' r. unfold io.dump_json, io.write.
  destruct p as [|x p]; [intros [= <- _]; by left|].
  destruct (FS.store (cwd w) (x :: p) (Json data)) as [n'|] eqn:Hn'.
  - intros [= <- <-]. right. eauto 10.
  - intros [= <- _]. by left.
Qed.

(** What writing at most one file means for the rest of the tree. *)
Lemma writes_at_most_frame {A} p (m : IO A) w w' r :
  writes_at_most p m → m w = (w', r) →
  (∀ q, q ≠ p → same_kind (FS.stat (cwd w') q) (FS.stat (cwd w) q))
  ∧ (written w' = written w ∨ written w' = written w ++ [p]).
Proof.
  intros Hm Hrun. destruct (Hm _ _ _ Hrun) as [->|(c & n' & Hn' & -> & a & ->)].
  - split; [|by left]. intros. apply same_kind_refl.
  - split; [|by right]. intros q Hq. by eapply store_stat_ne.
Qed.

Lemma writes_update_file tm code no file :
  writes_at_most ([TRANSLATION_PATH; code; PACK_PATH] ++ file) (update_file tm code no file).
Proof.
  unfold update_file.
  apply writes_bind; [apply readonly_load_json|]. intros data_en.
  apply writes_bind; [apply readonly_load_json|]. intros data_trans.
  apply writes_bind; [apply readonly_lift|]. intros code_en.
  apply writes_bind; [apply readonly_lift|]. intros [out []].
  - apply writes_dump_json.
  - apply writes_readonly, readonly_ret.
Qed.

Lemma writes_make_placeholder : writes_at_most [TRAITS_FILENAME] make_placeholder.
Proof.
  unfold make_placeholder.
  apply writes_bind; [apply readonly_get_json_files|]. intros files.
  apply writes_bind; [|intros; apply writes_dump_json].
  apply readonly_foldIO. intros S f.
  apply readonly_bind; [apply readonly_load_json|]. intros. apply readonly_lift.
Qed.

Lemma writes_update_placeholder code :
  writes_at_most [TRANSLATION_PATH; code; TRAITS_FILENAME] (update_placeholder code).
Proof.
  unfold update_placeholder.
  apply writes_bind; [apply readonly_isfile|].
  intros []; cbn [negb]; [|apply writes_readonly, readonly_raise].
  apply writes_bind; [apply readonly_isdir|].
  intros []; cbn [negb]; [|apply writes_readonly, readonly_raise].
  apply writes_bind; [apply readonly_isfile|]. intros f.
  apply writes_bind.
  { destruct f; [|apply readonly_ret].
    apply readonly_bind; [apply readonly_load_json|]. intros. apply readonly_ret. }
  intros trans_data. cbv zeta.
  apply writes_bind; [apply readonly_lift|]. intros trans_codes.
  apply writes_bind; [apply readonly_load_json|]. intros data.
  apply writes_bind; [apply readonly_lift|]. intros td.
  apply writes_bind; [apply readonly_lift|]. intros sorted.
  apply writes_dump_json.
Qed.

Lemma readonly_txt2json_data path_json path_text :
  readonly (txt2json_data path_json path_text).
Proof.
  unfold txt2json_data.
  apply readonly_bind; [apply readonly_load_json|]. intros temp.
  apply readonly_bind; [apply readonly_lift|]. intros data.
  apply readonly_bind; [apply readonly_readlines|]. intros fp.
  apply readonly_lift.
Qed.

Lemma writes_txt2json path_json path_text :
  writes_at_most path_json (txt2json path_json path_text).
Proof.
  unfold txt2json.
  apply writes_bind; [apply readonly_txt2json_data|]. intros data. cbv zeta.
  apply writes_bind; [apply readonly_lift|]. intros data'.
  apply writes_dump_json.
Qed.




(** X9: [update_placeholder] changes nothing but the traits file of the
    language: every other path, the master list among them, keeps what it
    names, whether the run returns or raises, and the file is opened for
    writing at most once. Without a master traits file, and else without the
    directory of the language, the run raises its own [IOError] with the
    world as it was. *)
Theorem update_placeholder_frame (code : Py.str) (w w' : world) (r : result ()) :
  update_placeholder code w = (w', r) →
  (∀ q, q ≠ [TRANSLATION_PATH; code; TRAITS_FILENAME] →
       same_kind (FS.stat (cwd w') q) (FS.stat (cwd w) q))
  ∧ (written w' = written w
     ∨ written w' = written w ++ [[TRANSLATION_PATH; code; TRAITS_FILENAME]])
  ∧ ((∀ c, FS.stat (cwd w) [TRAITS_FILENAME] ≠ Some (File c)) →
     w' = w ∧ r = Raise (IOError traits_not_found))
  ∧ (∀ c, FS.stat (cwd w) [TRAITS_FILENAME] = Some (File c) →
     (∀ es, FS.stat (cwd w) [TRANSLATION_PATH; code] ≠ Some (Dir es)) →
     w' = w ∧ r = Raise (IOError (language_not_found code))).
Proof.
  intros Hrun.
  destruct (writes_at_most_frame _ _ _ _ _ (writes_update_placeholder code) Hrun)
    as [Hframe Hlog].
  split_and!; [done..| |].
  - intros Hno. unfold update_placeholder in Hrun. rewrite bind_IO in Hrun.
    unfold os.isfile at 1 in Hrun.
    destruct (FS.stat (cwd w) [TRAITS_FILENAME]) as [[c|es]|] eqn:Hstat;
      [by destruct (Hno c)|..]; cbn [negb] in Hrun; by injection Hrun as <- <-.
  - intros c Hc Hno. unfold update_placeholder in Hrun. rewrite bind_IO in Hrun.
    unfold os.isfile at 1 in Hrun. rewrite Hc in Hrun. cbn [negb] in Hrun.
    rewrite bind_IO in Hrun. unfold os.isdir at 1 in Hrun.
    destruct (FS.stat (cwd w) [TRANSLATION_PATH; code]) as [[c'|es]|] eqn:Hstat;
      [|by destruct (Hno es)|]; cbn [negb] in Hrun; by injection Hrun as <- <-.
Qed.

Lemma update_placeholder_frame_witness :
  same_kind (FS.stat (cwd (update_placeholder (u "ko") Sample.master).1) [TRAITS_FILENAME])
            (FS.stat (cwd Sample.master) [TRAITS_FILENAME]).
Proof.
  refine (proj1 (update_placeholder_frame (u "ko") Sample.master
                  (update_placeholder (u "ko") Sample.master).1
                  (update_placeholder (u "ko") Sample.master).2 eq_refl) _ _).
  done.
Defined.

(** A line that is not blank and does not hold exactly one tab cannot be
    unpacked. *)
Lemma txt2json_line_bad (data : gmap Py.str Py.str) (line : Py.str) :
  Py.strip line ≠ [] → tabs line ≠ 1%nat → txt2json_line data line = Raise ValueError.
Proof.
  intros Hblank Htabs. unfold txt2json_line.
  destruct (Py.strip line) as [|c0 s0] eqn:Hs; [done|]. cbn [Py.truthy negb].
  pose proof (split_length Py.TAB line) as Hlen. fold (tabs line) in Hlen.
  destruct (Py.split Py.TAB line) as [|a [|b [|c l0]]]; try done.
  simpl in Hlen. lia.
Qed.

Lemma txt2json_lines_bad (data : gmap Py.str Py.str) (lines : list Py.str) line :
  line ∈ lines → Py.strip line ≠ [] → tabs line ≠ 1%nat →
  foldR txt2json_line data lines = Raise ValueError.
Proof.
  intros Hin Hblank Htabs. revert data.
  induction lines as [|l lines IH]; intros data; [by apply elem_of_nil in Hin|].
  cbn [foldR].
  destruct (txt2json_line data l) as [data'|e] eqn:Hl; cbn [mbind result_bind].
  - apply elem_of_cons in Hin as [->|Hin]; [|by apply IH].
    by rewrite txt2json_line_bad in Hl.
  - unfold txt2json_line in Hl. repeat case_match; by simplify_eq.
Qed.

(** X10: [txt2json] changes nothing but the JSON file: every other path,
    the text file among them, keeps what it names, whether the run returns
    or raises, and the JSON file is opened for writing at most once. A text
    with a line that is not blank and does not hold exactly one tab makes
    the run raise [ValueError] before the JSON file is opened, wherever the
    line stands. *)
Theorem txt2json_frame
    (path_json path_text : filepath) (w w' : world) (r : result ()) :
  txt2json path_json path_text w = (w', r) →
  (∀ q, q ≠ path_json → same_kind (FS.stat (cwd w') q) (FS.stat (cwd w) q))
  ∧ (written w' = written w ∨ written w' = written w ++ [path_json])
  ∧ (∀ entries data lines line,
       io.load_json path_json w = (w, Ok entries) →
       foldR add_entry ∅ entries = Ok data →
       io.readlines path_text w = (w, Ok lines) →
       line ∈ lines → Py.strip line ≠ [] → tabs line ≠ 1%nat →
       w' = w ∧ r = Raise ValueError).
Proof.
  intros Hrun.
  destruct (writes_at_most_frame _ _ _ _ _ (writes_txt2json path_json path_text) Hrun)
    as [Hframe Hlog].
  split_and!; [done..|].
  intros entries data lines line Hload Hdata Hlines Hin Hblank Htabs.
  unfold txt2json, txt2json_data in Hrun.
  rewrite !bind_IO, Hload, bind_lift, Hdata, bind_IO, Hlines in Hrun.
  unfold lift in Hrun. rewrite (txt2json_lines_bad _ _ _ Hin Hblank Htabs) in Hrun.
  by injection Hrun as <- <-.
Qed.

Lemma txt2json_frame_witness :
  (txt2json [u "traits.json"] [u "traits.txt"] Sample.two_tabs).1 = Sample.two_tabs
  ∧ (txt2json [u "traits.json"] [u "traits.txt"] Sample.two_tabs).2 = Raise ValueError.
Proof.
  eapply (proj2 (proj2 (txt2json_frame [u "traits.json"] [u "traits.txt"] Sample.two_tabs
                          (txt2json [u "traits.json"] [u "traits.txt"] Sample.two_tabs).1
                          (txt2json [u "traits.json"] [u "traits.txt"] Sample.two_tabs).2
                          eq_refl))
            [trait_entry (u "A") (u "old"); trait_entry (u "B") (u "b")]
            _ _ (u "A" ++ [Py.TAB] ++ u "x" ++ [Py.TAB] ++ u "y" ++ [Py.LF])).
  - reflexivity.
  - reflexivity.
  - reflexivity.
  - apply elem_of_cons. right. apply elem_of_cons. by left.
  - by vm_compute.
  - by vm_compute.
Defined.

(** ** What [update_traits] leaves alone *)

Lemma for_each_update_file_frame tm code no l w w' r q :
  for_each (update_file tm code no) l w = (w', r) →
  (∀ file, file ∈ l → q ≠ [TRANSLATION_PATH; code; PACK_PATH] ++ file) →
  same_kind (FS.stat (cwd w') q) (FS.stat (cwd w) q).
Proof.
  revert w. induction l as [|file l IH]; intros w; simpl.
  - intros [= <- _] _. apply same_kind_refl.
  - rewrite bind_IO. destruct (update_file tm code no file w) as [w1 r1] eqn:Hfile.
    intros Hrun Hq.
    destruct (writes_at_most_frame _ _ _ _ _ (writes_update_file tm code no file) Hfile)
      as [Hframe _].
    assert (Hq1 : same_kind (FS.stat (cwd w1) q) (FS.stat (cwd w) q))
      by (apply Hframe, Hq; by left).
    destruct r1 as [[]|e].
    + eapply same_kind_trans; [|exact Hq1].
      apply IH; [done|]. intros f Hf. apply Hq. by right.
    + by injection Hrun as <- _.
Qed.

(** A run of [update_traits] is its loop over the pack files, unless it
    stops before, with the world untouched. *)
Lemma update_traits_loop code cycles no w w' r :
  update_traits code cycles no w = (w', r) →
  w' = w ∨ ∃ tm jsons, for_each (update_file tm code no) jsons w = (w', r).
Proof.
  unfold update_traits. rewrite bind_IO, (readonly_eq _ w (readonly_load_json _)).
  destruct (io.load_json _ w).2 as [data|]; [|intros [= <- _]; by left].
  rewrite bind_lift. destruct (foldR add_entry ∅ data) as [tm|]; [|intros [= <- _]; by left].
  rewrite bind_IO, (readonly_eq _ w (readonly_get_json_files _ _)).
  destruct (get_json_files _ cycles w).2 as [files|]; [|intros [= <- _]; by left].
  rewrite bind_IO.
  rewrite (readonly_eq _ w (readonly_filterIO _ files (λ x, readonly_isfile _))).
  destruct (filterIO _ files w).2 as [jsons|]; [|intros [= <- _]; by left].
  unfold json. cbn [negb]. eauto.
Qed.

(** X11: [update_traits] touches nothing outside the translated pack
    directory of the language: every path that is not below
    [translations/<code>/pack] names after the run what it named before,
    with the same content, whether the run returns or raises. The English
    packs and the dictionary are only read. Every file it opens for writing
    is below that directory. *)
Theorem update_traits_frame
    (code : Py.str) (cycles : option (list Py.str)) (no : bool)
    (w w' : world) (r : result ()) :
  update_traits code cycles no w = (w', r) →
  (∀ q, ¬ [TRANSLATION_PATH; code; PACK_PATH] `prefix_of` q →
        same_kind (FS.stat (cwd w') q) (FS.stat (cwd w) q))
  ∧ ∃ ws, written w' = written w ++ ws
          ∧ Forall (λ p, [TRANSLATION_PATH; code; PACK_PATH] `prefix_of` p) ws.
Proof.
  intros [->|(tm & jsons & Hloop)]%update_traits_loop.
  - split; [intros; apply same_kind_refl|]. exists []. by rewrite app_nil_r.
  - split.
    + intros q Hq. eapply for_each_update_file_frame; [done|].
      intros file _ ->. apply Hq. by exists file.
    + destruct (for_each_update_file_written _ _ _ _ _ _ _ Hloop) as (ws & Hws & Hsub).
      exists ws. split; [done|]. apply Forall_forall. intros p Hp.
      apply Hsub, list_elem_of_fmap in Hp as (file & -> & _). by exists file.
Qed.

Lemma update_traits_frame_witness :
  let w' := (update_traits (u "ko") None true Sample.seeded).1 in
  same_kind (FS.stat (cwd w') (PACK_PATH :: Sample.core_a))
            (FS.stat (cwd Sample.seeded) (PACK_PATH :: Sample.core_a)).
Proof.
  intros w'.
  refine (proj1 (update_traits_frame (u "ko") None true Sample.seeded w'
                   (update_traits (u "ko") None true Sample.seeded).2 eq_refl) _ _).
  by intros [k [=]].
Defined.

(** ** File discovery on any tree *)

Lemma get_json_files_cycle_Ok path acc cycle w w' acc' :
  get_json_files_cycle path acc cycle w = (w', Ok acc') →
  w' = w ∧ ∃ new, acc' = acc ++ new ∧ Forall (json_path w path) new.
Proof.
  unfold get_json_files_cycle. rewrite bind_IO. unfold os.isfile at 1.
  destruct (_ && is_json_name cycle) eqn:Hfile.
  - intros [= <- <-]. split; [done|]. exists [[cycle]]. split; [done|].
    apply andb_true_iff in Hfile as [_ Hname].
    apply Forall_singleton. left. eauto.
  - rewrite bind_IO. unfold os.listdir at 1.
    destruct (FS.stat (cwd w) (path ++ [cycle])) as [[|es]|] eqn:Hdir; [done| |done].
    intros [= <- <-]. split; [done|]. eexists. split; [done|].
    apply Forall_fmap, Forall_forall. intros pack [Hname Hin]%list_elem_of_filter.
    right. exists cycle, pack, es. done.
Qed.

Lemma get_json_files_loop_Ok path acc cycles w w' acc' :
  foldIO (get_json_files_cycle path) acc cycles w = (w', Ok acc') →
  w' = w ∧ ∃ new, acc' = acc ++ new ∧ Forall (json_path w path) new.
Proof.
  revert acc. induction cycles as [|cycle cycles IH]; intros acc; simpl.
  - intros [= <- <-]. split; [done|]. exists []. by rewrite app_nil_r.
  - rewrite bind_IO.
    destruct (get_json_files_cycle path acc cycle w) as [w1 [acc1|]] eqn:Hcycle; [|done].
    apply get_json_files_cycle_Ok in Hcycle as (-> & new1 & -> & Hnew1).
    intros (-> & new2 & -> & Hnew2)%IH. split; [done|].
    exists (new1 ++ new2). split; [by rewrite app_assoc|]. by apply Forall_app.
Qed.

(** X12: [get_json_files] only reads, and goes one level deep: every path
    it returns is a name with the JSON extension (whatever the case of its
    letters), alone or directly inside a directory of [path]. *)
Theorem get_json_files_paths
    (path : filepath) (cycles : option (list Py.str)) (w w' : world)
    (files : list filepath) :
  get_json_files path cycles w = (w', Ok files) →
  w' = w ∧ Forall (json_path w path) files.
Proof.
  unfold get_json_files. rewrite bind_IO. unfold os.isdir at 1.
  destruct (match FS.stat (cwd w) path with Some (Dir _) => true | _ => false end);
    cbn [negb]; [|done].
  rewrite bind_IO.
  destruct ((match cycles with Some (c :: cs) => mret (c :: cs) | _ => os.listdir path end) w)
    as [w1 [cs|]] eqn:Hcs; [|done].
  assert (w1 = w) as ->.
  { destruct cycles as [[|c cs']|].
    2: by injection Hcs as <-.
    all: pose proof (readonly_listdir path w) as Hro; by rewrite Hcs in Hro. }
  intros (-> & new & -> & Hnew)%get_json_files_loop_Ok. done.
Qed.

Lemma get_json_files_paths_witness :
  Forall (json_path Sample.seeded [u "pack"]) [Sample.core_a; Sample.core_b].
Proof.
  exact (proj2 (get_json_files_paths [u "pack"] None Sample.seeded Sample.seeded
                  [Sample.core_a; Sample.core_b] eq_refl)).
Defined.

(** ** File discovery on the layout of the repository *)

Lemma get_json_files_cycle_dir path acc cycle packs w :
  cycle_dir w path cycle packs →
  get_json_files_cycle path acc cycle w = (w, Ok (acc ++ cycle_packs cycle packs)).
Proof.
  intros [Hnofile (es & Hdir & ->)]. unfold get_json_files_cycle.
  rewrite bind_IO. unfold os.isfile at 1.
  destruct (FS.stat (cwd w) [cycle]) as [[c|]|] eqn:Hc; [by destruct (Hnofile c)|..].
  all: cbn [andb]; rewrite bind_IO; unfold os.listdir at 1; by rewrite Hdir.
Qed.

Lemma get_json_files_loop_dirs path acc cycles listing w :
  Forall2 (cycle_dir w path) cycles listing →
  foldIO (get_json_files_cycle path) acc cycles w
  = (w, Ok (acc ++ concat (zip_with cycle_packs cycles listing))).
Proof.
  intros Hall. revert acc.
  induction Hall as [|cycle packs cycles listing Hc _ IH]; intros acc; simpl.
  - by rewrite app_nil_r.
  - rewrite bind_IO, (get_json_files_cycle_dir _ _ _ _ _ Hc), IH.
    by rewrite <- app_assoc.
Qed.

(** X13: on the layout the script is written for, where [path] is a
    directory and every cycle asked for (or, when none is, every entry of
    [path]) is a directory of [path] with no file of its name in the working
    directory, [get_json_files] returns, cycle after cycle and in the order
    of each listing, the paths [cycle/pack] of the entries with the JSON
    extension, and nothing else. *)
Theorem get_json_files_layout
    (path : filepath) (cycles : option (list Py.str)) (w : world)
    (es : list (Py.str * node)) (listing : list (list Py.str)) :
  FS.stat (cwd w) path = Some (Dir es) →
  Forall2 (cycle_dir w path)
    (match cycles with Some (c :: cs) => c :: cs | _ => map fst es end) listing →
  get_json_files path cycles w
  = (w, Ok (concat (zip_with cycle_packs
                      (match cycles with Some (c :: cs) => c :: cs | _ => map fst es end)
                      listing))).
Proof.
  intros Hpath Hall. unfold get_json_files.
  rewrite bind_IO. unfold os.isdir at 1. rewrite Hpath. cbn [negb].
  rewrite bind_IO.
  assert ((match cycles with Some (c :: cs) => mret (c :: cs) | _ => os.listdir path end) w
          = (w, Ok (match cycles with Some (c :: cs) => c :: cs | _ => map fst es end)))
    as ->.
  { destruct cycles as [[|]|]; [|done|]; unfold os.listdir; by rewrite Hpath. }
  by rewrite (get_json_files_loop_dirs _ [] _ _ _ Hall).
Qed.

Lemma get_json_files_layout_witness :
  get_json_files [u "pack"] (Some [u "dwl"; u "core"]) Sample.incomplete
  = (Sample.incomplete, Ok [Sample.dwl_b; Sample.core_a]).
Proof.
  refine (get_json_files_layout [u "pack"] (Some [u "dwl"; u "core"]) Sample.incomplete
            _ [[u "b.json"]; [u "a.json"]] eq_refl _).
  repeat constructor; try done; by eexists.
Defined.

(** ** The JSON extension *)

Lemma rfind_None c s : c ∉ s → os.rfind c s = None.
Proof.
  induction s as [|a s IH]; [done|]. intros [Ha Hs]%not_elem_of_cons. simpl.
  rewrite IH by done. by rewrite (proj2 (N.eqb_neq a c)) by done.
Qed.

Lemma rfind_last c stem ext :
  c ∉ ext → os.rfind c (stem ++ c :: ext) = Some (length stem).
Proof.
  intros Hext. induction stem as [|a stem IH]; simpl.
  - by rewrite rfind_None, N.eqb_refl.
  - by rewrite IH.
Qed.

(** X14: the test for the JSON extension. A name [stem.ext] whose [ext]
    holds no dot passes exactly when [ext] is [json] in any mix of cases and
    [stem] holds a character other than a dot; a name without a dot, the
    dot file [.json] among the names with an empty or all-dots stem, does
    not. *)
Theorem is_json_name_stem_ext (stem ext name : Py.str) :
  (Py.DOT ∉ ext →
   is_json_name (stem ++ Py.DOT :: ext)
   = existsb (λ c, negb (c =? Py.DOT)) stem && bool_decide (Py.lower ext = u "json"))
  ∧ (Py.DOT ∉ name → is_json_name name = false).
Proof.
  unfold is_json_name, os.splitext. split.
  - intros Hext. rewrite rfind_last by done.
    rewrite take_app_length, drop_app_length.
    destruct (existsb _ stem); cbn [snd andb].
    + change (Py.lower (Py.DOT :: ext)) with (Py.DOT :: Py.lower ext).
      apply bool_decide_ext. change (u ".json") with (Py.DOT :: u "json").
      split; [by intros [= ->]|by intros ->].
    + by apply bool_decide_eq_false_2.
  - intros Hname. rewrite rfind_None by done. cbn [snd].
    by apply bool_decide_eq_false_2.
Qed.

Lemma is_json_name_stem_ext_witness :
  is_json_name (u "core" ++ Py.DOT :: u "JSON") = true
  ∧ is_json_name (u "" ++ Py.DOT :: u "json") = false
  ∧ is_json_name (u "json") = false.
Proof.
  split_and!.
  - exact (proj1 (is_json_name_stem_ext (u "core") (u "JSON") [])
             (bool_decide_eq_true_1 (Py.DOT ∉ u "JSON") eq_refl)).
  - exact (proj1 (is_json_name_stem_ext (u "") (u "json") [])
             (bool_decide_eq_true_1 (Py.DOT ∉ u "json") eq_refl)).
  - exact (proj2 (is_json_name_stem_ext [] [] (u "json"))
             (bool_decide_eq_true_1 (Py.DOT ∉ u "json") eq_refl)).
Defined.

(** ** The pipeline of [main] *)

(** The master list [make_placeholder] computes, before it is written. *)
Lemma make_placeholder_eq w files (packs : list (list odict)) :
  get_json_files [PACK_PATH] None w = (w, Ok files) →
  Forall2 (λ f cards, io.load_json (PACK_PATH :: f) w = (w, Ok cards)) files packs →
  ∃ codes,
    make_placeholder w
    = io.dump_json [TRAITS_FILENAME] (map (λ x, trait_entry x x) codes) w
    ∧ ∀ x, x ∈ codes ↔
        ∃ cards card t, cards ∈ packs ∧ card ∈ cards
          ∧ OrderedDict.get card (u "traits") = Some t ∧ x ∈ _split_traits t.
Proof.
  intros Hfiles Hpacks.
  destruct (collect_traits_packs ∅ w files packs Hpacks) as (S & Hfold & HS).
  destruct (sorted_elements S) as (_ & _ & Hmem).
  exists (sorted (elements S)). split.
  - unfold make_placeholder.
    by rewrite (bind_IO_Ok _ _ _ _ _ Hfiles), (bind_IO_Ok _ _ _ _ _ Hfold).
  - intros x. rewrite Hmem, HS. split; [|eauto].
    intros [Hx|?]; [|done]. by apply not_elem_of_empty in Hx.
Qed.

(** After a run of [update_placeholder] that returns, the traits file of
    the language has an entry for every code of the master list. *)
Lemma update_placeholder_covers code w w1 data :
  update_placeholder code w = (w1, Ok ()) →
  FS.stat (cwd w) [TRAITS_FILENAME] = Some (File (Json data)) →
  ∃ out, FS.stat (cwd w1) [TRANSLATION_PATH; code; TRAITS_FILENAME] = Some (File (Json out))
    ∧ ∀ item c, item ∈ data → OrderedDict.get item (u "code") = Some c →
        ∃ e, e ∈ out ∧ OrderedDict.get e (u "code") = Some c.
Proof.
  intros Hrun Hdata0.
  destruct (update_placeholder_Ok_inv _ _ _ Hrun) as (data' & es & old & Hmaster & Hdir & Hold).
  assert (data' = data) as -> by congruence.
  rewrite (update_placeholder_eq _ _ _ _ _ Hmaster Hdir Hold) in Hrun.
  destruct (mapR code_of old) as [trans_codes|] eqn:Hcodes; [|done].
  destruct (foldR _ old data) as [td|] eqn:Hloop; [|done].
  destruct (sort_key code_of td) as [out|] eqn:Hsort; [|done].
  unfold io.dump_json, io.write in Hrun.
  destruct (FS.store (cwd w) _ (Json out)) as [n'|] eqn:Hstore; [|done].
  injection Hrun as <-.
  apply merge_loop_Ok in Hloop as [-> _].
  apply sort_key_Ok in Hsort as (ps & -> & _ & Hperm & _).
  exists ps.*2. split; [by eapply store_stat_eq|].
  intros item c Hitem Hc.
  destruct (decide (c ∈ trans_codes)) as [Hin|Hnotin].
  - apply mapR_Forall2 in Hcodes.
    apply list_elem_of_lookup in Hin as [i Hi].
    destruct (Forall2_lookup_r _ _ _ _ _ Hcodes Hi) as (x & Hx & Hxc).
    exists x. split; [|by apply getitem_Ok]. rewrite Hperm. apply elem_of_app. left.
    by eapply list_elem_of_lookup_2.
  - exists item. split; [|done].
    rewrite Hperm. apply elem_of_app. right. apply list_elem_of_filter.
    split; [|done]. unfold is_new. rewrite Hc. by apply bool_decide_eq_true_2.
Qed.

(** The dictionary built from a traits file has every code of the file. *)
Lemma add_entries_keys (m tm : gmap Py.str Py.str) (entries : list odict) :
  foldR add_entry m entries = Ok tm →
  (∀ c, is_Some (m !! c) → is_Some (tm !! c))
  ∧ ∀ e c, e ∈ entries → OrderedDict.get e (u "code") = Some c → is_Some (tm !! c).
Proof.
  revert m. induction entries as [|e entries IH]; intros m; cbn [foldR].
  - intros [= <-]. split; [done|]. intros e c He. by apply elem_of_nil in He.
  - destruct (add_entry m e) as [m1|] eqn:He; cbn [mbind result_bind]; [|done].
    intros [Hm1 Hrest]%IH.
    assert (Hstep : ∃ name code, OrderedDict.get e (u "code") = Some code
                                 ∧ m1 = <[code := name]> m).
    { unfold add_entry in He.
      destruct (OrderedDict.getitem e (u "name")) as [name|]; [|done].
      cbn [mbind result_bind] in He.
      destruct (OrderedDict.getitem e (u "code")) as [code|] eqn:Hcode; [|done].
      injection He as <-. exists name, code. by apply getitem_Ok in Hcode. }
    destruct Hstep as (name & code & Hcode & ->). split.
    + intros c [v Hc]. apply Hm1.
      destruct (decide (code = c)) as [->|Hne];
        [rewrite lookup_insert_eq|rewrite lookup_insert_ne by done]; eauto.
    + intros e' c [->|Hin]%elem_of_cons Hc; [|by eapply Hrest].
      apply Hm1. assert (code = c) as -> by congruence.
      rewrite lookup_insert_eq. eauto.
Qed.

(** X15: the order of [main]. After [make_placeholder] and
    [update_placeholder] have returned, the dictionary that [update_traits]
    builds from the language's traits file has an entry for every trait of
    every card of the English packs: the look-ups for such a card's traits
    cannot raise. *)
Theorem seeded_dictionary_covers_traits
    (code : Py.str) (w w1 w2 : world) (files : list filepath)
    (packs : list (list odict)) (data : list odict) (tm : gmap Py.str Py.str) :
  get_json_files [PACK_PATH] None w = (w, Ok files) →
  Forall2 (λ f cards, io.load_json (PACK_PATH :: f) w = (w, Ok cards)) files packs →
  make_placeholder w = (w1, Ok ()) →
  update_placeholder code w1 = (w2, Ok ()) →
  io.load_json [TRANSLATION_PATH; code; TRAITS_FILENAME] w2 = (w2, Ok data) →
  foldR add_entry ∅ data = Ok tm →
  ∀ cards card t,
    cards ∈ packs → card ∈ cards → OrderedDict.get card (u "traits") = Some t →
    ∃ names, mapR (Dict.getitem tm) (_split_traits t) = Ok names.
Proof.
  intros Hfiles Hpacks Hmake Hseed Hload Htm cards card t Hcards Hcard Ht.
  destruct (make_placeholder_eq _ _ _ Hfiles Hpacks) as (codes & Heq & Hcodes).
  rewrite Heq in Hmake. unfold io.dump_json, io.write in Hmake.
  destruct (FS.store (cwd w) _ _) as [n1|] eqn:Hstore; [|done].
  injection Hmake as <-.
  assert (Hmaster : FS.stat n1 [TRAITS_FILENAME]
                    = Some (File (Json (map (λ x, trait_entry x x) codes))))
    by (by eapply store_stat_eq).
  destruct (update_placeholder_covers _ _ _ _ Hseed Hmaster) as (out & Hout & Hcover).
  apply load_json_Ok in Hload as [_ Hload]. assert (data = out) as -> by congruence.
  apply add_entries_keys in Htm as [_ Hkeys].
  apply mapR_Ok_Forall, Forall_forall. intros x Hx.
  assert (Hin : x ∈ codes) by (apply Hcodes; eauto 10).
  destruct (Hcover (trait_entry x x) x) as (e & He & Hec); [|done|].
  { apply list_elem_of_fmap. eauto. }
  destruct (Hkeys _ _ He Hec) as [name Hname].
  exists name. unfold Dict.getitem. by rewrite Hname.
Qed.

Lemma seeded_dictionary_covers_traits_witness :
  ∃ names,
    mapR (Dict.getitem {[ u "Item" := u "Objet"; u "Weapon" := u "Weapon" ]})
      (_split_traits (u "Item. Weapon.")) = Ok names.
Proof.
  set (w1 := (make_placeholder Sample.incomplete).1).
  set (w2 := (update_placeholder (u "ko") w1).1).
  refine (seeded_dictionary_covers_traits (u "ko") Sample.incomplete w1 w2
            [Sample.core_a; Sample.dwl_b]
            [[Sample.card "01001" "Item."]; [Sample.card "02001" "Item. Weapon."]]
            [trait_entry (u "Item") (u "Objet"); trait_entry (u "Weapon") (u "Weapon")]
            {[ u "Item" := u "Objet"; u "Weapon" := u "Weapon" ]}
            eq_refl _ eq_refl eq_refl eq_refl _
            [Sample.card "02001" "Item. Weapon."] (Sample.card "02001" "Item. Weapon.")
            (u "Item. Weapon.") _ _ eq_refl).
  - repeat constructor.
  - by vm_compute.
  - apply elem_of_cons. right. by left.
  - by left.
Defined.

(** ** Edited lines *)

Lemma lstrip_spaces s : Forall (λ c, Py.isspace c = true) s → Py.lstrip s = [].
Proof. induction 1 as [|c s Hc _ IH]; simpl; [done|]. by rewrite Hc. Qed.

Lemma lstrip_nil s : Py.lstrip s = [] → Forall (λ c, Py.isspace c = true) s.
Proof.
  induction s as [|c s IH]; simpl; [constructor|].
  destruct (Py.isspace c) eqn:Hc; [|done]. intros Hs. constructor; [done|by apply IH].
Qed.

Lemma strip_nil s : Py.strip s = [] → Forall (λ c, Py.isspace c = true) s.
Proof.
  unfold Py.strip, Py.rstrip. intros Hs.
  apply (f_equal reverse) in Hs. rewrite reverse_involutive in Hs. simpl in Hs.
  apply lstrip_nil, Forall_reverse in Hs. rewrite reverse_involutive in Hs.
  apply lstrip_nil. rewrite <- lstrip_idem. by apply lstrip_spaces.
Qed.

Lemma stripped_spaces s :
  Py.strip s = s → Forall (λ c, Py.isspace c = true) s → s = [].
Proof.
  intros [Hl _]%strip_fixed Hall. rewrite <- Hl. by apply lstrip_spaces.
Qed.

(** The line of a pair is blank only for the pair of two empty strings. *)
Lemma text_line_not_blank p :
  clean p.1 → clean p.2 → p.1 ≠ [] ∨ p.2 ≠ [] → Py.strip (text_line p) ≠ [].
Proof.
  destruct p as [c n]. simpl. intros (Hc & _) (Hn & _) Hne Hblank.
  apply strip_nil in Hblank. unfold text_line in Hblank. simpl in Hblank.
  rewrite !Forall_app, Forall_cons in Hblank. destruct Hblank as [[Hcs [_ Hns]] _].
  destruct Hne as [Hne|Hne]; apply Hne; by apply stripped_spaces.
Qed.

(** A line written for a pair is read back as the pair. *)
Lemma txt2json_line_text_line (data : gmap Py.str Py.str) p :
  clean p.1 → clean p.2 → p.1 ≠ [] ∨ p.2 ≠ [] →
  txt2json_line data (text_line p)
  = Ok (if bool_decide (is_Some (data !! p.1)) then <[p.1 := p.2]> data else data).
Proof.
  intros Hc Hn Hne. pose proof (text_line_not_blank p Hc Hn Hne) as Hblank.
  destruct p as [c n]. destruct Hc as (Hc & Hct & _), Hn as (Hn & Hnt & _).
  unfold text_line in *. simpl in *. rewrite <- app_assoc in *. simpl in *.
  rewrite txt2json_line_one_tab; [|done..|].
  - by rewrite Hc, strip_line_feed.
  - rewrite not_elem_of_app, not_elem_of_cons. split; [done|].
    split; [done|apply not_elem_of_nil].
Qed.

(** X16: the edits of a translator. When the text holds one line
    [code<TAB>name] per pair of [edits], the codes all different, codes and
    names without tab or line break or white space at their ends and not
    both empty, the loop of [txt2json] returns a dictionary with the same
    codes as before, in which every edited code that was known has the
    edited name, every unknown code of the text is ignored, and every code
    the text does not mention keeps its name. *)
Theorem txt2json_lines_apply_edits
    (data : gmap Py.str Py.str) (edits : list (Py.str * Py.str)) :
  Forall (λ p, clean p.1 ∧ clean p.2 ∧ (p.1 ≠ [] ∨ p.2 ≠ [])) edits →
  NoDup edits.*1 →
  ∃ data',
    foldR txt2json_line data (map text_line edits) = Ok data'
    ∧ dom data' = dom data
    ∧ (∀ c n, (c, n) ∈ edits → is_Some (data !! c) → data' !! c = Some n)
    ∧ (∀ c, c ∉ edits.*1 → data' !! c = data !! c).
Proof.
  intros Hclean. revert data.
  induction Hclean as [|[c n] edits (Hc & Hn & Hne) _ IH]; intros data Hnodup.
  - exists data. split_and!; [done..| |done]. intros c n Hin. by apply elem_of_nil in Hin.
  - rewrite fmap_cons in Hnodup. apply NoDup_cons in Hnodup as [Hfresh Hnodup].
    cbn [map foldR]. rewrite txt2json_line_text_line by done. cbn [mbind result_bind fst snd].
    set (data1 := if bool_decide (is_Some (data !! c)) then <[c := n]> data else data).
    assert (Hdom1 : dom data1 = dom data).
    { unfold data1. case_bool_decide as Hknown; [|done].
      rewrite dom_insert_L. apply elem_of_dom in Hknown.
      by apply subseteq_union_1_L, singleton_subseteq_l. }
    destruct (IH data1 Hnodup) as (data' & -> & Hdom & Hedit & Hother).
    exists data'. split_and!; [done|by rewrite Hdom| |].
    + intros c' n' [[= -> ->]|Hin]%elem_of_cons Hknown.
      * rewrite Hother by done. unfold data1.
        rewrite bool_decide_eq_true_2 by done. by rewrite lookup_insert_eq.
      * apply Hedit; [done|]. apply elem_of_dom. rewrite Hdom1. by apply elem_of_dom.
    + intros c' [Hc' Hnotin]%not_elem_of_cons. rewrite Hother by done.
      unfold data1. case_bool_decide; [|done]. by rewrite lookup_insert_ne.
Qed.

Lemma txt2json_lines_apply_edits_witness :
  ∃ data',
    foldR txt2json_line ({[ u "Item" := u "Item"; u "Weapon" := u "Weapon" ]})
      (map text_line [(u "Item", u "Objet"); (u "Spell", u "Sort")]) = Ok data'
    ∧ data' !! u "Item" = Some (u "Objet")
    ∧ data' !! u "Weapon" = Some (u "Weapon")
    ∧ data' !! u "Spell" = None.
Proof.
  destruct (txt2json_lines_apply_edits
              {[ u "Item" := u "Item"; u "Weapon" := u "Weapon" ]}
              [(u "Item", u "Objet"); (u "Spell", u "Sort")])
    as (data' & Hrun & Hdom & Hedit & Hother).
  - by apply (bool_decide_eq_true_1 _).
  - by apply (bool_decide_eq_true_1 _).
  - exists data'. split_and!; [done| | |].
    + apply Hedit; [by left|by eexists].
    + rewrite Hother; [done|]. by apply (bool_decide_eq_true_1 _).
    + apply not_elem_of_dom. rewrite Hdom. by apply (bool_decide_eq_true_1 _).
Defined.

(** ** The sort of [txt2json] *)

Lemma txt2json_line_dom (data data' : gmap Py.str Py.str) line :
  txt2json_line data line = Ok data' → dom data' = dom data.
Proof.
  unfold txt2json_line. destruct (negb _); [by intros [= <-]|].
  destruct (Py.split Py.TAB line) as [|a [|b [|c l]]]; try done.
  destruct (bool_decide _) eqn:Hknown; [|by intros [= <-]].
  intros [= <-]. apply bool_decide_eq_true_1 in Hknown.
  rewrite dom_insert_L. apply elem_of_dom in Hknown.
  by apply subseteq_union_1_L, singleton_subseteq_l.
Qed.

Lemma txt2json_lines_dom (data data' : gmap Py.str Py.str) lines :
  foldR txt2json_line data lines = Ok data' → dom data' = dom data.
Proof.
  revert data. induction lines as [|line lines IH]; intros data; cbn [foldR].
  - by intros [= <-].
  - destruct (txt2json_line data line) as [data1|] eqn:Hline; [|done].
    cbn [mbind result_bind]. intros ->%IH. by eapply txt2json_line_dom.
Qed.

Lemma add_entries_dom (m tm : gmap Py.str Py.str) (entries : list odict) :
  foldR add_entry m entries = Ok tm →
  ∀ c, c ∈ dom tm ↔
       c ∈ dom m ∨ ∃ e, e ∈ entries ∧ OrderedDict.get e (u "code") = Some c.
Proof.
  revert m. induction entries as [|e entries IH]; intros m; cbn [foldR].
  - intros [= <-] c. split; [by left|]. intros [?|(e & He & _)]; [done|].
    by apply elem_of_nil in He.
  - destruct (add_entry m e) as [m1|] eqn:He; cbn [mbind result_bind]; [|done].
    intros Hrest c. rewrite (IH _ Hrest c).
    assert (Hstep : ∃ name code, OrderedDict.get e (u "code") = Some code
                                 ∧ m1 = <[code := name]> m).
    { unfold add_entry in He.
      destruct (OrderedDict.getitem e (u "name")) as [name|]; [|done].
      cbn [mbind result_bind] in He.
      destruct (OrderedDict.getitem e (u "code")) as [code|] eqn:Hcode; [|done].
      injection He as <-. exists name, code. by apply getitem_Ok in Hcode. }
    destruct Hstep as (name & code & Hcode & ->).
    rewrite dom_insert_L, elem_of_union, elem_of_singleton. split.
    + intros [[->|?]|(e' & ? & ?)]; [right|by left|right].
      * exists e. split; [by left|done].
      * exists e'. split; [by right|done].
    + intros [?|(e' & [->|?]%elem_of_cons & Hc)]; [by left; right| |by right; eauto].
      left. left. congruence.
Qed.

(** A dictionary with two different keys has two items at least. *)
Lemma map_to_list_two (data : gmap Py.str Py.str) c1 c2 :
  c1 ∈ dom data → c2 ∈ dom data → c1 ≠ c2 → (2 ≤ length (map_to_list data))%nat.
Proof.
  intros [v1 H1%elem_of_map_to_list]%elem_of_dom [v2 H2%elem_of_map_to_list]%elem_of_dom Hne.
  destruct (map_to_list data) as [|x [|y l]]; simpl; [|..|lia].
  - by apply elem_of_nil in H1.
  - apply list_elem_of_singleton in H1, H2. congruence.
Qed.

(** The dictionary [txt2json] builds has the codes of the JSON file. *)
Lemma txt2json_data_dom path_json path_text w entries data :
  FS.stat (cwd w) path_json = Some (File (Json entries)) →
  txt2json_data path_json path_text w = (w, Ok data) →
  ∀ c, c ∈ dom data ↔ ∃ e, e ∈ entries ∧ OrderedDict.get e (u "code") = Some c.
Proof.
  intros Hjson. unfold txt2json_data.
  assert (Hload : io.load_json path_json w = (w, Ok entries)) by (by apply load_json_Ok).
  rewrite (bind_IO_Ok _ _ _ _ _ Hload), bind_lift.
  destruct (foldR add_entry ∅ entries) as [data0|] eqn:Hdata0; [|done].
  rewrite bind_IO, (readonly_eq _ w (readonly_readlines _)).
  destruct (io.readlines path_text w).2 as [lines|]; [|done].
  unfold lift. intros [= Hlines] c.
  rewrite (txt2json_lines_dom _ _ _ Hlines), (add_entries_dom _ _ _ Hdata0 c), dom_empty_L.
  split; [|by right]. intros [Hc|?]; [|done]. by apply not_elem_of_empty in Hc.
Qed.

(** X17: [txt2json] cannot store two entries. When the JSON file holds
    two entries with different codes, the run raises, whatever the text
    holds, and leaves the world as it was: the JSON file is not opened for
    writing. When the file and the text are read without error, what it
    raises is the [TypeError] of [data.sort()], which compares two dicts. *)
Theorem txt2json_sort_raises
    (path_json path_text : filepath) (w : world) (entries : list odict)
    (e1 e2 : odict) (c1 c2 : Py.str) :
  FS.stat (cwd w) path_json = Some (File (Json entries)) →
  e1 ∈ entries → e2 ∈ entries →
  OrderedDict.get e1 (u "code") = Some c1 →
  OrderedDict.get e2 (u "code") = Some c2 →
  c1 ≠ c2 →
  (∃ e, txt2json path_json path_text w = (w, Raise e))
  ∧ (∀ data, txt2json_data path_json path_text w = (w, Ok data) →
       txt2json path_json path_text w = (w, Raise TypeError)).
Proof.
  intros Hjson He1 He2 Hc1 Hc2 Hne.
  assert (Hsort : ∀ data, txt2json_data path_json path_text w = (w, Ok data) →
                    txt2json path_json path_text w = (w, Raise TypeError)).
  { intros data Hdata. rewrite (txt2json_after_data _ _ _ _ Hdata).
    pose proof (txt2json_data_dom _ _ _ _ _ Hjson Hdata) as Hdom.
    destruct (sort_dicts_cases (map (λ kv, trait_entry kv.1 kv.2) (map_to_list data)))
      as [[Hlen _]|[_ ->]]; [|done].
    rewrite length_map in Hlen.
    assert (Htwo : (2 ≤ length (map_to_list data))%nat).
    { apply (map_to_list_two data c1 c2); [apply Hdom; eauto..|done]. }
    lia. }
  split; [|done].
  destruct (txt2json_data path_json path_text w) as [w0 [data|e]] eqn:Hdata.
  - pose proof (readonly_txt2json_data path_json path_text w) as Hw.
    rewrite Hdata in Hw. simpl in Hw. subst w0. eauto.
  - pose proof (readonly_txt2json_data path_json path_text w) as Hw.
    rewrite Hdata in Hw. simpl in Hw. subst w0.
    exists e. unfold txt2json. by rewrite (bind_IO_Raise _ _ _ _ _ Hdata).
Qed.

Lemma txt2json_sort_raises_witness :
  let w1 := (json2txt [u "traits.json"] [u "traits.txt"] Sample.unsorted).1 in
  txt2json [u "traits.json"] [u "traits.txt"] w1 = (w1, Raise TypeError).
Proof.
  intros w1.
  eapply (proj2 (txt2json_sort_raises [u "traits.json"] [u "traits.txt"] w1
                   [trait_entry (u "Weapon") (u "Arme"); trait_entry (u "Item") (u "Objet")]
                   (trait_entry (u "Weapon") (u "Arme")) (trait_entry (u "Item") (u "Objet"))
                   (u "Weapon") (u "Item") _ _ _ _ _ _)).
  Unshelve.
  - reflexivity.
  - reflexivity.
  - apply elem_of_cons. by left.
  - apply elem_of_cons. right. apply elem_of_cons. by left.
  - reflexivity.
  - reflexivity.
  - by vm_compute.
Defined.

(** ** What [json2txt] writes *)

(** X18: [json2txt] on a JSON file whose entries all hold a code and a name
    writes to the text file one line [code<TAB>name<LF>] per entry, in the
    order of the file, and nothing else; it leaves every other file,
    the JSON file among them, as it was. *)
Theorem json2txt_lines
    (path_json path_text : filepath) (w : world)
    (entries : list odict) (pairs : list (Py.str * Py.str)) :
  io.load_json path_json w = (w, Ok entries) →
  Forall2 holds entries pairs →
  can_open_w w path_text →
  ∃ n', json2txt path_json path_text w = (World n' (written w ++ [path_text]), Ok ())
        ∧ FS.stat n' path_text
          = Some (File (Text (concat (map (λ p, p.1 ++ [Py.TAB] ++ p.2 ++ [Py.LF]) pairs))))
        ∧ ∀ q, q ≠ path_text → same_kind (FS.stat n' q) (FS.stat (cwd w) q).
Proof.
  intros Hload Hpairs Hopen.
  destruct (json2txt_Ok _ _ _ _ _ Hload Hpairs Hopen) as (n' & Hrun & Htext & Hframe).
  exists n'. split_and!; [done| |done]. rewrite Htext.
  assert (Hlines : map text_line pairs
                   = map (λ p, p.1 ++ [Py.TAB] ++ p.2 ++ [Py.LF]) pairs);
    [|by rewrite Hlines].
  apply map_ext. intros [c n]. unfold text_line. simpl. by rewrite <- app_assoc.
Qed.

Lemma json2txt_lines_witness :
  ∃ n', json2txt [u "traits.json"] [u "traits.txt"] Sample.unsorted
        = (World n' [[u "traits.txt"]], Ok ())
      ∧ FS.stat n' [u "traits.txt"]
        = Some (File (Text (u "Weapon" ++ [Py.TAB] ++ u "Arme" ++ [Py.LF]
                            ++ u "Item" ++ [Py.TAB] ++ u "Objet" ++ [Py.LF]))).
Proof.
  destruct (json2txt_lines [u "traits.json"] [u "traits.txt"] Sample.unsorted
              [trait_entry (u "Weapon") (u "Arme"); trait_entry (u "Item") (u "Objet")]
              [(u "Weapon", u "Arme"); (u "Item", u "Objet")])
    as (n' & Hrun & Htext & _).
  - reflexivity.
  - repeat constructor.
  - split; [done|by eexists].
  - exists n'. split; [exact Hrun|exact Htext].
Defined.

(** ** Seeding a new language *)

Lemma resolve_app n p q :
  FS.resolve n (p ++ q) = FS.resolve n p ≫= λ m, FS.resolve m q.
Proof.
  revert n. induction p as [|x p IH]; intros n; simpl; [done|].
  destruct n as [|es]; [done|]. destruct (FS.entry x es); [apply IH|done].
Qed.

(** A file can be created in a directory that has no entry of its name. *)
Lemma store_in_dir c dir x n es :
  FS.resolve n dir = Some (Dir es) → FS.entry x es = None →
  ∃ n', FS.store n (dir ++ [x]) c = Some n'.
Proof.
  revert n. induction dir as [|y dir IH]; intros n; simpl.
  - intros [= ->] Hx. rewrite Hx. eauto.
  - destruct n as [|es0]; [done|].
    destruct (FS.entry y es0) as [m|]; [|done].
    intros Hm Hx. destruct (IH _ Hm Hx) as [m' ->]. simpl. eauto.
Qed.

Lemma merge_loop_new trans_data data :
  Forall (λ item, is_Some (OrderedDict.get item (u "code"))) data →
  foldR (λ (trans_data : list odict) (item : odict),
           c ← OrderedDict.getitem item (u "code");
           Ok (if bool_decide (c ∉ []) then trans_data ++ [item] else trans_data))
        trans_data data
  = Ok (trans_data ++ data).
Proof.
  intros Hall. revert trans_data.
  induction Hall as [|item data [c Hc] _ IH]; intros td; cbn [foldR].
  - by rewrite app_nil_r.
  - rewrite (getitem_get _ _ _ Hc). cbn [mbind result_bind].
    rewrite bool_decide_eq_true_2 by apply not_elem_of_nil.
    by rewrite IH, <- app_assoc.
Qed.

Lemma sort_key_master codes :
  increasing codes →
  sort_key code_of (map (λ x, trait_entry x x) codes)
  = Ok (map (λ x, trait_entry x x) codes).
Proof.
  intros Hinc.
  pose proof (sort_key_sorted code_of (map (λ x, (x, trait_entry x x)) codes)) as Hs.
  rewrite <- list_fmap_compose in Hs.
  change (snd ∘ (λ x, (x, trait_entry x x))) with (λ x : Py.str, trait_entry x x) in Hs.
  apply Hs.
  - apply Forall_fmap, Forall_forall. by intros x _.
  - apply StronglySorted_Sorted in Hinc. clear Hs.
    induction Hinc as [|x l _ IH Hhd]; [constructor|].
    rewrite fmap_cons. constructor; [done|].
    destruct Hhd as [|y l Hxy]; [constructor|]. rewrite fmap_cons. constructor.
    by apply str_lt_asym.
Qed.

(** X19: seeding a new language. When the master list is as
    [make_placeholder] writes it (entries [{code: x, name: x}], codes
    increasing) and the directory of the language holds no traits file yet,
    [update_placeholder] returns and creates the traits file of the language
    with exactly the entries of the master list, in the same order. *)
Theorem update_placeholder_new_language
    (code : Py.str) (w : world) (codes : list Py.str) (es : list (Py.str * node)) :
  FS.stat (cwd w) [TRAITS_FILENAME]
    = Some (File (Json (map (λ x, trait_entry x x) codes))) →
  increasing codes →
  FS.stat (cwd w) [TRANSLATION_PATH; code] = Some (Dir es) →
  FS.entry TRAITS_FILENAME es = None →
  ∃ n', update_placeholder code w
        = (World n' (written w ++ [[TRANSLATION_PATH; code; TRAITS_FILENAME]]), Ok ())
      ∧ FS.stat n' [TRANSLATION_PATH; code; TRAITS_FILENAME]
        = Some (File (Json (map (λ x, trait_entry x x) codes))).
Proof.
  intros Hmaster Hinc Hdir Hnew.
  assert (Hold : existing_entries w code = Ok []).
  { unfold existing_entries.
    change [TRANSLATION_PATH; code; TRAITS_FILENAME]
      with ([TRANSLATION_PATH; code] ++ [TRAITS_FILENAME]).
    rewrite stat_resolve, resolve_app by done.
    rewrite stat_resolve in Hdir by done. rewrite Hdir. simpl. by rewrite Hnew. }
  rewrite (update_placeholder_eq _ _ _ _ _ Hmaster Hdir Hold). cbn [mapR].
  rewrite merge_loop_new by (apply Forall_fmap, Forall_forall; intros x _; by exists x).
  cbn [app]. rewrite sort_key_master by done.
  rewrite stat_resolve in Hdir by done.
  destruct (store_in_dir (Json (map (λ x, trait_entry x x) codes)) _ _ _ _ Hdir Hnew)
    as [n' Hn'].
  exists n'. unfold io.dump_json, io.write. cbn [app] in Hn'. rewrite Hn'.
  split; [done|]. by eapply store_stat_eq.
Qed.

Lemma update_placeholder_new_language_witness :
  ∃ n', update_placeholder (u "ko") Sample.new_language
        = (World n' [[TRANSLATION_PATH; u "ko"; TRAITS_FILENAME]], Ok ())
      ∧ FS.stat n' [TRANSLATION_PATH; u "ko"; TRAITS_FILENAME]
        = Some (File (Json [trait_entry (u "Item") (u "Item");
                            trait_entry (u "Weapon") (u "Weapon")])).
Proof.
  apply (update_placeholder_new_language (u "ko") Sample.new_language
           [u "Item"; u "Weapon"] []); try reflexivity.
  repeat constructor.
Defined.

(** ** The packs after a run of [update_traits] *)

Lemma same_kind_file_r a c : same_kind (Some (File c)) a → a = Some (File c).
Proof. destruct a as [[]|]; simpl; try done. by intros ->. Qed.

Lemma pack_ne_trans code (f f0 : filepath) :
  PACK_PATH :: f0 ≠ [TRANSLATION_PATH; code; PACK_PATH] ++ f.
Proof. by intros [= ?]. Qed.

(** What a returning run of the loop body leaves in the translated pack. *)
Lemma update_file_Ok_inv tm code no file w w1 :
  update_file tm code no file w = (w1, Ok ()) →
  ∃ data_en code_en data_trans out,
    FS.stat (cwd w) (PACK_PATH :: file) = Some (File (Json data_en))
    ∧ mapR (λ x, OrderedDict.getitem x (u "code")) data_en = Ok code_en
    ∧ FS.stat (cwd w) ([TRANSLATION_PATH; code; PACK_PATH] ++ file)
      = Some (File (Json data_trans))
    ∧ Forall2 (card_step tm no data_en code_en) data_trans out
    ∧ FS.stat (cwd w1) ([TRANSLATION_PATH; code; PACK_PATH] ++ file)
      = Some (File (Json out)).
Proof.
  unfold update_file. rewrite bind_IO.
  destruct (io.load_json (PACK_PATH :: file) w) as [w0 [data_en|]] eqn:Hen; [|done].
  apply load_json_Ok in Hen as [-> Hen]. rewrite bind_IO.
  destruct (io.load_json _ w) as [w0 [data_trans|]] eqn:Htrans; [|done].
  apply load_json_Ok in Htrans as [-> Htrans]. rewrite bind_lift.
  destruct (mapR _ data_en) as [code_en|] eqn:Hcode; [|done].
  rewrite bind_lift.
  destruct (update_items tm no data_en code_en false data_trans) as [[out changed]|] eqn:Hloop;
    [|done].
  pose proof (update_items_Ok _ _ _ _ _ _ _ _ Hloop) as [Hall Hch].
  destruct changed.
  - unfold io.dump_json, io.write.
    destruct (FS.store (cwd w) _ (Json out)) as [n'|] eqn:Hstore; [|done].
    intros [= <-]. exists data_en, code_en, data_trans, out.
    split_and!; [done..|]. by eapply store_stat_eq.
  - intros [= <-]. exists data_en, code_en, data_trans, out. split_and!; [done..|].
    assert (out = data_trans) as ->; [|done].
    assert (Hnone : ¬ Exists (recomputed tm no data_en code_en) data_trans).
    { intros Hex. pose proof (proj2 Hch (or_intror Hex)). done. }
    clear -Hall Hnone. induction Hall as [|x y xs ys Hxy _ IH]; [done|].
    rewrite Exists_cons in Hnone. f_equal.
    + destruct Hxy as [[_ ->]|Hsome]; [done|]. destruct Hnone. left. by exists y.
    + apply IH. tauto.
Qed.

(** Cards that went through the loop body are kept by another pass. *)
Lemma card_steps_again tm no data_en code_en data cur out :
  Forall2 (card_step tm no data_en code_en) data cur →
  Forall2 (card_step tm no data_en code_en) cur out →
  out = cur.
Proof.
  intros Hfirst Hagain.
  assert (Hfixed : Forall (λ x, update_item tm no data_en code_en x = Ok None
                                ∨ update_item tm no data_en code_en x = Ok (Some x)) cur).
  { apply Forall_forall. intros x [j Hj]%list_elem_of_lookup.
    destruct (Forall2_lookup_r _ _ _ _ _ Hfirst Hj) as (x0 & _ & Hstep).
    by eapply card_step_again. }
  clear Hfirst. induction Hagain as [|x y xs ys Hxy _ IH]; [done|].
  apply Forall_cons in Hfixed as [Hx Hxs]. f_equal; [|by apply IH].
  destruct Hxy as [[_ ->]|Hsome]; [done|].
  destruct Hx as [Hnone|Hsame]; congruence.
Qed.

Section packs_after_run.
Context (tm : gmap Py.str Py.str) (code : Py.str) (no : bool).
Context (file : filepath) (data_en : list odict) (code_en : list Py.str)
        (data_trans : list odict).

Local Abbreviation path_trans := (λ f : filepath, [TRANSLATION_PATH; code; PACK_PATH] ++ f).

(** The translated pack [file] has gone through the loop body, and its
    English pack is as it was. *)
Local Abbreviation done_with := (λ w : world,
  FS.stat (cwd w) (PACK_PATH :: file) = Some (File (Json data_en))
  ∧ ∃ cur, FS.stat (cwd w) (path_trans file) = Some (File (Json cur))
           ∧ Forall2 (card_step tm no data_en code_en) data_trans cur).

Lemma update_file_keeps_done f w w1 :
  mapR (λ x, OrderedDict.getitem x (u "code")) data_en = Ok code_en →
  update_file tm code no f w = (w1, Ok ()) → done_with w → done_with w1.
Proof.
  intros Hcode Hrun [Hen (cur & Hcur & Hsteps)].
  destruct (writes_at_most_frame _ _ _ _ _ (writes_update_file tm code no f) Hrun)
    as [Hframe _].
  split.
  { apply same_kind_file. rewrite <- Hen. apply Hframe, pack_ne_trans. }
  destruct (decide (f = file)) as [->|Hne].
  - destruct (update_file_Ok_inv _ _ _ _ _ _ Hrun)
      as (data_en' & code_en' & cur' & out & Hen' & Hcode' & Hcur' & Hagain & Hout).
    assert (data_en' = data_en) as -> by congruence.
    assert (code_en' = code_en) as -> by congruence.
    assert (cur' = cur) as -> by congruence.
    rewrite (card_steps_again _ _ _ _ _ _ _ Hsteps Hagain) in Hout. eauto.
  - exists cur. split; [|done]. apply same_kind_file. rewrite <- Hcur.
    apply Hframe. intros Heq. apply Hne. by apply app_inv_head in Heq.
Qed.

Lemma for_each_keeps_done l w w' :
  mapR (λ x, OrderedDict.getitem x (u "code")) data_en = Ok code_en →
  for_each (update_file tm code no) l w = (w', Ok ()) → done_with w → done_with w'.
Proof.
  intros Hcode. revert w. induction l as [|f l IH]; intros w; simpl.
  - by intros [= <-].
  - rewrite bind_IO. destruct (update_file tm code no f w) as [w1 [[]|]] eqn:Hf; [|done].
    intros Hrest Hdone. eapply IH; [done|]. by eapply update_file_keeps_done.
Qed.

End packs_after_run.

Lemma for_each_update_file_result tm code no l w w' file :
  for_each (update_file tm code no) l w = (w', Ok ()) →
  file ∈ l →
  ∃ data_en code_en data_trans out,
    FS.stat (cwd w) (PACK_PATH :: file) = Some (File (Json data_en))
    ∧ mapR (λ x, OrderedDict.getitem x (u "code")) data_en = Ok code_en
    ∧ FS.stat (cwd w) ([TRANSLATION_PATH; code; PACK_PATH] ++ file)
      = Some (File (Json data_trans))
    ∧ FS.stat (cwd w') ([TRANSLATION_PATH; code; PACK_PATH] ++ file)
      = Some (File (Json out))
    ∧ Forall2 (card_step tm no data_en code_en) data_trans out.
Proof.
  revert w. induction l as [|f l IH]; intros w; simpl.
  - intros _ Hin. by apply elem_of_nil in Hin.
  - rewrite bind_IO. destruct (update_file tm code no f w) as [w1 [[]|]] eqn:Hf; [|done].
    intros Hrest Hin.
    destruct (writes_at_most_frame _ _ _ _ _ (writes_update_file tm code no f) Hf)
      as [Hframe _].
    destruct (decide (f = file)) as [->|Hne].
    + destruct (update_file_Ok_inv _ _ _ _ _ _ Hf)
        as (data_en & code_en & data_trans & out & Hen & Hcode & Htrans & Hsteps & Hout).
      assert (Hen1 : FS.stat (cwd w1) (PACK_PATH :: file) = Some (File (Json data_en))).
      { apply same_kind_file. rewrite <- Hen. apply Hframe, pack_ne_trans. }
      destruct (for_each_keeps_done tm code no file data_en code_en data_trans l w1 w'
                  Hcode Hrest) as [_ (cur & Hcur & Hcursteps)]; [eauto|].
      exists data_en, code_en, data_trans, cur. done.
    + apply elem_of_cons in Hin as [->|Hin]; [done|].
      destruct (IH _ Hrest Hin)
        as (data_en & code_en & data_trans & out & Hen & Hcode & Htrans & Hout & Hsteps).
      exists data_en, code_en, data_trans, out. split_and!; [|done| |done..].
      * apply same_kind_file_r. rewrite <- Hen. apply Hframe, pack_ne_trans.
      * apply same_kind_file_r. rewrite <- Htrans. apply Hframe.
        intros Heq. apply Hne. symmetry. by apply app_inv_head in Heq.
Qed.

(** X20: the packs after a run of [update_traits] that returns. Every
    translated pack the run has found holds, card by card, what the loop
    body makes of the card the pack held before the run, with the English
    pack and the dictionary as they were before the run: a card is as it
    was, or has its traits recomputed. This holds also when a pack is found
    more than once. *)
Theorem update_traits_packs_after_run
    (code : Py.str) (cycles : option (list Py.str)) (no : bool) (w w' : world)
    (data : list odict) (tm : gmap Py.str Py.str) (files jsons : list filepath)
    (file : filepath) :
  io.load_json [TRANSLATION_PATH; code; TRAITS_FILENAME] w = (w, Ok data) →
  foldR add_entry ∅ data = Ok tm →
  get_json_files [TRANSLATION_PATH; code; PACK_PATH] cycles w = (w, Ok files) →
  filterIO (λ x, os.isfile (PACK_PATH :: x)) files w = (w, Ok jsons) →
  update_traits code cycles no w = (w', Ok ()) →
  file ∈ jsons →
  ∃ data_en code_en data_trans out,
    FS.stat (cwd w) (PACK_PATH :: file) = Some (File (Json data_en))
    ∧ mapR (λ x, OrderedDict.getitem x (u "code")) data_en = Ok code_en
    ∧ FS.stat (cwd w) ([TRANSLATION_PATH; code; PACK_PATH] ++ file)
      = Some (File (Json data_trans))
    ∧ FS.stat (cwd w') ([TRANSLATION_PATH; code; PACK_PATH] ++ file)
      = Some (File (Json out))
    ∧ Forall2 (card_step tm no data_en code_en) data_trans out.
Proof.
  intros Hdata Htm Hfiles Hjsons Hrun Hin.
  rewrite (update_traits_run _ _ _ _ _ _ _ _ Hdata Htm Hfiles Hjsons) in Hrun.
  by eapply for_each_update_file_result.
Qed.

Lemma update_traits_packs_after_run_witness :
  ∃ data_en code_en data_trans out,
    FS.stat (cwd Sample.incomplete) (PACK_PATH :: Sample.core_a)
      = Some (File (Json data_en))
    ∧ mapR (λ x, OrderedDict.getitem x (u "code")) data_en = Ok code_en
    ∧ FS.stat (cwd Sample.incomplete) (Sample.ko_pack Sample.core_a)
      = Some (File (Json data_trans))
    ∧ FS.stat (cwd (update_traits (u "ko") (Some [u "core"; u "core"]) true
                      Sample.incomplete).1) (Sample.ko_pack Sample.core_a)
      = Some (File (Json out))
    ∧ Forall2 (card_step {[ u "Item" := u "Objet" ]} true data_en code_en) data_trans out.
Proof.
  apply (update_traits_packs_after_run (u "ko") (Some [u "core"; u "core"]) true
           Sample.incomplete _ [trait_entry (u "Item") (u "Objet")]
           {[ u "Item" := u "Objet" ]} [Sample.core_a; Sample.core_a]
           [Sample.core_a; Sample.core_a] Sample.core_a);
    try reflexivity.
  apply elem_of_cons. by left.
Defined.

(** ** What [main] leaves alone *)

Lemma update_traits_outside code cycles no w w' r q :
  update_traits code cycles no w = (w', r) →
  ¬ [TRANSLATION_PATH; code; PACK_PATH] `prefix_of` q →
  same_kind (FS.stat (cwd w') q) (FS.stat (cwd w) q).
Proof.
  intros [->|(tm & jsons & Hloop)]%update_traits_loop Hq.
  - apply same_kind_refl.
  - eapply for_each_update_file_frame; [done|].
    intros file _ ->. apply Hq. by exists file.
Qed.

(** X21: [main] keeps its hands off everything but the master traits file and
    the directory of the Korean translation: every other path, the English
    packs and the other translations among them, names after the run what it
    named before, with the same content, whether the run returns or raises
    and wherever it stops. *)
Theorem main_frame (w w' : world) (r : result ()) (q : filepath) :
  main w = (w', r) →
  q ≠ [TRAITS_FILENAME] →
  ¬ [TRANSLATION_PATH; u "ko"] `prefix_of` q →
  same_kind (FS.stat (cwd w') q) (FS.stat (cwd w) q).
Proof.
  intros Hrun Hmaster Hko. unfold main in Hrun. rewrite bind_IO in Hrun.
  destruct (make_placeholder w) as [w1 r1] eqn:Hmake.
  destruct (writes_at_most_frame _ _ _ _ _ writes_make_placeholder Hmake)
    as [Hframe1 _].
  specialize (Hframe1 q Hmaster).
  destruct r1 as [[]|e]; [|by injection Hrun as <- _].
  rewrite bind_IO in Hrun.
  destruct (update_placeholder (u "ko") w1) as [w2 r2] eqn:Hupdate.
  destruct (writes_at_most_frame _ _ _ _ _ (writes_update_placeholder (u "ko")) Hupdate)
    as [Hframe2 _].
  assert (Hq2 : same_kind (FS.stat (cwd w2) q) (FS.stat (cwd w1) q)).
  { apply Hframe2. intros ->. apply Hko. by exists [TRAITS_FILENAME]. }
  destruct r2 as [[]|e].
  - eapply same_kind_trans; [|exact Hframe1].
    eapply same_kind_trans; [|exact Hq2].
    eapply update_traits_outside; [exact Hrun|].
    intros [k ->]. apply Hko. by exists (PACK_PATH :: k).
  - injection Hrun as <- _. by eapply same_kind_trans.
Qed.

Lemma main_frame_witness :
  same_kind (FS.stat (cwd (main Sample.seeded).1) (PACK_PATH :: Sample.core_a))
            (FS.stat (cwd Sample.seeded) (PACK_PATH :: Sample.core_a)).
Proof.
  apply (main_frame Sample.seeded (main Sample.seeded).1 (main Sample.seeded).2
           (PACK_PATH :: Sample.core_a)).
  - reflexivity.
  - by intros [=].
  - by intros [k [=]].
Defined.

(** ** A card under [no_overwrite] *)

(** [l.index(x)] is the first position of [x]. *)
Lemma index_first (x : Py.str) (l : list Py.str) (i : nat) :
  l !! i = Some x → (∀ j, (j < i)%nat → l !! j ≠ Some x) → index x l = Some i.
Proof.
  revert i. induction l as [|y l IH]; intros i Hi Hfirst; [done|].
  cbn [index]. destruct i as [|i].
  - injection Hi as ->. by rewrite bool_decide_eq_true_2.
  - rewrite bool_decide_eq_false_2.
    + rewrite (IH i); [done|done|]. intros j Hj. apply (Hfirst (S j)). lia.
    + intros ->. by apply (Hfirst 0%nat); [lia|].
Qed.

(** The record [code_en.index] leads to is the English record of the code. *)
Lemma index_english_record data_en code_en c item_en :
  mapR (λ x, OrderedDict.getitem x (u "code")) data_en = Ok code_en →
  english_record data_en c item_en →
  ∃ i, index c code_en = Some i ∧ data_en !! i = Some item_en.
Proof.
  intros Hcodes (i & Hi & Hc & Hfirst). exists i. split; [|done].
  pose proof (proj1 (mapR_Forall2 _ _ _) Hcodes) as Hall.
  apply index_first.
  - destruct (Forall2_lookup_l _ _ _ _ _ Hall Hi) as (c' & -> & Hc').
    apply getitem_Ok in Hc'. congruence.
  - intros j Hj Hcj.
    destruct (Forall2_lookup_r _ _ _ _ _ Hall Hcj) as (e & He & Hec%getitem_Ok).
    by apply (Hfirst j e).
Qed.

(** The loop body, with overwriting disabled, on a card that has traits
    and the code of an English record. *)
Lemma update_item_no_overwrite tm data_en code_en item item_en t c :
  mapR (λ x, OrderedDict.getitem x (u "code")) data_en = Ok code_en →
  OrderedDict.get item (u "traits") = Some t →
  OrderedDict.get item (u "code") = Some c →
  english_record data_en c item_en →
  update_item tm true data_en code_en item =
    match OrderedDict.get item_en (u "traits") with
    | None => Raise (KeyError (u "traits"))
    | Some t_en =>
        if bool_decide (t ≠ t_en) then Ok None
        else names ← mapR (Dict.getitem tm) (_split_traits t_en);
             Ok (Some (OrderedDict.setitem item (u "traits") (_merge_traits names)))
    end.
Proof.
  intros Hcodes Ht Hc Hen.
  destruct (index_english_record _ _ _ _ Hcodes Hen) as (i & Hi & Hrec).
  destruct (OrderedDict.get item_en (u "traits")) as [t_en|] eqn:Hten.
  - by rewrite (update_item_matched tm true _ _ _ _ _ _ _ _ Ht Hc Hi Hrec Hten).
  - unfold update_item.
    rewrite (proj2 (contains_get _ _)) by (by rewrite Ht).
    rewrite (getitem_get _ _ _ Hc). cbn [negb mbind result_bind].
    rewrite Hi, Hrec, (getitem_get _ _ _ Ht). cbn [mbind result_bind].
    unfold OrderedDict.getitem. by rewrite Hten.
Qed.

(** What a step of the loop leaves of such a card. *)
Lemma card_step_no_overwrite tm data_en code_en item item_en item' t c :
  mapR (λ x, OrderedDict.getitem x (u "code")) data_en = Ok code_en →
  OrderedDict.get item (u "traits") = Some t →
  OrderedDict.get item (u "code") = Some c →
  english_record data_en c item_en →
  card_step tm true data_en code_en item item' →
  ∃ t_en, OrderedDict.get item_en (u "traits") = Some t_en
    ∧ (t ≠ t_en → item' = item)
    ∧ (t = t_en →
       ∃ names, mapR (Dict.getitem tm) (_split_traits t_en) = Ok names
         ∧ item' = OrderedDict.setitem item (u "traits") (_merge_traits names)).
Proof.
  intros Hcodes Ht Hc Hen Hstep. unfold card_step in Hstep.
  rewrite (update_item_no_overwrite _ _ _ _ _ _ _ Hcodes Ht Hc Hen) in Hstep.
  destruct (OrderedDict.get item_en (u "traits")) as [t_en|]; [|by destruct Hstep as [[? _]|?]].
  exists t_en. split; [done|]. split.
  - intros Hne. rewrite bool_decide_eq_true_2 in Hstep by done.
    by destruct Hstep as [[_ ->]|[=]].
  - intros Heq. rewrite bool_decide_eq_false_2 in Hstep by (by intros []).
    destruct (mapR (Dict.getitem tm) (_split_traits t_en)) as [names|e];
      cbn [mbind result_bind] in Hstep.
    + exists names. by destruct Hstep as [[[=] _]|[= ->]].
    + by destruct Hstep as [[[=] _]|[=]].
Qed.

(** C1: with overwriting disabled, take a translated card that has a
    [traits] field and whose [code] is the code of an English record, the
    first record of the English pack with that code; [code_en] is the list of
    the codes of the English pack. When the English record has traits, the
    card is left as it is if its traits string differs from the English
    record's, and else its traits string is set to [_merge_traits] of the
    English record's traits, split by [_split_traits] and mapped through the
    language's code-to-name dictionary (the look-up of a code the dictionary
    lacks raises); when the English record has no traits, the comparison
    raises [KeyError('traits')]. The first conjunct is the loop body on the
    card, the second what the loop over a pack leaves at the card's
    position, the third what a run of [update_traits] that returns leaves at
    the card's position in the translated pack. *)
Theorem update_traits_no_overwrite_card
    (tm : gmap Py.str Py.str) (data_en : list odict) (code_en : list Py.str)
    (item item_en : odict) (t c : Py.str) :
  mapR (λ x, OrderedDict.getitem x (u "code")) data_en = Ok code_en →
  OrderedDict.get item (u "traits") = Some t →
  OrderedDict.get item (u "code") = Some c →
  english_record data_en c item_en →
  update_item tm true data_en code_en item =
    match OrderedDict.get item_en (u "traits") with
    | None => Raise (KeyError (u "traits"))
    | Some t_en =>
        if bool_decide (t ≠ t_en) then Ok None
        else names ← mapR (Dict.getitem tm) (_split_traits t_en);
             Ok (Some (OrderedDict.setitem item (u "traits") (_merge_traits names)))
    end
  ∧ (∀ changed before after out changed',
      update_items tm true data_en code_en changed (before ++ item :: after)
        = Ok (out, changed') →
      ∃ t_en, OrderedDict.get item_en (u "traits") = Some t_en
        ∧ (t ≠ t_en → out !! length before = Some item)
        ∧ (t = t_en →
           ∃ names, mapR (Dict.getitem tm) (_split_traits t_en) = Ok names
             ∧ out !! length before
               = Some (OrderedDict.setitem item (u "traits") (_merge_traits names))))
  ∧ (∀ code cycles w w' data files jsons file data_trans j,
      io.load_json [TRANSLATION_PATH; code; TRAITS_FILENAME] w = (w, Ok data) →
      foldR add_entry ∅ data = Ok tm →
      get_json_files [TRANSLATION_PATH; code; PACK_PATH] cycles w = (w, Ok files) →
      filterIO (λ x, os.isfile (PACK_PATH :: x)) files w = (w, Ok jsons) →
      file ∈ jsons →
      FS.stat (cwd w) (PACK_PATH :: file) = Some (File (Json data_en)) →
      FS.stat (cwd w) ([TRANSLATION_PATH; code; PACK_PATH] ++ file)
        = Some (File (Json data_trans)) →
      data_trans !! j = Some item →
      update_traits code cycles true w = (w', Ok ()) →
      ∃ out t_en,
        FS.stat (cwd w') ([TRANSLATION_PATH; code; PACK_PATH] ++ file)
          = Some (File (Json out))
        ∧ OrderedDict.get item_en (u "traits") = Some t_en
        ∧ (t ≠ t_en → out !! j = Some item)
        ∧ (t = t_en →
           ∃ names, mapR (Dict.getitem tm) (_split_traits t_en) = Ok names
             ∧ out !! j
               = Some (OrderedDict.setitem item (u "traits") (_merge_traits names)))).
Proof.
  intros Hcodes Ht Hc Hen. split_and!.
  - exact (update_item_no_overwrite _ _ _ _ _ _ _ Hcodes Ht Hc Hen).
  - intros changed before after out changed' Hloop.
    apply update_items_Ok in Hloop as [Hall _].
    apply Forall2_app_inv_l in Hall as (out1 & out2 & Hout1 & Hout2 & ->).
    apply Forall2_cons_inv_l in Hout2 as (item' & out3 & Hitem & _ & ->).
    rewrite lookup_app_r by (by rewrite (Forall2_length _ _ _ Hout1)).
    rewrite (Forall2_length _ _ _ Hout1), Nat.sub_diag. simpl.
    destruct (card_step_no_overwrite _ _ _ _ _ _ _ _ Hcodes Ht Hc Hen Hitem)
      as (t_en & Hten & Hdiff & Hsame).
    exists t_en. split_and!; [done| |].
    + intros Hne. by rewrite (Hdiff Hne).
    + intros Heq. destruct (Hsame Heq) as (names & Hnames & ->). eauto.
  - intros code cycles w w' data files jsons file data_trans j
      Hdata Htm Hfiles Hjsons Hfile Hpack Htrans Hj Hrun.
    rewrite (update_traits_run _ _ _ _ _ _ _ _ Hdata Htm Hfiles Hjsons) in Hrun.
    destruct (for_each_update_file_result _ _ _ _ _ _ _ Hrun Hfile)
      as (data_en' & code_en' & data_trans' & out & Hpack' & Hcodes' & Htrans' & Hout & Hall).
    assert (data_en' = data_en) as -> by congruence.
    assert (data_trans' = data_trans) as -> by congruence.
    assert (code_en' = code_en) as -> by congruence.
    destruct (Forall2_lookup_l _ _ _ _ _ Hall Hj) as (item' & Hj' & Hitem).
    destruct (card_step_no_overwrite _ _ _ _ _ _ _ _ Hcodes Ht Hc Hen Hitem)
      as (t_en & Hten & Hdiff & Hsame).
    exists out, t_en. split_and!; [done..| |].
    + intros Hne. by rewrite Hj', (Hdiff Hne).
    + intros Heq. destruct (Hsame Heq) as (names & Hnames & ->). eauto.
Qed.

Lemma update_traits_no_overwrite_card_witness :
  let tm : gmap Py.str Py.str := {[ u "Item" := u "Objet"; u "Weapon" := u "Arme" ]} in
  let data_en := [Sample.card "01001" "Item."; Sample.card "01002" "Item. Weapon."] in
  let code_en := [u "01001"; u "01002"] in
  update_item tm true data_en code_en (Sample.card "01002" "Item. Weapon.")
    = Ok (Some (Sample.card "01002" "Objet. Arme."))
  ∧ update_item tm true data_en code_en (Sample.card "01002" "Main.")
    = Ok None.
Proof.
  intros tm data_en code_en.
  assert (Hen : english_record data_en (u "01002") (Sample.card "01002" "Item. Weapon.")).
  { exists 1%nat. split_and!; [done..|].
    intros j e Hj He Hcode. destruct j as [|j]; [|lia].
    injection He as <-. by vm_compute in Hcode. }
  split.
  - exact (proj1 (update_traits_no_overwrite_card tm data_en code_en
      (Sample.card "01002" "Item. Weapon.") (Sample.card "01002" "Item. Weapon.")
      (u "Item. Weapon.") (u "01002") eq_refl eq_refl eq_refl Hen)).
  - exact (proj1 (update_traits_no_overwrite_card tm data_en code_en
      (Sample.card "01002" "Main.") (Sample.card "01002" "Item. Weapon.")
      (u "Main.") (u "01002") eq_refl eq_refl eq_refl Hen)).
Defined.
